(** * ThreadGraph: goroutine-leak detectors, stack classifier, static
      lock-release analyzer and JSON reporter.

    A shallow embedding of the Go sources:
    - [GoStrings]  : the functions of Go's [strings] package the code calls;
    - [GoUTF8]     : the text [encoding/json] writes for a Go string;
    - [GoTime]     : [time.Duration] arithmetic ([Round], [Milliseconds]);
    - [Detector]   : [internal/detector]: filter.go, the types and the
                     event loop of [Analyze] (detector.go), the detectors
                     of leaks.go (detectLeaks, detectOrphans,
                     detectTransientBlocks) and of deadlock.go
                     (detectDeadlocks, detectABBA, detectChanLockCycle);
    - [Trace]      : the events of [golang.org/x/exp/trace] the code reads;
    - [Prototype]  : the stand-alone [analyzeTrace] program (package main);
    - [Static]     : the go/ssa lock-release analyzer;
    - [Cmd]        : the loop of [cmd/run.go] that joins the static findings
                     to the result;
    - [Reporter]   : [internal/reporter/json.go];
    - [Spec]       : the wording of the specification, for comparison;
    - [Views], [Examples] : loop views used in the proofs, concrete inputs;
    - [Trail]      : what a trace says about a goroutine, for comparison
                     with the state the event loop of [Analyze] ends with;
    - [Debug]      : [truncate], [splitLines] and the filter status of
                     [printDebugFiltered] (detector.go);
    - [Terminal]   : [countKind] and [pluralize] of
                     [internal/reporter/terminal.go];
    - [Tracer]     : [runMulti] of [internal/tracer];
    - [Run]        : [joinArgs], [scheduleDiversityValues] and the retry
                     loop of [cmd/run.go];
    - [Scenarios]  : further traces and runs.

    Go strings are byte strings: [string] is used with one [ascii] per byte.
    Go maps are iterated in an order the runtime picks afresh on every
    [range]; a map that is ranged over is therefore given to the model as
    the list of its entries in the order of that iteration, with pairwise
    distinct keys. *)

From Stdlib Require Import ZArith String Ascii List Permutation Lia Bool DecimalString.
From stdpp Require Import base gmap list strings.

Local Open Scope string_scope.
Local Open Scope list_scope.
Local Open Scope Z_scope.

(* ===================================================================== *)
(** ** Go's [strings] package *)
(* ===================================================================== *)

Module GoStrings.

(** [strings.HasPrefix(s, prefix)]. *)
Definition HasPrefix (s prefix : string) : bool := String.prefix prefix s.

(** [strings.Contains(s, substr)]: [substr] occurs at some byte offset. *)
Fixpoint Contains (s substr : string) : bool :=
  HasPrefix s substr ||
  match s with
  | EmptyString => false
  | String _ s' => Contains s' substr
  end.

(** [strings.Split(s, sep)] for a one-byte separator (the source only
    splits on a newline): one piece more than there are separators. *)
Fixpoint Split (s : string) (sep : ascii) : list string :=
  match s with
  | EmptyString => [EmptyString]
  | String c s' =>
      if Ascii.eqb c sep then EmptyString :: Split s' sep
      else match Split s' sep with
           | [] => [String c EmptyString]
           | p :: ps => String c p :: ps
           end
  end.

(** [strings.SplitN(s, sep, 2)[0]] for a one-byte separator: the text
    before the first separator, or all of [s] when there is none. *)
Fixpoint SplitN2_first (s : string) (sep : ascii) : string :=
  match s with
  | EmptyString => EmptyString
  | String c s' =>
      if Ascii.eqb c sep then EmptyString else String c (SplitN2_first s' sep)
  end.

(** [asciiSpace]: tab, newline, vertical tab, form feed, carriage return,
    space. *)
Definition isAsciiSpace (c : ascii) : bool :=
  let n := N_of_ascii c in
  ((9 <=? n) && (n <=? 13))%N || (n =? 32)%N.

(** Two-byte UTF-8 encodings of white space: U+0085 and U+00A0. *)
Definition isSpace2 (c1 c2 : ascii) : bool :=
  (N_of_ascii c1 =? 194)%N &&
  ((N_of_ascii c2 =? 133)%N || (N_of_ascii c2 =? 160)%N).

(** Three-byte UTF-8 encodings of white space: U+1680, U+2000..U+200A,
    U+2028, U+2029, U+202F, U+205F, U+3000. *)
Definition isSpace3 (c1 c2 c3 : ascii) : bool :=
  let n1 := N_of_ascii c1 in
  let n2 := N_of_ascii c2 in
  let n3 := N_of_ascii c3 in
  ((n1 =? 225) && (n2 =? 154) && (n3 =? 128))%N ||
  ((n1 =? 226) && (n2 =? 128) &&
     (((128 <=? n3) && (n3 <=? 138)) || (n3 =? 168) || (n3 =? 169) || (n3 =? 175)))%N ||
  ((n1 =? 226) && (n2 =? 129) && (n3 =? 159))%N ||
  ((n1 =? 227) && (n2 =? 128) && (n3 =? 128))%N.

(** [strings.TrimLeftFunc(s, unicode.IsSpace)]: drop leading white-space
    runes.  A byte sequence decodes to a white-space rune exactly when it
    is one of the encodings above. *)
Fixpoint TrimLeftSpace (s : string) : string :=
  match s with
  | EmptyString => EmptyString
  | String c1 s1 =>
      if isAsciiSpace c1 then TrimLeftSpace s1
      else match s1 with
           | EmptyString => s
           | String c2 s2 =>
               if isSpace2 c1 c2 then TrimLeftSpace s2
               else match s2 with
                    | EmptyString => s
                    | String c3 s3 =>
                        if isSpace3 c1 c2 c3 then TrimLeftSpace s3 else s
                    end
           end
  end.

Fixpoint rev_string (acc s : string) : string :=
  match s with
  | EmptyString => acc
  | String c s' => rev_string (String c acc) s'
  end.

(** The same on a reversed string: the last byte of a rune comes first. *)
Fixpoint TrimLeftSpace_rev (r : string) : string :=
  match r with
  | EmptyString => EmptyString
  | String c1 r1 =>
      if isAsciiSpace c1 then TrimLeftSpace_rev r1
      else match r1 with
           | EmptyString => r
           | String c2 r2 =>
               if isSpace2 c2 c1 then TrimLeftSpace_rev r2
               else match r2 with
                    | EmptyString => r
                    | String c3 r3 =>
                        if isSpace3 c3 c2 c1 then TrimLeftSpace_rev r3 else r
                    end
           end
  end.

(** [strings.TrimRightFunc(s, unicode.IsSpace)]. *)
Definition TrimRightSpace (s : string) : string :=
  rev_string EmptyString (TrimLeftSpace_rev (rev_string EmptyString s)).

(** [strings.TrimSpace(s)]: all leading and trailing white space removed,
    as defined by Unicode. *)
Definition TrimSpace (s : string) : string := TrimRightSpace (TrimLeftSpace s).

End GoStrings.

(* ===================================================================== *)
(** ** Go's [unicode/utf8] and the strings of [encoding/json] *)
(* ===================================================================== *)

Module GoUTF8.

Definition byteOf (c : ascii) : N := N_of_ascii c.

(** A byte between [lo] and [hi]. *)
Definition between (lo hi : N) (c : ascii) : bool :=
  ((lo <=? byteOf c) && (byteOf c <=? hi))%N.

(** The width [utf8.DecodeRuneInString(s)] returns when [s] starts with a
    valid encoding; 0 when [s] is empty or starts with a byte for which
    the function returns [(RuneError, 1)]: a byte that begins no encoding,
    or an encoding that is cut short, overlong, a surrogate or above
    U+10FFFF. *)
Definition runeWidth (s : string) : nat :=
  match s with
  | EmptyString => 0
  | String c0 rest =>
      let b0 := byteOf c0 in
      if (b0 <? 128)%N then 1
      else if (b0 <? 194)%N then 0
      else if (b0 <? 224)%N then
        match rest with
        | String c1 _ => if between 128 191 c1 then 2 else 0
        | _ => 0
        end
      else if (b0 <? 240)%N then
        let lo := if (b0 =? 224)%N then 160%N else 128%N in
        let hi := if (b0 =? 237)%N then 159%N else 191%N in
        match rest with
        | String c1 (String c2 _) =>
            if between lo hi c1 && between 128 191 c2 then 3 else 0
        | _ => 0
        end
      else if (b0 <? 245)%N then
        let lo := if (b0 =? 240)%N then 144%N else 128%N in
        let hi := if (b0 =? 244)%N then 143%N else 191%N in
        match rest with
        | String c1 (String c2 (String c3 _)) =>
            if between lo hi c1 && between 128 191 c2 && between 128 191 c3
            then 4 else 0
        | _ => 0
        end
      else 0
  end.

(** U+FFFD, the replacement character, in UTF-8. *)
Definition replacement : string :=
  String (ascii_of_N 239) (String (ascii_of_N 191) (String (ascii_of_N 189) "")).

(** The text of the JSON string [encoding/json] writes for the Go string
    [s]: the encoder copies every valid encoding (escaped or not) and
    writes [\ufffd] for each byte for which [utf8.DecodeRuneInString]
    returns [(RuneError, 1)].  [skip] counts the bytes that remain of the
    encoding being copied. *)
Fixpoint jsonText_from (skip : nat) (s : string) : string :=
  match s with
  | EmptyString => EmptyString
  | String c rest =>
      match skip with
      | S k => String c (jsonText_from k rest)
      | O =>
          match runeWidth s with
          | O => String.append replacement (jsonText_from 0 rest)
          | S k => String c (jsonText_from k rest)
          end
      end
  end.

Definition jsonText (s : string) : string := jsonText_from 0 s.

(** [utf8.ValidString(s)]: [s] is made of valid encodings only. *)
Fixpoint ValidString_from (skip : nat) (s : string) : bool :=
  match s with
  | EmptyString => true
  | String c rest =>
      match skip with
      | S k => ValidString_from k rest
      | O =>
          match runeWidth s with
          | O => false
          | S k => ValidString_from k rest
          end
      end
  end.

Definition ValidString (s : string) : bool := ValidString_from 0 s.

End GoUTF8.

(* ===================================================================== *)
(** ** Go's [time.Duration] *)
(* ===================================================================== *)

Module GoTime.

(** [trace.Time], [trace.GoID] and [time.Duration] are all [int64]. *)
Definition int64_min : Z := - 2 ^ 63.
Definition int64_max : Z := 2 ^ 63 - 1.

Definition in_int64 (z : Z) : Prop := int64_min <= z <= int64_max.

(** Two's-complement wrap-around of an [int64] result. *)
Definition wrap64 (z : Z) : Z := (z + 2 ^ 63) mod 2 ^ 64 - 2 ^ 63.

Definition Nanosecond : Z := 1.
Definition Millisecond : Z := 1000000.
Definition Second : Z := 1000000000.

(** [a - b] on [int64]. *)
Definition sub64 (a b : Z) : Z := wrap64 (a - b).
(** [a * b] on [int64]. *)
Definition mul64 (a b : Z) : Z := wrap64 (a * b).

(** [lessThanHalf(x, y)]: [uint64(x)+uint64(x) < uint64(y)] for positive
    arguments. *)
Definition lessThanHalf (x y : Z) : bool :=
  ((x + x) mod 2 ^ 64 <? y mod 2 ^ 64).

(** [d.Round(m)]: nearest multiple of [m], halfway values away from zero,
    saturating on overflow. *)
Definition Round (d m : Z) : Z :=
  if m <=? 0 then d
  else
    let r := Z.rem d m in
    if d <? 0 then
      let r := - r in
      if lessThanHalf r m then wrap64 (d + r)
      else
        let d1 := wrap64 (wrap64 (d - m) + r) in
        if d1 <? d then d1 else int64_min
    else
      if lessThanHalf r m then wrap64 (d - r)
      else
        let d1 := wrap64 (wrap64 (d + m) - r) in
        if d1 >? d then d1 else int64_max.

(** [d.Milliseconds()]: integer division truncating toward zero. *)
Definition Milliseconds (d : Z) : Z := Z.quot d 1000000.

End GoTime.

(* ===================================================================== *)
(** ** The trace vocabulary of [golang.org/x/exp/trace] *)
(* ===================================================================== *)

Module Trace.

Inductive GoState :=
  GoUndetermined | GoNotExist | GoRunnable | GoRunning | GoWaiting | GoSyscall.

(** [GoState.Executing]: running or in a system call. *)
Definition Executing (s : GoState) : bool :=
  match s with
  | GoRunning | GoSyscall => true
  | _ => false
  end.

Definition GoState_eqb (a b : GoState) : bool :=
  match a, b with
  | GoUndetermined, GoUndetermined | GoNotExist, GoNotExist
  | GoRunnable, GoRunnable | GoRunning, GoRunning
  | GoWaiting, GoWaiting | GoSyscall, GoSyscall => true
  | _, _ => false
  end.

Record StackFrame := mkFrame {
  Func : string;
  File : string;
  Line : N
}.

(** The resource of a state transition: a goroutine with its old and new
    state, or a resource of another kind (thread, proc). *)
Inductive Resource :=
  | ResourceGoroutine (gid : Z) (from to : GoState)
  | ResourceOther.

Record StateTransition := mkTransition {
  Resource_ : Resource;
  Reason : string;
  Stack : list StackFrame
}.

Inductive EventPayload :=
  | EventStateTransition (st : StateTransition)
  | EventOther.

Record Event := mkEvent {
  Time : Z;
  Payload : EventPayload
}.

(** [fmt.Fprintf(&sb, "      %s (%s:%d)\n", f.Func, f.File, f.Line)]. *)
Definition renderFrame (f : StackFrame) : string :=
  String.append "      "
    (String.append (Func f)
       (String.append " ("
          (String.append (File f)
             (String.append ":"
                (String.append (NilEmpty.string_of_uint (N.to_uint (Line f)))
                   (String.append ")" (String (ascii_of_nat 10) EmptyString))))))).

Definition renderStack (frames : list StackFrame) : string :=
  fold_left (fun sb f => String.append sb (renderFrame f)) frames EmptyString.

End Trace.

(* ===================================================================== *)
(** ** Package [internal/detector] *)
(* ===================================================================== *)

Module Detector.
Import GoStrings GoTime Trace.

(** *** filter.go *)

Definition isRuntimeFrame (funcName line : string) : bool :=
  HasPrefix funcName "runtime." ||
  Contains line "runtime/" ||
  HasPrefix funcName "runtime2." ||
  Contains line "/runtime/trace" ||
  HasPrefix funcName "testing." ||
  Contains line "_testmain.go".

Definition newline : ascii := ascii_of_nat 10.
Definition space : ascii := ascii_of_nat 32.

(** [extractStack]: the rendered stack and the function and [file:line]
    of the first frame that is not a runtime frame. *)
Definition extractStack (s : list StackFrame) : string * string * string :=
  fold_left
    (λ '(sb, function, location) f,
       let sb := String.append sb (renderFrame f) in
       if String.eqb location "" && negb (isRuntimeFrame (Func f) (File f))
       then (sb, Func f,
             String.append (File f)
               (String.append ":" (NilEmpty.string_of_uint (N.to_uint (Line f)))))
       else (sb, function, location))
    s ("", "", "").

(** The body of the [for _, line := range strings.Split(stack, "\n")] loop
    of [isRuntimeGoroutine]: [true] when the loop goes on to the next line,
    [false] when it returns [false].  [strings.SplitN] returns at least one
    piece, so the guard [len(parts) < 1] never fires. *)
Definition runtimeLine (line : string) : bool :=
  let line := TrimSpace line in
  if String.eqb line "" then true
  else
    let funcName := SplitN2_first line space in
    isRuntimeFrame funcName line.

Definition isRuntimeGoroutine (stack : string) : bool :=
  if String.eqb stack "" then true
  else forallb runtimeLine (Split stack newline).

Definition isNonTestRuntimeGoroutine (stack : string) : bool :=
  if negb (isRuntimeGoroutine stack) then false
  else negb (Contains stack "testing.").

(** *** detector.go: types *)

(** [type Kind string] and [type Confidence string] with their
    constants. *)
Definition Kind := string.
Definition KindGoroutineLeak : Kind := "goroutine_leak".
Definition KindDeadlock : Kind := "deadlock".
Definition KindLongBlock : Kind := "long_block".
Definition KindLockLeak : Kind := "lock_leak".

Definition Confidence := string.
Definition ConfidenceHigh : Confidence := "high".
Definition ConfidenceMedium : Confidence := "medium".
Definition ConfidenceLow : Confidence := "low".

Record Options := mkOptions {
  MinBlock : Z;
  DebugFiltered : bool
}.

Record Finding := mkFinding {
  Kind_ : Kind;
  Confidence_ : Confidence;
  GoroutineID : Z;
  BlockedOn : string;
  BlockedFor : Z;
  Stack : string;
  Function : string;
  Location : string
}.

Record Result := mkResult {
  TraceFile : string;
  DurationMs : Z;
  GoroutinesAnalyzed : Z;
  Findings : list Finding
}.

Definition syncHistorySize : Z := 5.

Record syncEntry := mkSyncEntry {
  se_location : string;
  se_endTime : Z
}.

Definition zeroEntry : syncEntry := {| se_location := ""; se_endTime := 0 |}.

Record goroutineState := mkGoroutineState {
  reason : string;
  stack : string;
  function : string;
  location : string;
  blockStart : Z;
  isBlocked : bool;
  creationStack : string;
  creationSeen : bool;
  creationFunction : string;
  creationLocation : string;
  prevLongBlockReason : string;
  prevLongBlockStack : string;
  prevLongBlockFunction : string;
  prevLongBlockLocation : string;
  prevLongBlockDuration : Z;
  syncHistory : list syncEntry;
  syncHistoryIdx : Z;
  prevSyncLocation : string;
  prevSyncEndTime : Z;
  goroutineDead : bool
}.

(** [&goroutineState{}]: every field at its zero value; [syncHistory] is
    an array of five entries. *)
Definition zeroState : goroutineState :=
  {| reason := ""; stack := ""; function := ""; location := "";
     blockStart := 0; isBlocked := false;
     creationStack := ""; creationSeen := false;
     creationFunction := ""; creationLocation := "";
     prevLongBlockReason := ""; prevLongBlockStack := "";
     prevLongBlockFunction := ""; prevLongBlockLocation := "";
     prevLongBlockDuration := 0;
     syncHistory := replicate 5 zeroEntry; syncHistoryIdx := 0;
     prevSyncLocation := ""; prevSyncEndTime := 0;
     goroutineDead := false |}.

(** [syncHistoryList]: the recent sync unblocks, most recent first.  The
    positions computed in the loop lie between 0 and 4. *)
Definition syncHistoryList (g : goroutineState) : list syncEntry :=
  let n := syncHistoryIdx g in
  let n := if n >? syncHistorySize then syncHistorySize else n in
  flat_map
    (λ i : nat,
       let pos := Z.rem (wrap64 (wrap64 (syncHistoryIdx g - 1) - Z.of_nat i))
                        syncHistorySize in
       let pos := if pos <? 0 then pos + syncHistorySize else pos in
       let e := default zeroEntry (syncHistory g !! Z.to_nat pos) in
       if negb (String.eqb (se_location e) "") then [e] else [])
    (seq 0 (Z.to_nat n)).

(** *** detector.go: the event loop of [Analyze] *)

(** The assignments of the event loop, each on the record [g] points
    to. *)
Definition setCreation (g : goroutineState) (s f l : string) : goroutineState :=
  {| reason := reason g; stack := stack g; function := function g;
     location := location g; blockStart := blockStart g;
     isBlocked := isBlocked g;
     creationStack := s; creationSeen := true;
     creationFunction := f; creationLocation := l;
     prevLongBlockReason := prevLongBlockReason g;
     prevLongBlockStack := prevLongBlockStack g;
     prevLongBlockFunction := prevLongBlockFunction g;
     prevLongBlockLocation := prevLongBlockLocation g;
     prevLongBlockDuration := prevLongBlockDuration g;
     syncHistory := syncHistory g; syncHistoryIdx := syncHistoryIdx g;
     prevSyncLocation := prevSyncLocation g;
     prevSyncEndTime := prevSyncEndTime g;
     goroutineDead := goroutineDead g |}.

Definition setDead (g : goroutineState) : goroutineState :=
  {| reason := reason g; stack := stack g; function := function g;
     location := location g; blockStart := blockStart g;
     isBlocked := isBlocked g;
     creationStack := creationStack g; creationSeen := creationSeen g;
     creationFunction := creationFunction g;
     creationLocation := creationLocation g;
     prevLongBlockReason := prevLongBlockReason g;
     prevLongBlockStack := prevLongBlockStack g;
     prevLongBlockFunction := prevLongBlockFunction g;
     prevLongBlockLocation := prevLongBlockLocation g;
     prevLongBlockDuration := prevLongBlockDuration g;
     syncHistory := syncHistory g; syncHistoryIdx := syncHistoryIdx g;
     prevSyncLocation := prevSyncLocation g;
     prevSyncEndTime := prevSyncEndTime g;
     goroutineDead := true |}.

(** The current-block fields set to the given values. *)
Definition setBlock (g : goroutineState) (blocked : bool) (r : string)
    (start : Z) (s f l : string) : goroutineState :=
  {| reason := r; stack := s; function := f; location := l;
     blockStart := start; isBlocked := blocked;
     creationStack := creationStack g; creationSeen := creationSeen g;
     creationFunction := creationFunction g;
     creationLocation := creationLocation g;
     prevLongBlockReason := prevLongBlockReason g;
     prevLongBlockStack := prevLongBlockStack g;
     prevLongBlockFunction := prevLongBlockFunction g;
     prevLongBlockLocation := prevLongBlockLocation g;
     prevLongBlockDuration := prevLongBlockDuration g;
     syncHistory := syncHistory g; syncHistoryIdx := syncHistoryIdx g;
     prevSyncLocation := prevSyncLocation g;
     prevSyncEndTime := prevSyncEndTime g;
     goroutineDead := goroutineDead g |}.

(** [prevLongBlock*] taken from the current block, with duration [dur]. *)
Definition setPrevLongBlock (g : goroutineState) (dur : Z) : goroutineState :=
  {| reason := reason g; stack := stack g; function := function g;
     location := location g; blockStart := blockStart g;
     isBlocked := isBlocked g;
     creationStack := creationStack g; creationSeen := creationSeen g;
     creationFunction := creationFunction g;
     creationLocation := creationLocation g;
     prevLongBlockReason := reason g;
     prevLongBlockStack := stack g;
     prevLongBlockFunction := function g;
     prevLongBlockLocation := location g;
     prevLongBlockDuration := dur;
     syncHistory := syncHistory g; syncHistoryIdx := syncHistoryIdx g;
     prevSyncLocation := prevSyncLocation g;
     prevSyncEndTime := prevSyncEndTime g;
     goroutineDead := goroutineDead g |}.

(** The push on the circular buffer and the single-entry shortcut; the
    array store panics ([None]) for a negative position. *)
Definition pushSync (g : goroutineState) (time : Z) : option goroutineState :=
  let pos := Z.rem (syncHistoryIdx g) syncHistorySize in
  if pos <? 0 then None
  else
    Some
      {| reason := reason g; stack := stack g; function := function g;
         location := location g; blockStart := blockStart g;
         isBlocked := isBlocked g;
         creationStack := creationStack g; creationSeen := creationSeen g;
         creationFunction := creationFunction g;
         creationLocation := creationLocation g;
         prevLongBlockReason := prevLongBlockReason g;
         prevLongBlockStack := prevLongBlockStack g;
         prevLongBlockFunction := prevLongBlockFunction g;
         prevLongBlockLocation := prevLongBlockLocation g;
         prevLongBlockDuration := prevLongBlockDuration g;
         syncHistory :=
           <[Z.to_nat pos := {| se_location := location g; se_endTime := time |}]>
             (syncHistory g);
         syncHistoryIdx := wrap64 (syncHistoryIdx g + 1);
         prevSyncLocation := location g;
         prevSyncEndTime := time;
         goroutineDead := goroutineDead g |}.

(** The four [if] statements of the loop body applied to the record of the
    goroutine. *)
Definition applyTransition (time : Z) (st : StateTransition)
    (from to : GoState) (g : goroutineState) : option goroutineState :=
  let g :=
    if GoState_eqb from GoNotExist then
      let '(s, f, l) := extractStack (Trace.Stack st) in setCreation g s f l
    else g in
  let g := if GoState_eqb to GoNotExist then setDead g else g in
  let g :=
    if Executing from && GoState_eqb to GoWaiting then
      let '(s, f, l) := extractStack (Trace.Stack st) in
      setBlock g true (Reason st) time s f l
    else g in
  if GoState_eqb from GoWaiting && (Executing to || GoState_eqb to GoRunnable)
  then
    let g' :=
      if isBlocked g && String.eqb (reason g) "sync" then
        let dur := mul64 (sub64 time (blockStart g)) Nanosecond in
        let g := if dur >? prevLongBlockDuration g
                 then setPrevLongBlock g dur else g in
        pushSync g time
      else Some g in
    match g' with
    | None => None
    | Some g => Some (setBlock g false "" (blockStart g) "" "" "")
    end
  else Some g.

(** The locals of the event loop. *)
Record engine := mkEngine {
  goroutines : gmap Z goroutineState;
  firstTime : Z;
  lastTime : Z;
  first : bool
}.

Definition initEngine : engine :=
  {| goroutines := ∅; firstTime := 0; lastTime := 0; first := true |}.

(** One iteration of the event loop; [None] when it panics. *)
Definition step (e : engine) (ev : Event) : option engine :=
  let firstTime := if first e then Time ev else firstTime e in
  let lastTime := Time ev in
  let skip :=
    Some {| goroutines := goroutines e; firstTime := firstTime;
            lastTime := lastTime; first := false |} in
  match Payload ev with
  | EventOther => skip
  | EventStateTransition st =>
      match Resource_ st with
      | ResourceOther => skip
      | ResourceGoroutine gid from to =>
          let g := default zeroState (goroutines e !! gid) in
          match applyTransition (Time ev) st from to g with
          | None => None
          | Some g' =>
              Some {| goroutines := <[gid := g']> (goroutines e);
                      firstTime := firstTime; lastTime := lastTime;
                      first := false |}
          end
      end
  end.

(** The loop over the events read before end of file or the first read
    error. *)
Fixpoint runEvents (e : engine) (events : list Event) : option engine :=
  match events with
  | [] => Some e
  | ev :: rest =>
      match step e ev with
      | None => None
      | Some e' => runEvents e' rest
      end
  end.

(** A [map[trace.GoID]*goroutineState] in the order one [range] visits it. *)
Definition goroutineMap := list (Z * goroutineState).

(** *** leaks.go: detectLeaks *)

(** One iteration of the loop of [detectLeaks]: [None] is [continue],
    [Some f] is the finding appended. *)
Definition detectLeaks_body (lastTime : Z) (opts : Options)
    (gid : Z) (g : goroutineState) : option Finding :=
  if negb (isBlocked g) then None
  else if isRuntimeGoroutine (stack g) then None
  else if String.eqb (reason g) "sleep" then None
  else
    let isChanBlock :=
      String.eqb (reason g) "chan send" || String.eqb (reason g) "chan receive" in
    let isSyncBlock := String.eqb (reason g) "sync" in
    if isChanBlock && negb (creationSeen g) then None
    else if isChanBlock && isNonTestRuntimeGoroutine (creationStack g) then None
    else if negb isChanBlock && negb isSyncBlock &&
            (negb (creationSeen g) || isNonTestRuntimeGoroutine (creationStack g))
    then None
    else
      let blocked := mul64 (sub64 lastTime (blockStart g)) Nanosecond in
      let emit kind conf :=
        Some {| Kind_ := kind; Confidence_ := conf; GoroutineID := gid;
                BlockedOn := reason g; BlockedFor := blocked;
                Stack := stack g; Function := function g;
                Location := location g |} in
      if String.eqb (reason g) "chan send" || String.eqb (reason g) "chan receive"
      then emit KindGoroutineLeak ConfidenceHigh
      else if blocked <? MinBlock opts then None
      else emit KindLongBlock ConfidenceMedium.

Fixpoint detectLeaks_loop (lastTime : Z) (opts : Options)
    (goroutines : goroutineMap) (findings : list Finding) : list Finding :=
  match goroutines with
  | [] => findings
  | (gid, g) :: rest =>
      match detectLeaks_body lastTime opts gid g with
      | None => detectLeaks_loop lastTime opts rest findings
      | Some f => detectLeaks_loop lastTime opts rest (findings ++ [f])
      end
  end.

Definition detectLeaks (goroutines : goroutineMap) (lastTime : Z)
    (opts : Options) : list Finding :=
  detectLeaks_loop lastTime opts goroutines [].

(** *** leaks.go: detectOrphans *)

Definition orphanReason : string :=
  "never ran (test exited before goroutine was scheduled)".

Definition detectOrphans_body (traceDuration : Z)
    (gid : Z) (g : goroutineState) : option Finding :=
  if goroutineDead g then None
  else if isBlocked g then None
  else if negb (creationSeen g) then None
  else if isNonTestRuntimeGoroutine (creationStack g) then None
  else
    let fn := creationFunction g in
    let loc := creationLocation g in
    if isRuntimeGoroutine (stack g) && String.eqb fn "" then None
    else
      Some {| Kind_ := KindGoroutineLeak; Confidence_ := ConfidenceLow;
              GoroutineID := gid; BlockedOn := orphanReason;
              BlockedFor := traceDuration; Stack := creationStack g;
              Function := fn; Location := loc |}.

Fixpoint detectOrphans_loop (traceDuration : Z)
    (goroutines : goroutineMap) (findings : list Finding) : list Finding :=
  match goroutines with
  | [] => findings
  | (gid, g) :: rest =>
      match detectOrphans_body traceDuration gid g with
      | None => detectOrphans_loop traceDuration rest findings
      | Some f => detectOrphans_loop traceDuration rest (findings ++ [f])
      end
  end.

Definition detectOrphans (goroutines : goroutineMap) (traceDuration : Z)
    : list Finding :=
  if traceDuration >=? mul64 200 Millisecond then []
  else detectOrphans_loop traceDuration goroutines [].

(** *** leaks.go: detectTransientBlocks *)

Definition transientFinding (gid : Z) (g : goroutineState) : Finding :=
  {| Kind_ := KindLongBlock; Confidence_ := ConfidenceMedium;
     GoroutineID := gid; BlockedOn := prevLongBlockReason g;
     BlockedFor := prevLongBlockDuration g; Stack := prevLongBlockStack g;
     Function := prevLongBlockFunction g;
     Location := prevLongBlockLocation g |}.

(** [seen[k]] on a [map[string]bool]: [false] for an absent key. *)
Definition seenAt (seen : gmap string bool) (k : string) : bool :=
  default false (seen !! k).

(** The loop of [detectTransientBlocks], with its two locals [seen] and
    [findings]. *)
Fixpoint detectTransientBlocks_loop (opts : Options)
    (goroutines : goroutineMap) (seen : gmap string bool)
    (findings : list Finding) : gmap string bool * list Finding :=
  match goroutines with
  | [] => (seen, findings)
  | (gid, g) :: rest =>
      if prevLongBlockDuration g <? MinBlock opts then
        detectTransientBlocks_loop opts rest seen findings
      else if isRuntimeGoroutine (prevLongBlockStack g) then
        detectTransientBlocks_loop opts rest seen findings
      else if seenAt seen (prevLongBlockLocation g) then
        detectTransientBlocks_loop opts rest seen findings
      else
        detectTransientBlocks_loop opts rest
          (<[prevLongBlockLocation g := true]> seen)
          (findings ++ [transientFinding gid g])
  end.

Definition detectTransientBlocks (goroutines : goroutineMap) (opts : Options)
    : list Finding :=
  snd (detectTransientBlocks_loop opts goroutines ∅ []).

(** *** deadlock.go *)

Definition abbaStaleWindow : Z := mul64 5 Second.
Definition deadlockThreshold : Z := mul64 500 Millisecond.

(** A member of a group of [detectDeadlocks]. *)
Record member := mkMember {
  m_gid : Z;
  m_g : goroutineState;
  m_blocked : Z
}.

(** [groups[k]] on a [map[key][]member]: [nil] for an absent key. *)
Definition groupAt (groups : gmap (string * string) (list member))
    (k : string * string) : list member :=
  default [] (groups !! k).

Definition effectiveThreshold (opts : Options) : Z :=
  if (MinBlock opts >? 0) && (MinBlock opts <? deadlockThreshold)
  then MinBlock opts else deadlockThreshold.

(** The first loop of [detectDeadlocks]: the groups by (reason,
    location). *)
Fixpoint deadlockGroups_loop (threshold lastTime : Z)
    (goroutines : goroutineMap) (groups : gmap (string * string) (list member))
    : gmap (string * string) (list member) :=
  match goroutines with
  | [] => groups
  | (gid, g) :: rest =>
      if negb (isBlocked g) then
        deadlockGroups_loop threshold lastTime rest groups
      else if isRuntimeGoroutine (stack g) then
        deadlockGroups_loop threshold lastTime rest groups
      else if negb (String.eqb (reason g) "sync") then
        deadlockGroups_loop threshold lastTime rest groups
      else
        let blocked := mul64 (sub64 lastTime (blockStart g)) Nanosecond in
        if blocked <? threshold then
          deadlockGroups_loop threshold lastTime rest groups
        else
          let k := (reason g, location g) in
          deadlockGroups_loop threshold lastTime rest
            (<[k := groupAt groups k ++ [mkMember gid g blocked]]> groups)
  end.

Definition deadlockGroups (goroutines : goroutineMap) (lastTime : Z)
    (opts : Options) : gmap (string * string) (list member) :=
  deadlockGroups_loop (effectiveThreshold opts) lastTime goroutines ∅.

(** The longest-blocked member, the earliest one on a tie. *)
Fixpoint pickBest (best : member) (rest : list member) : member :=
  match rest with
  | [] => best
  | m :: rest' =>
      pickBest (if m_blocked m >? m_blocked best then m else best) rest'
  end.

(** The second loop of [detectDeadlocks], over the groups in the order the
    [range] visits them. *)
Fixpoint deadlockFindings_loop
    (groupOrder : list ((string * string) * list member))
    (findings : list Finding) : list Finding :=
  match groupOrder with
  | [] => findings
  | (k, members) :: rest =>
      match members with
      | [] => deadlockFindings_loop rest findings
      | m0 :: ms =>
          let best := pickBest m0 ms in
          deadlockFindings_loop rest
            (findings ++
             [ {| Kind_ := KindDeadlock; Confidence_ := ConfidenceMedium;
                  GoroutineID := m_gid best; BlockedOn := fst k;
                  BlockedFor := m_blocked best; Stack := stack (m_g best);
                  Function := function (m_g best);
                  Location := location (m_g best) |} ])
      end
  end.

(** [detectDeadlocks]; [groupOrder] is the order in which the second
    [range] visits [deadlockGroups goroutines lastTime opts]. *)
Definition detectDeadlocks (goroutines : goroutineMap) (lastTime : Z)
    (opts : Options) (groupOrder : list ((string * string) * list member))
    : list Finding :=
  deadlockFindings_loop groupOrder [].

Record lockEdge := mkLockEdge {
  e_from : string;
  e_to : string;
  e_gid : Z;
  e_g : goroutineState
}.

(** The inner loop of the edge construction, over [g.syncHistoryList()]. *)
Fixpoint abbaEdges_entries (lastTime : Z) (gid : Z) (g : goroutineState)
    (entries : list syncEntry) (edges : list lockEdge) : list lockEdge :=
  match entries with
  | [] => edges
  | entry :: rest =>
      if String.eqb (se_location entry) "" ||
         String.eqb (se_location entry) (location g)
      then abbaEdges_entries lastTime gid g rest edges
      else
        let age := mul64 (sub64 lastTime (se_endTime entry)) Nanosecond in
        if age >? abbaStaleWindow then
          abbaEdges_entries lastTime gid g rest edges
        else
          abbaEdges_entries lastTime gid g rest
            (edges ++ [mkLockEdge (se_location entry) (location g) gid g])
  end.

Fixpoint abbaEdges_loop (lastTime : Z) (goroutines : goroutineMap)
    (edges : list lockEdge) : list lockEdge :=
  match goroutines with
  | [] => edges
  | (gid, g) :: rest =>
      if negb (isBlocked g) || negb (String.eqb (reason g) "sync") then
        abbaEdges_loop lastTime rest edges
      else if isRuntimeGoroutine (stack g) then
        abbaEdges_loop lastTime rest edges
      else
        abbaEdges_loop lastTime rest
          (abbaEdges_entries lastTime gid g (syncHistoryList g) edges)
  end.

(** The canonical key of an edge pair: the two locations in string
    order. *)
Definition canonicalKey (a b : string) : string * string :=
  match String.compare a b with
  | Gt => (b, a)
  | _ => (a, b)
  end.

(** [seen[k]] on a [map[[2]string]bool]. *)
Definition seenPair (seen : gmap (string * string) bool)
    (k : string * string) : bool :=
  default false (seen !! k).

(** The loop [for j := i + 1; j < len(edges); j++] for the edge [e1] at
    index [i]; [later] holds the edges after it. *)
Fixpoint abbaPairs_inner (lastTime : Z) (e1 : lockEdge) (later : list lockEdge)
    (seen : gmap (string * string) bool) (findings : list Finding)
    : gmap (string * string) bool * list Finding :=
  match later with
  | [] => (seen, findings)
  | e2 :: rest =>
      if negb (String.eqb (e_from e1) (e_to e2)) ||
         negb (String.eqb (e_to e1) (e_from e2))
      then abbaPairs_inner lastTime e1 rest seen findings
      else
        let k := canonicalKey (e_from e1) (e_to e1) in
        if seenPair seen k then abbaPairs_inner lastTime e1 rest seen findings
        else
          let blocked :=
            mul64 (sub64 lastTime (blockStart (e_g e1))) Nanosecond in
          abbaPairs_inner lastTime e1 rest (<[k := true]> seen)
            (findings ++
             [ {| Kind_ := KindDeadlock; Confidence_ := ConfidenceMedium;
                  GoroutineID := e_gid e1;
                  BlockedOn := "sync (AB-BA lock inversion)";
                  BlockedFor := blocked; Stack := stack (e_g e1);
                  Function := function (e_g e1);
                  Location := location (e_g e1) |} ])
  end.

(** The loop [for i := 0; i < len(edges); i++]. *)
Fixpoint abbaPairs_outer (lastTime : Z) (edges : list lockEdge)
    (seen : gmap (string * string) bool) (findings : list Finding)
    : gmap (string * string) bool * list Finding :=
  match edges with
  | [] => (seen, findings)
  | e1 :: later =>
      let '(seen', findings') :=
        abbaPairs_inner lastTime e1 later seen findings in
      abbaPairs_outer lastTime later seen' findings'
  end.

Definition detectABBA (goroutines : goroutineMap) (lastTime : Z)
    : list Finding :=
  let edges := abbaEdges_loop lastTime goroutines [] in
  snd (abbaPairs_outer lastTime edges ∅ []).

(** The first loop of [detectChanLockCycle]: the sites goroutines wait at
    for a lock. *)
Fixpoint lockWaiters_loop (goroutines : goroutineMap)
    (lockWaiters : gmap string bool) : gmap string bool :=
  match goroutines with
  | [] => lockWaiters
  | (_, g) :: rest =>
      if negb (isBlocked g) || negb (String.eqb (reason g) "sync") then
        lockWaiters_loop rest lockWaiters
      else if isRuntimeGoroutine (stack g) then
        lockWaiters_loop rest lockWaiters
      else lockWaiters_loop rest (<[location g := true]> lockWaiters)
  end.

Definition chanLockFinding (lastTime : Z) (gid : Z) (g : goroutineState)
    : Finding :=
  {| Kind_ := KindDeadlock; Confidence_ := ConfidenceMedium;
     GoroutineID := gid;
     BlockedOn :=
       String.append (reason g)
         " (holds lock; lock waiter cannot unblock channel)";
     BlockedFor := mul64 (sub64 lastTime (blockStart g)) Nanosecond;
     Stack := stack g; Function := function g; Location := location g |}.

(** The second loop of [detectChanLockCycle]. *)
Fixpoint chanLock_loop (lastTime : Z) (lockWaiters : gmap string bool)
    (goroutines : goroutineMap) (seen : gmap string bool)
    (findings : list Finding) : gmap string bool * list Finding :=
  match goroutines with
  | [] => (seen, findings)
  | (gid, g) :: rest =>
      if negb (isBlocked g) then
        chanLock_loop lastTime lockWaiters rest seen findings
      else if negb (String.eqb (reason g) "chan send") &&
              negb (String.eqb (reason g) "chan receive") then
        chanLock_loop lastTime lockWaiters rest seen findings
      else if String.eqb (prevSyncLocation g) "" then
        chanLock_loop lastTime lockWaiters rest seen findings
      else if isRuntimeGoroutine (stack g) then
        chanLock_loop lastTime lockWaiters rest seen findings
      else if mul64 (sub64 lastTime (prevSyncEndTime g)) Nanosecond
              >? abbaStaleWindow then
        chanLock_loop lastTime lockWaiters rest seen findings
      else if negb (seenAt lockWaiters (prevSyncLocation g)) then
        chanLock_loop lastTime lockWaiters rest seen findings
      else if seenAt seen (prevSyncLocation g) then
        chanLock_loop lastTime lockWaiters rest seen findings
      else
        chanLock_loop lastTime lockWaiters rest
          (<[prevSyncLocation g := true]> seen)
          (findings ++ [chanLockFinding lastTime gid g])
  end.

(** [detectChanLockCycle]; the two [range] loops over the map may visit it
    in different orders. *)
Definition detectChanLockCycle (waiterOrder goroutines : goroutineMap)
    (lastTime : Z) : list Finding :=
  let lockWaiters := lockWaiters_loop waiterOrder ∅ in
  snd (chanLock_loop lastTime lockWaiters goroutines ∅ []).

(** *** detector.go: Analyze *)

(** The orders in which the [range] loops of one run visit their maps. *)
Record iteration := mkIteration {
  it_leaks : goroutineMap;
  it_deadlocks : goroutineMap;
  it_groups : list ((string * string) * list member);
  it_transient : goroutineMap;
  it_abba : goroutineMap;
  it_waiters : goroutineMap;
  it_chanlock : goroutineMap;
  it_orphans : goroutineMap
}.

(** Each order lists the entries of the map that is ranged over. *)
Definition iterates (snapshot : gmap Z goroutineState) (lastTime : Z)
    (opts : Options) (it : iteration) : Prop :=
  Permutation (it_leaks it) (map_to_list snapshot) ∧
  Permutation (it_deadlocks it) (map_to_list snapshot) ∧
  Permutation (it_groups it)
    (map_to_list (deadlockGroups (it_deadlocks it) lastTime opts)) ∧
  Permutation (it_transient it) (map_to_list snapshot) ∧
  Permutation (it_abba it) (map_to_list snapshot) ∧
  Permutation (it_waiters it) (map_to_list snapshot) ∧
  Permutation (it_chanlock it) (map_to_list snapshot) ∧
  Permutation (it_orphans it) (map_to_list snapshot).

(** The six detectors in the order [Analyze] calls them. *)
Definition runDetectors (it : iteration) (lastTime traceDuration : Z)
    (opts : Options) : list Finding :=
  detectLeaks (it_leaks it) lastTime opts ++
  detectDeadlocks (it_deadlocks it) lastTime opts (it_groups it) ++
  detectTransientBlocks (it_transient it) opts ++
  detectABBA (it_abba it) lastTime ++
  detectChanLockCycle (it_waiters it) (it_chanlock it) lastTime ++
  detectOrphans (it_orphans it) traceDuration.

(** [Analyze] on the events of an opened trace; [None] when the event loop
    panics.  The diagnostic dump of [printDebugFiltered] goes to standard
    error and is left out. *)
Definition Analyze (path : string) (events : list Event) (opts : Options)
    (it : iteration) : option Result :=
  match runEvents initEngine events with
  | None => None
  | Some e =>
      let traceDuration := mul64 (sub64 (lastTime e) (firstTime e)) Nanosecond in
      Some {| TraceFile := path;
              DurationMs := Milliseconds traceDuration;
              GoroutinesAnalyzed := Z.of_nat (size (goroutines e));
              Findings := runDetectors it (lastTime e) traceDuration opts |}
  end.

End Detector.

(* ===================================================================== *)
(** ** The stand-alone analyzer (package main, [analyzeTrace]) *)
(* ===================================================================== *)

Module Prototype.
Import GoStrings GoTime Trace.

Record Finding := mkFinding {
  Kind_ : string;
  GoroutineID : Z;
  Reason_ : string;
  Stack_ : string;
  BlockedFor : Z
}.

Record goroutineState := mkGoroutineState {
  reason : string;
  stack : string;
  blockStart : Z;
  isBlocked : bool
}.

(** [&goroutineState{}]: every field at its zero value. *)
Definition zeroState : goroutineState :=
  {| reason := ""; stack := ""; blockStart := 0; isBlocked := false |}.

(** The loop state of [analyzeTrace]: the map [goroutines] and
    [lastTime]. *)
Record engine := mkEngine {
  goroutines : gmap Z goroutineState;
  lastTime : Z
}.

Definition initEngine : engine := {| goroutines := ∅; lastTime := 0 |}.

(** The two [if] statements applied to the record [g] points to. *)
Definition applyTransition (time : Z) (st : StateTransition)
    (from to : GoState) (g : goroutineState) : goroutineState :=
  let g :=
    if Executing from && GoState_eqb to GoWaiting then
      {| reason := Reason st; stack := renderStack (Stack st);
         blockStart := time; isBlocked := true |}
    else g in
  if GoState_eqb from GoWaiting && Executing to then
    {| reason := ""; stack := ""; blockStart := blockStart g;
       isBlocked := false |}
  else g.

(** One iteration of the event loop. *)
Definition step (e : engine) (ev : Event) : engine :=
  let lastTime := Time ev in
  match Payload ev with
  | EventOther => {| goroutines := goroutines e; lastTime := lastTime |}
  | EventStateTransition st =>
      match Resource_ st with
      | ResourceOther => {| goroutines := goroutines e; lastTime := lastTime |}
      | ResourceGoroutine gid from to =>
          let g := default zeroState (goroutines e !! gid) in
          {| goroutines :=
               <[gid := applyTransition (Time ev) st from to g]> (goroutines e);
             lastTime := lastTime |}
      end
  end.

Definition runEvents (events : list Event) : engine :=
  fold_left step events initEngine.

Definition isRuntimeLine (line : string) : bool :=
  let line := TrimSpace line in
  if String.eqb line "" then true
  else
    Contains line "runtime." || Contains line "runtime/" ||
    Contains line "runtime2." || Contains line "/runtime/trace".

Definition isRuntimeGoroutine (stack : string) : bool :=
  if String.eqb stack "" then true
  else forallb isRuntimeLine (Split stack (ascii_of_nat 10)).

(** One iteration of the final loop over [goroutines]. *)
Definition report_body (lastTime : Z) (gid : Z) (g : goroutineState)
    : option Finding :=
  if negb (isBlocked g) then None
  else if isRuntimeGoroutine (stack g) then None
  else if String.eqb (reason g) "sleep" then None
  else
    let kind :=
      if String.eqb (reason g) "chan send" || String.eqb (reason g) "chan receive"
      then "goroutine_leak" else "long_block" in
    let blocked := mul64 (sub64 lastTime (blockStart g)) Nanosecond in
    Some {| Kind_ := kind; GoroutineID := gid; Reason_ := reason g;
            Stack_ := stack g; BlockedFor := blocked |}.

Fixpoint report_loop (lastTime : Z) (order : list (Z * goroutineState))
    (findings : list Finding) : list Finding :=
  match order with
  | [] => findings
  | (gid, g) :: rest =>
      match report_body lastTime gid g with
      | None => report_loop lastTime rest findings
      | Some f => report_loop lastTime rest (findings ++ [f])
      end
  end.

(** [analyzeTrace] on an event stream; [order] is the order in which the
    final [range] visits the map. *)
Definition analyzeTrace (events : list Event)
    (order : list (Z * goroutineState)) : list Finding :=
  report_loop (lastTime (runEvents events)) order [].

End Prototype.

(* ===================================================================== *)
(** ** Package [internal/static]: the lock-release analyzer *)
(* ===================================================================== *)

Module Static.

Record Finding := mkFinding {
  Function_ : string;
  Location : string;
  Message : string
}.

(** *** The part of go/ssa the analyzer looks at *)

(** The callee operand of a call: a [*ssa.Function], identified by what
    its [String] method prints, or any other value. *)
Inductive Value :=
  | VFunction (name : string)
  | VOther.

Record CallCommon := mkCall {
  IsInvoke : bool;
  Value_ : Value
}.

(** [token.Pos] is an integer the file set resolves to a position. *)
Record Position := mkPosition {
  Filename : string;
  Line : Z
}.

Inductive Instruction :=
  | Call (c : CallCommon) (pos : nat)
  | Defer (c : CallCommon)
  | OtherInstr.

(** A basic block; [Succs] holds the indices of the successor blocks in
    [fn.Blocks] (go/ssa keeps [fn.Blocks[i].Index = i]). *)
Record BasicBlock := mkBlock {
  Instrs : list Instruction;
  Succs : list nat
}.

Record Function := mkFunction {
  Blocks : list BasicBlock;
  RelString : string;
  Fset : nat -> Position
}.

Definition emptyBlock : BasicBlock := {| Instrs := []; Succs := [] |}.

Definition blockAt (fn : Function) (i : nat) : BasicBlock :=
  default emptyBlock (Blocks fn !! i).


(** *** The analyzer *)

(** A [*ssa.Function] that may be [nil]. *)
Definition isLockCall (fn : option string) : bool :=
  match fn with
  | None => false
  | Some s =>
      String.eqb s "(*sync.Mutex).Lock" ||
      String.eqb s "(*sync.RWMutex).Lock" ||
      String.eqb s "(*sync.RWMutex).RLock"
  end.

Definition isUnlockCall (fn : option string) : bool :=
  match fn with
  | None => false
  | Some s =>
      String.eqb s "(*sync.Mutex).Unlock" ||
      String.eqb s "(*sync.RWMutex).Unlock" ||
      String.eqb s "(*sync.RWMutex).RUnlock"
  end.

Definition calleeFunc (c : CallCommon) : option string :=
  if IsInvoke c then None
  else match Value_ c with
       | VFunction name => Some name
       | VOther => None
       end.

Record lockSite := mkLockSite {
  block : nat;
  idx : nat;
  pos : nat
}.

(** [unlockIdx[i]] on a [map[int][]int]: [nil] for an absent key. *)
Definition unlocksAt (unlockIdx : gmap nat (list nat)) (i : nat) : list nat :=
  default [] (unlockIdx !! i).

(** The locals of phase 1 of [analyzeFn]. *)
Record scan := mkScan {
  lockSites : list lockSite;
  unlockIdx : gmap nat (list nat);
  hasDeferUnlock : bool
}.

Definition scanInstr (bi ii : nat) (instr : Instruction) (st : scan) : scan :=
  match instr with
  | Call c p =>
      let callee := calleeFunc c in
      if isLockCall callee then
        {| lockSites := lockSites st ++ [mkLockSite bi ii p];
           unlockIdx := unlockIdx st;
           hasDeferUnlock := hasDeferUnlock st |}
      else if isUnlockCall callee then
        {| lockSites := lockSites st;
           unlockIdx := <[bi := (unlocksAt (unlockIdx st) bi ++ [ii])%list]> (unlockIdx st);
           hasDeferUnlock := hasDeferUnlock st |}
      else st
  | Defer c =>
      if isUnlockCall (calleeFunc c) then
        {| lockSites := lockSites st;
           unlockIdx := unlockIdx st;
           hasDeferUnlock := true |}
      else st
  | OtherInstr => st
  end.

Fixpoint scanInstrs (bi ii : nat) (instrs : list Instruction) (st : scan) : scan :=
  match instrs with
  | [] => st
  | instr :: rest => scanInstrs bi (S ii) rest (scanInstr bi ii instr st)
  end.

Fixpoint scanBlocks (bi : nat) (blocks : list BasicBlock) (st : scan) : scan :=
  match blocks with
  | [] => st
  | b :: rest => scanBlocks (S bi) rest (scanInstrs bi 0 (Instrs b) st)
  end.

Definition phase1 (fn : Function) : scan :=
  scanBlocks 0 (Blocks fn)
    {| lockSites := []; unlockIdx := ∅; hasDeferUnlock := false |}.

Definition hasUnlockAfterIdx (b : nat) (fromIdx : nat)
    (unlockIdx : gmap nat (list nat)) : bool :=
  existsb (fun ui => (fromIdx <=? ui)%nat) (unlocksAt unlockIdx b).

(** [visited[i]] on a [map[int]bool]. *)
Definition visitedAt (visited : gmap nat bool) (i : nat) : bool :=
  default false (visited !! i).

(** [for _, succ := range succs { if !visited[succ.Index] { ... } }]. *)
Fixpoint enqueue (succs : list nat) (visited : gmap nat bool) (queue : list nat)
    : gmap nat bool * list nat :=
  match succs with
  | [] => (visited, queue)
  | succ :: rest =>
      if visitedAt visited succ then enqueue rest visited queue
      else enqueue rest (<[succ := true]> visited) (queue ++ [succ])%list
  end.

(** The [for len(queue) > 0] loop; [None] when [fuel] iterations were not
    enough. *)
Fixpoint bfs (fuel : nat) (fn : Function) (unlockIdx : gmap nat (list nat))
    (visited : gmap nat bool) (queue : list nat) : option bool :=
  match fuel with
  | O => None
  | S fuel' =>
      match queue with
      | [] => Some false
      | cur :: queue' =>
          if (0 <? length (unlocksAt unlockIdx cur))%nat then
            bfs fuel' fn unlockIdx visited queue'
          else if (length (Succs (blockAt fn cur)) =? 0)%nat then Some true
          else
            let '(visited', queue'') :=
              enqueue (Succs (blockAt fn cur)) visited queue' in
            bfs fuel' fn unlockIdx visited' queue''
      end
  end.

(** No block is put on the queue twice, so the loop body runs at most
    once per block. *)
Definition bfsFuel (fn : Function) : nat := S (length (Blocks fn)).


Definition pathExistsWithoutUnlock (fn : Function) (ls : lockSite)
    (unlockIdx : gmap nat (list nat)) : option bool :=
  if hasUnlockAfterIdx (block ls) (idx ls + 1) unlockIdx then Some false
  else
    let '(visited, queue) := enqueue (Succs (blockAt fn (block ls))) ∅ [] in
    bfs (bfsFuel fn) fn unlockIdx visited queue.

Definition lockMessage : string :=
  "mutex Lock() acquired but not released on all exit paths".

Definition siteFinding (fn : Function) (ls : lockSite) : Finding :=
  let p := Fset fn (pos ls) in
  {| Function_ := RelString fn;
     Location :=
       String.append (Filename p)
         (String.append ":" (NilZero.string_of_int (Z.to_int (Line p))));
     Message := lockMessage |}.

(** Phase 2: the loop over the lock sites. *)
Fixpoint phase2 (fn : Function) (unlockIdx : gmap nat (list nat))
    (sites : list lockSite) (findings : list Finding) : option (list Finding) :=
  match sites with
  | [] => Some findings
  | ls :: rest =>
      match pathExistsWithoutUnlock fn ls unlockIdx with
      | None => None
      | Some true => phase2 fn unlockIdx rest (findings ++ [siteFinding fn ls])
      | Some false => phase2 fn unlockIdx rest findings
      end
  end.

(** [analyzeFn]; [None] only if the search of some lock site ran out of
    fuel. *)
Definition analyzeFn (fn : Function) : option (list Finding) :=
  if (length (Blocks fn) =? 0)%nat then Some []
  else
    let st := phase1 fn in
    if (length (lockSites st) =? 0)%nat || hasDeferUnlock st then Some []
    else phase2 fn (unlockIdx st) (lockSites st) [].

(** *** The property the analyzer is documented to decide *)

(** An instruction that is a call of an unlock function. *)
Definition isUnlockInstr (instr : Instruction) : bool :=
  match instr with
  | Call c _ => isUnlockCall (calleeFunc c)
  | _ => false
  end.

Definition isDeferUnlockInstr (instr : Instruction) : bool :=
  match instr with
  | Defer c => isUnlockCall (calleeFunc c)
  | _ => false
  end.

(** The function contains a deferred unlock call. *)
Definition containsDeferUnlock (fn : Function) : Prop :=
  ∃ b instr, In b (Blocks fn) ∧ In instr (Instrs b) ∧ isDeferUnlockInstr instr = true.

(** Block [i] holds no unlock call. *)
Definition unlockFree (fn : Function) (i : nat) : Prop :=
  ∀ instr, In instr (Instrs (blockAt fn i)) → isUnlockInstr instr = false.

(** From the entry of block [i] a function exit (a block with no
    successors) is reached through blocks that hold no unlock call. *)
Inductive exitPath (fn : Function) : nat → Prop :=
  | exitPath_exit i :
      unlockFree fn i → Succs (blockAt fn i) = [] → exitPath fn i
  | exitPath_step i j :
      unlockFree fn i → In j (Succs (blockAt fn i)) → exitPath fn j →
      exitPath fn i.

(** No unlock call later than instruction [k] in block [i]. *)
Definition noUnlockAfter (fn : Function) (i k : nat) : Prop :=
  ∀ k' instr, (k < k')%nat → Instrs (blockAt fn i) !! k' = Some instr →
    isUnlockInstr instr = false.

(** Instruction [idx] of block [block] is a lock call at position [pos]. *)
Definition isLockSite (fn : Function) (ls : lockSite) : Prop :=
  ∃ c, Instrs (blockAt fn (block ls)) !! idx ls = Some (Call c (pos ls)) ∧
       isLockCall (calleeFunc c) = true ∧ (block ls < length (Blocks fn))%nat.

(** The claim's wording: a control-flow path from the lock instruction to
    a function exit that passes through no unlock call.  The rest of the
    lock's own block is the first stretch of the path; the path ends there
    when that block is itself an exit. *)
Definition unreleasedPath (fn : Function) (ls : lockSite) : Prop :=
  noUnlockAfter fn (block ls) (idx ls) ∧
  (Succs (blockAt fn (block ls)) = [] ∨
   ∃ j, In j (Succs (blockAt fn (block ls))) ∧ exitPath fn j).

(** What the search of [pathExistsWithoutUnlock] covers: the same, with
    the path leaving the lock's block. *)
Definition unreleasedPathViaSucc (fn : Function) (ls : lockSite) : Prop :=
  noUnlockAfter fn (block ls) (idx ls) ∧
  ∃ j, In j (Succs (blockAt fn (block ls))) ∧ exitPath fn j.



End Static.

(* ===================================================================== *)
(** ** Package [cmd]: the static findings joined to the result *)
(* ===================================================================== *)

Module Cmd.

(** The element [runRun] appends for one static finding; the fields the
    composite literal leaves out are zero. *)
Definition staticToFinding (sf : Static.Finding) : Detector.Finding :=
  {| Detector.Kind_ := Detector.KindLockLeak;
     Detector.Confidence_ := Detector.ConfidenceLow;
     Detector.GoroutineID := 0;
     Detector.BlockedOn := Static.Message sf;
     Detector.BlockedFor := 0;
     Detector.Stack := "";
     Detector.Function := Static.Function_ sf;
     Detector.Location := Static.Location sf |}.

(** [for _, sf := range staticFindings { result.Findings = append(...) }]. *)
Fixpoint appendStatic (findings : list Detector.Finding)
    (staticFindings : list Static.Finding) : list Detector.Finding :=
  match staticFindings with
  | [] => findings
  | sf :: rest => appendStatic (findings ++ [staticToFinding sf]) rest
  end.

Definition withStatic (result : Detector.Result)
    (staticFindings : list Static.Finding) : Detector.Result :=
  {| Detector.TraceFile := Detector.TraceFile result;
     Detector.DurationMs := Detector.DurationMs result;
     Detector.GoroutinesAnalyzed := Detector.GoroutinesAnalyzed result;
     Detector.Findings := appendStatic (Detector.Findings result) staticFindings |}.

End Cmd.

(* ===================================================================== *)
(** ** Package [internal/reporter]: json.go *)
(* ===================================================================== *)

Module Reporter.
Import GoTime.

(** The value [encoding/json] writes: an object is the list of its
    members in the order of the struct's fields. *)
#[local] Unset Elimination Schemes.
Inductive json :=
  | JString (s : string)
  | JNumber (z : Z)
  | JArray (elems : list json)
  | JObject (members : list (string * json)).
#[local] Set Elimination Schemes.

Record jsonFinding := mkJsonFinding {
  Kind_ : string;
  Confidence_ : string;
  GoroutineID : Z;
  BlockedOn : string;
  BlockedForMs : Z;
  Function : string;
  Location : string;
  Stack : string;
  Explanation : string
}.

(** The JSON string [encoding/json] writes for a Go string; what a reader
    of the report gets is the text with each byte outside a valid UTF-8
    encoding replaced by U+FFFD. *)
Definition jsonString (s : string) : json := JString (GoUTF8.jsonText s).

(** A string field tagged [omitempty] is left out when it is empty. *)
Definition omitempty (key value : string) : list (string * json) :=
  if String.eqb value "" then [] else [(key, jsonString value)].

(** The members [encoding/json] writes for a [jsonFinding], following the
    struct tags. *)
Definition encodeFinding (jf : jsonFinding) : json :=
  JObject
    ([("kind", jsonString (Kind_ jf));
      ("confidence", jsonString (Confidence_ jf));
      ("goroutine_id", JNumber (GoroutineID jf));
      ("blocked_on", jsonString (BlockedOn jf));
      ("blocked_for_ms", JNumber (BlockedForMs jf))]
     ++ omitempty "function" (Function jf)
     ++ omitempty "location" (Location jf)
     ++ omitempty "stack" (Stack jf)
     ++ omitempty "explanation" (Explanation jf))%list.

(** [uint64(x)] of an [int64]. *)
Definition to_uint64 (z : Z) : Z := z mod 2 ^ 64.

(** The composite literal [jsonFinding{...}] of [WriteJSON]; [string(f.Kind)]
    and [string(f.Confidence)] change the type only. *)
Definition toJsonFinding (f : Detector.Finding) : jsonFinding :=
  {| Kind_ := Detector.Kind_ f;
     Confidence_ := Detector.Confidence_ f;
     GoroutineID := to_uint64 (Detector.GoroutineID f);
     BlockedOn := Detector.BlockedOn f;
     BlockedForMs := Milliseconds (Round (Detector.BlockedFor f) Millisecond);
     Function := Detector.Function f;
     Location := Detector.Location f;
     Stack := Detector.Stack f;
     Explanation := "" |}.

Definition setExplanation (jf : jsonFinding) (e : string) : jsonFinding :=
  {| Kind_ := Kind_ jf; Confidence_ := Confidence_ jf;
     GoroutineID := GoroutineID jf; BlockedOn := BlockedOn jf;
     BlockedForMs := BlockedForMs jf; Function := Function jf;
     Location := Location jf; Stack := Stack jf; Explanation := e |}.

(** The first loop of [WriteJSON]; [acc] is [report.Findings]. *)
Fixpoint buildFindings (explanation : string) (fs : list Detector.Finding)
    (acc : list jsonFinding) : list jsonFinding :=
  match fs with
  | [] => acc
  | f :: rest =>
      let jf := toJsonFinding f in
      let jf :=
        if negb (String.eqb explanation "") && (length acc =? 0)%nat
        then setExplanation jf explanation else jf in
      buildFindings explanation rest (acc ++ [jf])
  end.

(** The value [WriteJSON] hands to the encoder: the report with the
    findings' explanations reset and the explanation at top level. *)
Definition WriteJSON (result : Detector.Result) (explanation : string) : json :=
  let findings := buildFindings explanation (Detector.Findings result) [] in
  let findings := map (fun jf => setExplanation jf "") findings in
  JObject
    ([("trace_file", jsonString (Detector.TraceFile result));
      ("duration_ms", JNumber (Detector.DurationMs result));
      ("goroutines_analyzed", JNumber (Detector.GoroutinesAnalyzed result));
      ("findings", JArray (map encodeFinding findings))]
     ++ omitempty "llm_explanation" explanation)%list.

(** The member of an object with a given key. *)
Fixpoint member (key : string) (members : list (string * json)) : option json :=
  match members with
  | [] => None
  | (k, v) :: rest => if String.eqb k key then Some v else member key rest
  end.

Definition field (key : string) (j : json) : option json :=
  match j with
  | JObject members => member key members
  | _ => None
  end.

(** The elements of the [findings] array of a report. *)
Definition reportFindings (j : json) : list json :=
  match field "findings" j with
  | Some (JArray elems) => elems
  | _ => []
  end.

End Reporter.

(* ===================================================================== *)
(** ** The specification's wording, for comparison with the code *)
(* ===================================================================== *)

Module Spec.
Import GoStrings GoTime Detector.

(** Section 4.1: a frame of the testing framework has a function that
    begins with [testing.]; the stack "contains a [testing.] function"
    when one of its rendered frames is such a frame. *)
Definition isTestingFrameLine (line : string) : bool :=
  HasPrefix (SplitN2_first (TrimSpace line) space) "testing.".

Definition containsTestingFunction (stack : string) : bool :=
  existsb isTestingFrameLine (Split stack newline).

(** The text [t] occurs in [s] at some offset. *)
Definition occurs (t s : string) : Prop :=
  ∃ a b, s = String.append a (String.append t b).

(** Section 4.4, step 4: the provenance filter. *)
Definition provenance_ok (g : goroutineState) : bool :=
  creationSeen g && negb (isNonTestRuntimeGoroutine (creationStack g)).

(** Section 4.4, steps 1 to 5, for a goroutine with [is_blocked = true]:
    the finding to emit, if any. *)
Definition leak_finding (last_time : Z) (opts : Options)
    (gid : Z) (g : goroutineState) : option Finding :=
  (* step 3 *)
  let is_chan :=
    bool_decide (reason g = "chan send" ∨ reason g = "chan receive") in
  let is_sync := bool_decide (reason g = "sync") in
  (* step 4 *)
  let passes_provenance :=
    if is_chan then provenance_ok g
    else if is_sync then true
    else provenance_ok g in
  (* step 5 *)
  let blocked_for := last_time - blockStart g in
  let finding kind conf :=
    {| Kind_ := kind; Confidence_ := conf; GoroutineID := gid;
       BlockedOn := reason g; BlockedFor := blocked_for;
       Stack := stack g; Function := function g; Location := location g |} in
  if isRuntimeGoroutine (stack g) then None          (* step 1 *)
  else if bool_decide (reason g = "sleep") then None (* step 2 *)
  else if negb passes_provenance then None
  else if is_chan then Some (finding KindGoroutineLeak ConfidenceHigh)
  else if bool_decide (MinBlock opts <= blocked_for)
       then Some (finding KindLongBlock ConfidenceMedium)
       else None.

(** The findings of section 4.4 over a snapshot, in the order the
    goroutines are visited. *)
Definition leak_findings (goroutines : goroutineMap) (last_time : Z)
    (opts : Options) : list Finding :=
  flat_map
    (fun '(gid, g) =>
       if isBlocked g then option_list (leak_finding last_time opts gid g)
       else [])
    goroutines.

(** Section 4.8: the goroutine qualifies for a transient-long-block
    finding. *)
Definition transient_candidate (opts : Options) (g : goroutineState) : Prop :=
  MinBlock opts <= prevLongBlockDuration g ∧
  isRuntimeGoroutine (prevLongBlockStack g) = false.



End Spec.

(* ===================================================================== *)
(** ** Loops that keep the first goroutine per key *)
(* ===================================================================== *)

Module Views.
Import GoStrings GoTime Detector.

(** [detectTransientBlocks] and the second loop of [detectChanLockCycle]
    have the same shape: a goroutine passes guards that depend on it alone
    ([cand]), and is then kept unless the [seen] map already holds its
    [key]. *)
Section FirstPerKey.
Variable cand : goroutineState → bool.
Variable key : goroutineState → string.

Definition keeps (seen : gmap string bool) (g : goroutineState) : bool :=
  cand g && negb (seenAt seen (key g)).

(** The entries the loop keeps when started with [seen]. *)
Fixpoint firstPerKey (seen : gmap string bool) (goroutines : goroutineMap)
    : goroutineMap :=
  match goroutines with
  | [] => []
  | (gid, g) :: rest =>
      if keeps seen g then (gid, g) :: firstPerKey (<[key g := true]> seen) rest
      else firstPerKey seen rest
  end.

(** The [seen] map the loop ends with. *)
Fixpoint firstPerKey_seen (seen : gmap string bool) (goroutines : goroutineMap)
    : gmap string bool :=
  match goroutines with
  | [] => seen
  | (gid, g) :: rest =>
      if keeps seen g then firstPerKey_seen (<[key g := true]> seen) rest
      else firstPerKey_seen seen rest
  end.

End FirstPerKey.

(** The guards of [detectTransientBlocks] before the look-up in [seen]. *)
Definition transient_cand (opts : Options) (g : goroutineState) : bool :=
  negb (prevLongBlockDuration g <? MinBlock opts) &&
  negb (isRuntimeGoroutine (prevLongBlockStack g)).

(** The guards of the second loop of [detectChanLockCycle] before the
    look-up in [seen]. *)
Definition chanLock_cand (lastTime : Z) (lockWaiters : gmap string bool)
    (g : goroutineState) : bool :=
  isBlocked g &&
  (String.eqb (reason g) "chan send" || String.eqb (reason g) "chan receive") &&
  negb (String.eqb (prevSyncLocation g) "") &&
  negb (isRuntimeGoroutine (stack g)) &&
  negb (mul64 (sub64 lastTime (prevSyncEndTime g)) Nanosecond >? abbaStaleWindow) &&
  seenAt lockWaiters (prevSyncLocation g).

(** The guards of the loops of [detectChanLockCycle] (first loop) and of
    [detectABBA] (edge construction): blocked on sync with a user stack. *)
Definition syncWaiter (g : goroutineState) : bool :=
  isBlocked g && String.eqb (reason g) "sync" &&
  negb (isRuntimeGoroutine (stack g)).

(** The guards of the first loop of [detectDeadlocks]. *)
Definition deadlock_cand (threshold lastTime : Z) (g : goroutineState) : bool :=
  syncWaiter g &&
  negb (mul64 (sub64 lastTime (blockStart g)) Nanosecond <? threshold).

(** The members the first loop of [detectDeadlocks] appends to the group
    of [k]. *)
Definition membersOf (threshold lastTime : Z) (k : string * string)
    (goroutines : goroutineMap) : list member :=
  flat_map
    (λ '(gid, g),
       if deadlock_cand threshold lastTime g &&
          bool_decide ((reason g, location g) = k)
       then [mkMember gid g (mul64 (sub64 lastTime (blockStart g)) Nanosecond)]
       else [])
    goroutines.


(** The edges one goroutine contributes to [detectABBA]. *)
Definition edgesOf (lastTime : Z) (gid : Z) (g : goroutineState)
    : list lockEdge :=
  if syncWaiter g then
    flat_map
      (λ entry,
         if String.eqb (se_location entry) "" ||
            String.eqb (se_location entry) (location g)
         then []
         else if mul64 (sub64 lastTime (se_endTime entry)) Nanosecond
                 >? abbaStaleWindow
         then []
         else [mkLockEdge (se_location entry) (location g) gid g])
      (syncHistoryList g)
  else [].

(** Two edges are the inverse of each other. *)
Definition inverse (e1 e2 : lockEdge) : bool :=
  String.eqb (e_from e1) (e_to e2) && String.eqb (e_to e1) (e_from e2).

Definition edgeKey (e : lockEdge) : string * string :=
  canonicalKey (e_from e) (e_to e).

(** The edges for which the pair loops of [detectABBA] emit a finding,
    when started with [seen]. *)
Fixpoint abbaKept (edges : list lockEdge) (seen : gmap (string * string) bool)
    : list lockEdge :=
  match edges with
  | [] => []
  | e1 :: later =>
      if existsb (inverse e1) later && negb (seenPair seen (edgeKey e1))
      then e1 :: abbaKept later (<[edgeKey e1 := true]> seen)
      else abbaKept later seen
  end.

Fixpoint abbaKept_seen (edges : list lockEdge)
    (seen : gmap (string * string) bool) : gmap (string * string) bool :=
  match edges with
  | [] => seen
  | e1 :: later =>
      if existsb (inverse e1) later && negb (seenPair seen (edgeKey e1))
      then abbaKept_seen later (<[edgeKey e1 := true]> seen)
      else abbaKept_seen later seen
  end.

Definition abbaFinding (lastTime : Z) (e1 : lockEdge) : Finding :=
  {| Kind_ := KindDeadlock; Confidence_ := ConfidenceMedium;
     GoroutineID := e_gid e1;
     BlockedOn := "sync (AB-BA lock inversion)";
     BlockedFor := mul64 (sub64 lastTime (blockStart (e_g e1))) Nanosecond;
     Stack := stack (e_g e1); Function := function (e_g e1);
     Location := location (e_g e1) |}.

(** The finding the second loop of [detectDeadlocks] emits for a group. *)
Definition groupFinding (k : string * string) (m0 : member) (ms : list member)
    : Finding :=
  let best := pickBest m0 ms in
  {| Kind_ := KindDeadlock; Confidence_ := ConfidenceMedium;
     GoroutineID := m_gid best; BlockedOn := fst k;
     BlockedFor := m_blocked best; Stack := stack (m_g best);
     Function := function (m_g best); Location := location (m_g best) |}.

(** The longest block of a group. *)
Definition maxBlocked (members : list member) : Z :=
  match members with
  | [] => 0
  | m0 :: ms => m_blocked (pickBest m0 ms)
  end.

(** What the second loop of [detectDeadlocks] appends for one group. *)
Definition groupFindings (entry : (string * string) * list member)
    : list Finding :=
  match entry.2 with
  | [] => []
  | m0 :: ms => [groupFinding entry.1 m0 ms]
  end.

(** The projections that survive a change of iteration order. *)
Definition site (f : Finding) : Kind * Confidence * string :=
  (Kind_ f, Confidence_ f, Location f).

Definition group (f : Finding) : Kind * Confidence * string * Z * string :=
  (Kind_ f, Confidence_ f, BlockedOn f, BlockedFor f, Location f).



(** [x] occurs in [l] at an index below one of [y]. *)
Definition earlier {A} (x y : A) (l : list A) : Prop :=
  ∃ l1 l2 l3, l = l1 ++ x :: l2 ++ y :: l3.

(** The projection of the finding of a group of [detectDeadlocks]: it
    depends on the group's key and on its longest block only. *)
Definition groupSummary (lastTime : Z) (opts : Options) (gs : goroutineMap)
    (k : string * string) : Kind * Confidence * string * Z * string :=
  (KindDeadlock, ConfidenceMedium, k.1,
   maxBlocked (membersOf (effectiveThreshold opts) lastTime k gs), k.2).

(** The index into the circular buffer of every goroutine lies between 0
    and [k]. *)
Definition indexBound (e : engine) (k : Z) : Prop :=
  ∀ gid g, goroutines e !! gid = Some g → 0 <= syncHistoryIdx g <= k.

(** [prevLongBlockReason] is only ever copied from a reason equal to
    "sync". *)
Definition syncOnly (g : goroutineState) : Prop :=
  prevLongBlockReason g = "" ∨ prevLongBlockReason g = "sync".

End Views.

(* ===================================================================== *)
(** ** Concrete inputs *)
(* ===================================================================== *)

Module Examples.
Import GoStrings GoTime Detector.

Definition nl : string := String newline EmptyString.

(** A user frame blocked in a channel receive. *)
Definition userStack : string :=
  String.append "      main.worker (/src/app/main.go:12)" nl.

(** The creation stack of a goroutine started by [testing.T.Run]. *)
Definition testingStack : string :=
  String.append "      testing.(*T).Run (/go/src/testing/testing.go:1750)" nl.

(** A runtime frame of a toolchain installed under a directory whose
    name holds the text [testing.]. *)
Definition runtimeStackInTestingDir : string :=
  String.append
    "      runtime.gopark (/srv/testing.example/go/src/runtime/proc.go:424)" nl.

Definition blockedOn (r : string) (start : Z) : goroutineState :=
  setCreation
    (setBlock zeroState true r start userStack "main.worker"
       "/src/app/main.go:12")
    testingStack "" "".

(** A goroutine that was created and never ran. *)
Definition neverRan : goroutineState :=
  setCreation zeroState userStack "main.worker" "/src/app/main.go:12".

(** A goroutine whose longest completed sync block took [d] nanoseconds
    at [loc]. *)
Definition wasBlocked (loc : string) (d : Z) : goroutineState :=
  setDead
    (setBlock
       (setPrevLongBlock
          (setBlock (setCreation zeroState testingStack "" "")
             true "sync" 0 userStack "main.worker" loc)
          d)
       false "" 0 "" "" "").

Definition opts1s : Options := {| MinBlock := 1000000000; DebugFiltered := false |}.

(** A snapshot with a channel leak, a long sync block and a short select. *)
Definition snapshot : goroutineMap :=
  [(18, blockedOn "chan receive" 100);
   (19, blockedOn "sync" 200);
   (20, blockedOn "select" 2999999000)].

(** Two goroutines that were blocked at the same site. *)
Definition sameSite12 : goroutineMap :=
  [(1, wasBlocked "/src/app/main.go:30" 2000000000);
   (2, wasBlocked "/src/app/main.go:30" 2000000000)].

(** A goroutine blocks on a channel receive, is woken (Waiting to
    Runnable), runs and exits. *)
Definition transition (t : Z) (gid : Z) (from to : Trace.GoState)
    (r : string) (frames : list Trace.StackFrame) : Trace.Event :=
  Trace.mkEvent t
    (Trace.EventStateTransition
       (Trace.mkTransition (Trace.ResourceGoroutine gid from to) r frames)).

Definition workerFrames : list Trace.StackFrame :=
  [Trace.mkFrame "main.worker" "/src/app/main.go" 12].

Definition blockThenWake : list Trace.Event :=
  [transition 10 7 Trace.GoRunning Trace.GoWaiting "chan receive" workerFrames;
   transition 20 7 Trace.GoWaiting Trace.GoRunnable "" []].

Definition blockWakeRunExit : list Trace.Event :=
  blockThenWake ++
  [transition 30 7 Trace.GoRunnable Trace.GoRunning "" [];
   transition 40 7 Trace.GoRunning Trace.GoNotExist "" []].

(** The record the engine holds for goroutine 7 once it has blocked. *)
Definition blockedWorker : Prototype.goroutineState :=
  {| Prototype.reason := "chan receive";
     Prototype.stack := Trace.renderStack workerFrames;
     Prototype.blockStart := 10;
     Prototype.isBlocked := true |}.

(** Two goroutines are created by the testing harness, block on the same
    mutex call for two seconds, are woken and exit. *)
Definition lockFrames : list Trace.StackFrame :=
  [Trace.mkFrame "runtime.gopark" "/go/src/runtime/proc.go" 424;
   Trace.mkFrame "sync.(*Mutex).Lock" "/go/src/sync/mutex.go" 90;
   Trace.mkFrame "main.worker" "/src/app/main.go" 30].

Definition testFrames : list Trace.StackFrame :=
  [Trace.mkFrame "testing.(*T).Run" "/go/src/testing/testing.go" 1750].

Definition lifeOf (gid : Z) (t0 : Z) : list Trace.Event :=
  [transition t0 gid Trace.GoNotExist Trace.GoRunnable "" testFrames;
   transition (t0 + 10) gid Trace.GoRunnable Trace.GoRunning "" [];
   transition (t0 + 20) gid Trace.GoRunning Trace.GoWaiting "sync" lockFrames;
   transition (t0 + 2000000020) gid Trace.GoWaiting Trace.GoRunnable "" [];
   transition (t0 + 2000000030) gid Trace.GoRunnable Trace.GoRunning "" [];
   transition (t0 + 2000000040) gid Trace.GoRunning Trace.GoNotExist "" []].

Definition twoTimedOut : list Trace.Event := lifeOf 1 0 ++ lifeOf 2 100.

(** A goroutine created by the testing harness blocks on a channel
    receive and stays blocked; the trace ends 300 ms later. *)
Definition receiveLeak : list Trace.Event :=
  [transition 0 18 Trace.GoNotExist Trace.GoRunnable "" testFrames;
   transition 10 18 Trace.GoRunnable Trace.GoRunning "" [];
   transition 20 18 Trace.GoRunning Trace.GoWaiting "chan receive" workerFrames;
   Trace.mkEvent 300000000 Trace.EventOther].

(** The engine's state at the end of a trace. *)
Definition finalEngine (events : list Trace.Event) : Detector.engine :=
  default Detector.initEngine (Detector.runEvents Detector.initEngine events).

Definition snapshotOf (events : list Trace.Event) : gmap Z goroutineState :=
  Detector.goroutines (finalEngine events).

(** A run in which every [range] over the goroutines visits them in the
    order [order]. *)
Definition iterationOf (order : goroutineMap) (lastTime : Z) (opts : Options)
    : Detector.iteration :=
  {| it_leaks := order; it_deadlocks := order;
     it_groups := map_to_list (deadlockGroups order lastTime opts);
     it_transient := order; it_abba := order; it_waiters := order;
     it_chanlock := order; it_orphans := order |}.

Definition forward (events : list Trace.Event) : Detector.iteration :=
  iterationOf (map_to_list (snapshotOf events))
    (Detector.lastTime (finalEngine events)) opts1s.


(** [func f(mu *sync.Mutex) { mu.Lock() }]: one block, the lock call and
    the return, no successor. *)
Definition lockCall : Static.Instruction :=
  Static.Call (Static.mkCall false (Static.VFunction "(*sync.Mutex).Lock")) 1.


Definition positions (p : nat) : Static.Position :=
  {| Static.Filename := "/src/app/locks.go"; Static.Line := Z.of_nat (10 + p) |}.

Definition lockOnly : Static.Function :=
  {| Static.Blocks := [ {| Static.Instrs := [lockCall; Static.OtherInstr];
                           Static.Succs := [] |} ];
     Static.RelString := "app.lockOnly";
     Static.Fset := positions |}.

Definition lockOnlySite : Static.lockSite :=
  {| Static.block := 0; Static.idx := 0; Static.pos := 1 |}.


(** One finding of the static analyzer and an analysis result without
    findings. *)
Definition lockLeak : Static.Finding :=
  {| Static.Function_ := "app.lockEarlyReturn";
     Static.Location := "/src/app/locks.go:11";
     Static.Message := Static.lockMessage |}.

Definition emptyResult : Detector.Result :=
  {| Detector.TraceFile := "/tmp/trace.out"; Detector.DurationMs := 300;
     Detector.GoroutinesAnalyzed := 4; Detector.Findings := [] |}.

End Examples.

(* ===================================================================== *)
(** ** What a trace says, for comparison with the engine of [Analyze] *)
(* ===================================================================== *)

Module Trail.
Import GoStrings GoTime Trace Detector.

(** The goroutine a state transition of a goroutine names. *)
Definition goroutineOf (ev : Event) : list Z :=
  match Payload ev with
  | EventStateTransition st =>
      match Resource_ st with
      | ResourceGoroutine gid _ _ => [gid]
      | ResourceOther => []
      end
  | EventOther => []
  end.

Definition goroutineIDs (events : list Event) : list Z :=
  flat_map goroutineOf events.

(** The time stamps of the first and of the last event, 0 on an empty
    trace. *)
Definition firstTimeOf (events : list Event) : Z :=
  match events with
  | [] => 0
  | ev :: _ => Time ev
  end.

Definition lastTimeOf (events : list Event) : Z :=
  match rev events with
  | [] => 0
  | ev :: _ => Time ev
  end.

(** Time stamps that start at [t] or later, never decrease and fit an
    [int64]. *)
Fixpoint chronologicalFrom (t : Z) (events : list Event) : Prop :=
  match events with
  | [] => True
  | ev :: rest => t <= Time ev <= int64_max ∧ chronologicalFrom (Time ev) rest
  end.

Definition chronological (events : list Event) : Prop :=
  chronologicalFrom 0 events.

(** The first frame of a stack, from the top, that [isRuntimeFrame] does
    not take for a runtime frame, and the [file:line] text of a frame. *)
Definition firstUserFrame (frames : list StackFrame) : option StackFrame :=
  List.find (λ f, negb (isRuntimeFrame (Func f) (File f))) frames.

Definition sourceLine (f : StackFrame) : string :=
  String.append (File f)
    (String.append ":" (NilEmpty.string_of_uint (N.to_uint (Line f)))).

(** Frames as a tracer writes them: the function name starts with a
    printable ASCII character and holds neither a space nor a newline, and
    the file name holds no newline. *)
Fixpoint hasByte (c : ascii) (s : string) : bool :=
  match s with
  | EmptyString => false
  | String x s' => Ascii.eqb x c || hasByte c s'
  end.

Definition printable (c : ascii) : bool :=
  ((33 <=? N_of_ascii c) && (N_of_ascii c <=? 126))%N.

(** The text of a frame in the rendering of a stack, between the six
    spaces and the newline. *)
Definition frameText (f : StackFrame) : string :=
  String.append (Func f)
    (String.append " ("
       (String.append (File f)
          (String.append ":"
             (String.append (NilEmpty.string_of_uint (N.to_uint (Line f))) ")")))).

Definition plainFrame (f : StackFrame) : Prop :=
  match Func f with
  | EmptyString => False
  | String c _ => printable c = true
  end ∧
  hasByte space (Func f) = false ∧
  hasByte newline (Func f) = false ∧
  hasByte newline (File f) = false.

(** The stacks of the goroutine state transitions of a trace are made of
    such frames. *)
Definition plainTransition (st : StateTransition) : Prop :=
  Forall plainFrame (Trace.Stack st).

Definition plainTrace (events : list Event) : Prop :=
  Forall (λ ev, match Payload ev with
                | EventStateTransition st => plainTransition st
                | EventOther => True
                end) events.

(** A goroutine whose blocking stack is not runtime-only has a function
    and a location. *)
Definition located (g : goroutineState) : Prop :=
  isRuntimeGoroutine (stack g) = false → function g ≠ "" ∧ location g ≠ "".

(** [time.Duration(lastTime-g.blockStart) * time.Nanosecond], the time a
    goroutine has been blocked for at the end of the trace. *)
Definition blockedFor (lastTime : Z) (g : goroutineState) : Z :=
  mul64 (sub64 lastTime (blockStart g)) Nanosecond.

(** The entries [syncHistoryList] looks at, most recent first, before it
    drops those with an empty location. *)
Definition recent (g : goroutineState) : list syncEntry :=
  map (λ i : nat,
         default zeroEntry
           (syncHistory g !! ((Z.to_nat (syncHistoryIdx g) - 1 - i) mod 5)%nat))
      (seq 0 (Nat.min (Z.to_nat (syncHistoryIdx g)) 5)).

(** The entry [pushSync] stores. *)
Definition pushed (g : goroutineState) (time : Z) : syncEntry :=
  {| se_location := location g; se_endTime := time |}.

(** The buffer is the array of five entries and its index counts the
    pushes. *)
Definition ring (g : goroutineState) : Prop :=
  length (syncHistory g) = 5%nat ∧ 0 <= syncHistoryIdx g < int64_max.

(** The state transition an event carries for the goroutine [gid]. *)
Definition transitionOf (gid : Z) (ev : Event)
    : option (StateTransition * GoState * GoState) :=
  match Payload ev with
  | EventStateTransition st =>
      match Resource_ st with
      | ResourceGoroutine g from to =>
          if g =? gid then Some (st, from, to) else None
      | ResourceOther => None
      end
  | EventOther => None
  end.

(** The goroutine blocks, is unblocked, is created, ends. *)
Definition blocks (gid : Z) (ev : Event) : bool :=
  match transitionOf gid ev with
  | Some (_, from, to) => Executing from && GoState_eqb to GoWaiting
  | None => false
  end.

Definition unblocks (gid : Z) (ev : Event) : bool :=
  match transitionOf gid ev with
  | Some (_, from, to) =>
      GoState_eqb from GoWaiting && (Executing to || GoState_eqb to GoRunnable)
  | None => false
  end.

Definition creates (gid : Z) (ev : Event) : bool :=
  match transitionOf gid ev with
  | Some (_, from, _) => GoState_eqb from GoNotExist
  | None => false
  end.

Definition ends (gid : Z) (ev : Event) : bool :=
  match transitionOf gid ev with
  | Some (_, _, to) => GoState_eqb to GoNotExist
  | None => false
  end.

(** The event at which the goroutine blocked last, unless it was
    unblocked afterwards; the event that created it last. *)
Definition lastBlock (gid : Z) (events : list Event) : option Event :=
  fold_left
    (λ cur ev, if blocks gid ev then Some ev
               else if unblocks gid ev then None else cur)
    events None.

Definition lastCreation (gid : Z) (events : list Event) : option Event :=
  fold_left (λ cur ev, if creates gid ev then Some ev else cur) events None.

(** The stack and the reason of the transition of an event. *)
Definition stackOf (ev : Event) : list StackFrame :=
  match Payload ev with
  | EventStateTransition st => Trace.Stack st
  | EventOther => []
  end.

Definition reasonOf (ev : Event) : string :=
  match Payload ev with
  | EventStateTransition st => Reason st
  | EventOther => ""
  end.

(** The record the engine holds for a goroutine, the zero record when it
    holds none. *)
Definition stateOf (e : engine) (gid : Z) : goroutineState :=
  default zeroState (goroutines e !! gid).

(** The engine's record agrees with the last block and the last
    creation. *)
Definition blockedBy (cur : option Event) (g : goroutineState) : Prop :=
  match cur with
  | Some ev =>
      isBlocked g = true ∧ reason g = reasonOf ev ∧ blockStart g = Time ev ∧
      extractStack (stackOf ev) = (stack g, function g, location g)
  | None => isBlocked g = false
  end.

Definition createdBy (cur : option Event) (g : goroutineState) : Prop :=
  match cur with
  | Some ev =>
      creationSeen g = true ∧
      extractStack (stackOf ev) =
        (creationStack g, creationFunction g, creationLocation g)
  | None => creationSeen g = false
  end.

(** The goroutine left a sync block at [site] recently, in the sense of
    [detectABBA]: one of the entries [syncHistoryList] returns is at
    [site] and ended at most [abbaStaleWindow] before [lastTime]. *)
Definition leftRecently (lastTime : Z) (g : goroutineState) (site : string)
    : bool :=
  existsb
    (λ entry,
       String.eqb (se_location entry) site &&
       negb (mul64 (sub64 lastTime (se_endTime entry)) Nanosecond
               >? abbaStaleWindow))
    (syncHistoryList g).

(** A goroutine is woken: it goes from Waiting to Runnable. *)
Definition wakes (ev : Event) : bool :=
  match Payload ev with
  | EventStateTransition st =>
      match Resource_ st with
      | ResourceGoroutine _ from to =>
          GoState_eqb from GoWaiting && GoState_eqb to GoRunnable
      | ResourceOther => false
      end
  | EventOther => false
  end.

(** The record of the stand-alone [analyzeTrace] and that of [Analyze]
    hold the same block. *)
Definition sameBlock (p : Prototype.goroutineState) (d : goroutineState) : Prop :=
  Prototype.isBlocked p = isBlocked d ∧ Prototype.reason p = reason d ∧
  Prototype.stack p = stack d ∧ Prototype.blockStart p = blockStart d.

Definition sameBlocks (p : Prototype.engine) (e : engine) : Prop :=
  Prototype.lastTime p = lastTime e ∧
  ∀ gid,
    match Prototype.goroutines p !! gid, goroutines e !! gid with
    | Some gp, Some gd => sameBlock gp gd
    | None, None => True
    | _, _ => False
    end.

(** The fields of the current block are empty whenever the goroutine is
    not blocked, those of the creation whenever it was not seen. *)
Definition cleared (g : goroutineState) : Prop :=
  (isBlocked g = false →
     reason g = "" ∧ stack g = "" ∧ function g = "" ∧ location g = "") ∧
  (creationSeen g = false →
     creationStack g = "" ∧ creationFunction g = "" ∧ creationLocation g = "").

(** What the event loop keeps about the creation and about the longest
    completed sync block: a creation function comes with its location and
    stack; the recorded duration is never negative, and a recorded stack
    comes with the reason "sync" and a positive duration. *)
Definition recorded (g : goroutineState) : Prop :=
  (creationFunction g ≠ "" → creationLocation g ≠ "" ∧ creationStack g ≠ "") ∧
  0 <= prevLongBlockDuration g ∧
  (prevLongBlockStack g ≠ "" →
     prevLongBlockReason g = "sync" ∧ 0 < prevLongBlockDuration g).

(** A block starts at a time stamp read so far. *)
Definition startedBy (t : Z) (g : goroutineState) : Prop :=
  0 <= blockStart g <= t.

End Trail.

(* ===================================================================== *)
(** ** Package [internal/detector]: the helpers of [printDebugFiltered] *)
(* ===================================================================== *)

Module Debug.
Import GoStrings GoTime Detector.

(** [len(s)], an [int]. *)
Definition len (s : string) : Z := Z.of_nat (String.length s).

Fixpoint dropBytes (k : nat) (s : string) : string :=
  match k, s with
  | O, _ => s
  | S k', String _ s' => dropBytes k' s'
  | S _, EmptyString => EmptyString
  end.

(** [s[low:]]: a panic ([None]) when [low] is negative or past the end
    of [s]. *)
Definition sliceFrom (s : string) (low : Z) : option string :=
  if (low <? 0) || (low >? len s) then None
  else Some (dropBytes (Z.to_nat low) s).

(** [truncate(s, n)]; the index [len(s)-n+3] is computed on [int]. *)
Definition truncate (s : string) (n : Z) : option string :=
  if len s <=? n then Some s
  else
    match sliceFrom s (wrap64 (wrap64 (len s - n) + 3)) with
    | None => None
    | Some t => Some (String.append "..." t)
    end.

(** The loop of [splitLines]: [rest] is [s[i:]], [line] is [s[start:i]]
    and [lines] the slice built so far.  The loop ranges over the runes of
    [s]; a byte 0x0A is never part of a longer rune, so the comparison
    with the newline sees exactly the newline bytes. *)
Fixpoint splitLines_loop (rest line : string) (lines : list string)
    : list string :=
  match rest with
  | EmptyString =>
      if String.eqb line "" then lines else lines ++ [line]
  | String c rest' =>
      if Ascii.eqb c newline then
        if String.eqb line "" then splitLines_loop rest' "" lines
        else splitLines_loop rest' "" (lines ++ [line])
      else splitLines_loop rest' (String.append line (String c "")) lines
  end.

Definition splitLines (s : string) : list string := splitLines_loop s "" [].

(** The filter status [printDebugFiltered] computes for a blocked
    goroutine, the last argument of the line it prints for it. *)
Definition filterReason (g : goroutineState) : string :=
  let runtimeBlocking := isRuntimeGoroutine (stack g) in
  let runtimeCreation :=
    negb (creationSeen g) || isRuntimeGoroutine (creationStack g) in
  let isChan :=
    String.eqb (reason g) "chan send" || String.eqb (reason g) "chan receive" in
  if runtimeBlocking then "blocking-stack=runtime"
  else if String.eqb (reason g) "sleep" then "reason=sleep"
  else if isChan && runtimeCreation then "chan-block+creation-stack=runtime"
  else if negb isChan && negb (String.eqb (reason g) "sync") && runtimeCreation
  then "non-chan-sync-block+creation-stack=runtime"
  else "".

Definition status (g : goroutineState) : string :=
  let filterReason := filterReason g in
  if negb (String.eqb filterReason "") then
    String.append "FILTERED(" (String.append filterReason ")")
  else "REPORTED".

End Debug.

(* ===================================================================== *)
(** ** Package [internal/reporter]: terminal.go *)
(* ===================================================================== *)

Module Terminal.
Import GoStrings GoTime.

(** The loop of [countKind]; [n] is an [int]. *)
Fixpoint countKind_loop (findings : list Detector.Finding) (kind : Detector.Kind)
    (n : Z) : Z :=
  match findings with
  | [] => n
  | f :: rest =>
      countKind_loop rest kind
        (if String.eqb (Detector.Kind_ f) kind then wrap64 (n + 1) else n)
  end.

Definition countKind (findings : list Detector.Finding) (kind : Detector.Kind) : Z :=
  countKind_loop findings kind 0.

(** The number of findings of a kind. *)
Definition tally (kind : Detector.Kind) (findings : list Detector.Finding) : nat :=
  length (List.filter (λ f, String.eqb (Detector.Kind_ f) kind) findings).

(** The verb [%d] on an [int]. *)
Definition formatInt (z : Z) : string := NilEmpty.string_of_int (Z.to_int z).

Definition pluralize (n : Z) (noun : string) : string :=
  if n =? 1 then String.append (formatInt n) (String.append " " noun)
  else String.append (formatInt n)
         (String.append " " (String.append noun "s")).

End Terminal.

(* ===================================================================== *)
(** ** Package [internal/tracer] *)
(* ===================================================================== *)

Module Tracer.

Record RunResult := mkRunResult {
  TraceFile : string;
  Output : string;
  ExitCode : Z
}.



Section RunMulti.

(** [os.Stat(f)] followed by [fi.Size()]: [None] when [os.Stat] returns
    an error. *)
Variable stat : string → option Z.





End RunMulti.


End Tracer.

(* ===================================================================== *)
(** ** Package [cmd]: run.go *)
(* ===================================================================== *)

Module Run.
Import GoStrings GoTime.

(** The loop of [scheduleDiversityValues]; [numCPU] is
    [runtime.NumCPU()]. *)
Fixpoint scheduleDiversity_loop (numCPU : Z) (candidates result : list Z)
    : list Z :=
  match candidates with
  | [] => result
  | v :: rest =>
      if (v <=? numCPU) || (v =? 1)
      then scheduleDiversity_loop numCPU rest (result ++ [v])
      else scheduleDiversity_loop numCPU rest result
  end.

Definition scheduleDiversityValues (numCPU : Z) : list Z :=
  scheduleDiversity_loop numCPU [1; 2; 4] [].

(** The loop of [joinArgs]; [i] is the index of the next argument. *)
Fixpoint joinArgs_loop (args : list string) (i : nat) (result : string)
    : string :=
  match args with
  | [] => result
  | a :: rest =>
      let result := if (0 <? i)%nat then String.append result " " else result in
      joinArgs_loop rest (S i) (String.append result a)
  end.

Definition joinArgs (args : list string) : string := joinArgs_loop args 0 "".

(** The locals the retry loop of [runRun] changes, and the files it has
    handed to [os.Remove]. *)
Record retryState := mkRetryState {
  result : Detector.Result;
  traceToClean : string;
  removed : list string
}.

Section Retry.

(** [tracer.Run(args, duration, "GOMAXPROCS=<gmp>")] and
    [detector.Analyze(traceFile, opts)]: [None] for an error. *)
Variable run : Z → option Tracer.RunResult.
Variable analyze : string → option Detector.Result.

Definition hasFindings (r : Detector.Result) : bool :=
  (0 <? length (Detector.Findings r))%nat.

(** The schedule-diversity retry loop. *)
Fixpoint retry_loop (values : list Z) (st : retryState) : retryState :=
  match values with
  | [] => st
  | gmp :: rest =>
      if hasFindings (result st) then st
      else
        match run gmp with
        | None => retry_loop rest st
        | Some r2 =>
            let discard :=
              {| result := result st; traceToClean := traceToClean st;
                 removed := removed st ++ [Tracer.TraceFile r2] |} in
            match analyze (Tracer.TraceFile r2) with
            | Some res2 =>
                if hasFindings res2 then
                  retry_loop rest
                    {| result := res2;
                       traceToClean := Tracer.TraceFile r2;
                       removed := removed st ++ [traceToClean st] |}
                else retry_loop rest discard
            | None => retry_loop rest discard
            end
        end
  end.

(** A retry whose analysis has findings. *)
Definition adopted (gmp : Z) : Prop :=
  ∃ r res, run gmp = Some r ∧ analyze (Tracer.TraceFile r) = Some res ∧
           hasFindings res = true.

(** The trace files of the runs that succeed. *)
Definition produced (values : list Z) : list string :=
  flat_map (λ gmp, match run gmp with
                   | Some r => [Tracer.TraceFile r]
                   | None => []
                   end) values.

End Retry.

End Run.

(* ===================================================================== *)
(** * Further traces and runs *)
(* ===================================================================== *)

Module Scenarios.
Import GoStrings GoTime Detector.

(** Two sites of the program under test at which a goroutine waits for
    a mutex. *)
Definition firstLock : list Trace.StackFrame :=
  [Trace.mkFrame "runtime.gopark" "/go/src/runtime/proc.go" 424;
   Trace.mkFrame "main.first" "/src/app/main.go" 40].

Definition secondLock : list Trace.StackFrame :=
  [Trace.mkFrame "runtime.gopark" "/go/src/runtime/proc.go" 424;
   Trace.mkFrame "main.second" "/src/app/main.go" 50].

(** Goroutine 1 waits for the first mutex, gets it and waits for the
    second one; goroutine 2 takes them in the other order.  Both are still
    waiting when the trace ends. *)
Definition inversion : list Trace.Event :=
  [Examples.transition 0 1 Trace.GoNotExist Trace.GoRunnable "" Examples.testFrames;
   Examples.transition 5 2 Trace.GoNotExist Trace.GoRunnable "" Examples.testFrames;
   Examples.transition 10 1 Trace.GoRunnable Trace.GoRunning "" [];
   Examples.transition 15 2 Trace.GoRunnable Trace.GoRunning "" [];
   Examples.transition 20 1 Trace.GoRunning Trace.GoWaiting "sync" firstLock;
   Examples.transition 25 2 Trace.GoRunning Trace.GoWaiting "sync" secondLock;
   Examples.transition 30 1 Trace.GoWaiting Trace.GoRunnable "" [];
   Examples.transition 35 2 Trace.GoWaiting Trace.GoRunnable "" [];
   Examples.transition 40 1 Trace.GoRunnable Trace.GoRunning "" [];
   Examples.transition 45 2 Trace.GoRunnable Trace.GoRunning "" [];
   Examples.transition 50 1 Trace.GoRunning Trace.GoWaiting "sync" secondLock;
   Examples.transition 55 2 Trace.GoRunning Trace.GoWaiting "sync" firstLock;
   Trace.mkEvent 3000000000 Trace.EventOther].

(** Goroutine 18 blocks on a channel receive; goroutine 21 is created by
    the program and never scheduled; the trace ends after 100 ms. *)
Definition spawnFrames : list Trace.StackFrame :=
  [Trace.mkFrame "main.spawn" "/src/app/main.go" 20].

Definition orphanAndLeak : list Trace.Event :=
  [Examples.transition 0 18 Trace.GoNotExist Trace.GoRunnable "" Examples.testFrames;
   Examples.transition 10 18 Trace.GoRunnable Trace.GoRunning "" [];
   Examples.transition 20 18 Trace.GoRunning Trace.GoWaiting "chan receive"
     Examples.workerFrames;
   Examples.transition 30 21 Trace.GoNotExist Trace.GoRunnable "" spawnFrames;
   Trace.mkEvent 100000000 Trace.EventOther].



End Scenarios.

(* ===================================================================== *)
(** * Properties *)
(* ===================================================================== *)

(** ** Arithmetic and strings *)

Lemma wrap64_id z : GoTime.in_int64 z → GoTime.wrap64 z = z.
Proof.
  unfold GoTime.in_int64, GoTime.int64_min, GoTime.int64_max, GoTime.wrap64.
  intros H. rewrite Z.mod_small; lia.
Qed.

Lemma blocked_duration_exact a b :
  GoTime.in_int64 (a - b) →
  GoTime.mul64 (GoTime.sub64 a b) GoTime.Nanosecond = a - b.
Proof.
  intros H. unfold GoTime.mul64, GoTime.sub64, GoTime.Nanosecond.
  rewrite (wrap64_id (a - b)) by done.
  rewrite Z.mul_1_r. by apply wrap64_id.
Qed.

Lemma string_eqb_decide (s t : string) : String.eqb s t = bool_decide (s = t).
Proof.
  destruct (String.eqb_spec s t) as [->|Hne].
  - by rewrite bool_decide_eq_true_2.
  - by rewrite bool_decide_eq_false_2.
Qed.

(** ** The detectors as filters over the snapshot *)

Section Loops.
Import Detector.

Lemma detectLeaks_loop_spec lastTime opts gs acc :
  detectLeaks_loop lastTime opts gs acc =
  acc ++ flat_map (λ '(gid, g), option_list (detectLeaks_body lastTime opts gid g)) gs.
Proof.
  revert acc. induction gs as [|[gid g] gs IH]; intros acc; simpl.
  - by rewrite app_nil_r.
  - destruct (detectLeaks_body lastTime opts gid g) as [f|]; rewrite IH; simpl.
    + by rewrite <- app_assoc.
    + done.
Qed.

Lemma detectOrphans_loop_spec d gs acc :
  detectOrphans_loop d gs acc =
  acc ++ flat_map (λ '(gid, g), option_list (detectOrphans_body d gid g)) gs.
Proof.
  revert acc. induction gs as [|[gid g] gs IH]; intros acc; simpl.
  - by rewrite app_nil_r.
  - destruct (detectOrphans_body d gid g) as [f|]; rewrite IH; simpl.
    + by rewrite <- app_assoc.
    + done.
Qed.

Lemma detectLeaks_body_spec lastTime opts gid g :
  (isBlocked g = true → GoTime.in_int64 (lastTime - blockStart g)) →
  detectLeaks_body lastTime opts gid g =
  if isBlocked g then Spec.leak_finding lastTime opts gid g else None.
Proof.
  intros Hrange. unfold detectLeaks_body, Spec.leak_finding, Spec.provenance_ok.
  destruct (isBlocked g); simpl; [|done].
  rewrite blocked_duration_exact by auto.
  rewrite !string_eqb_decide.
  destruct (isRuntimeGoroutine (stack g)); simpl; [done|].
  destruct (bool_decide (reason g = "sleep")); simpl; [done|].
  rewrite <- bool_decide_or.
  destruct (bool_decide (reason g = "chan send" ∨ reason g = "chan receive")); simpl.
  - destruct (creationSeen g); simpl; [|done].
    by destruct (isNonTestRuntimeGoroutine (creationStack g)).
  - assert (Hlt : (lastTime - blockStart g <? MinBlock opts) =
                  negb (bool_decide (MinBlock opts <= lastTime - blockStart g))).
    { destruct (Z.ltb_spec (lastTime - blockStart g) (MinBlock opts)).
      - rewrite bool_decide_eq_false_2; [done | lia].
      - rewrite bool_decide_eq_true_2; [done | lia]. }
    rewrite Hlt.
    destruct (bool_decide (reason g = "sync")); simpl.
    + by destruct (bool_decide (MinBlock opts <= lastTime - blockStart g)).
    + destruct (creationSeen g); simpl; [|done].
      destruct (isNonTestRuntimeGoroutine (creationStack g)); simpl; [done|].
      by destruct (bool_decide (MinBlock opts <= lastTime - blockStart g)).
Qed.

End Loops.

(** C1. Over the final snapshot [detectLeaks] emits, for every goroutine
    with [is_blocked = true] and for no other, exactly the finding of
    section 4.4: none when the blocking stack is runtime-only or the reason
    is "sleep"; for "chan send" and "chan receive" a GoroutineLeak with High
    confidence when [creation_seen] holds and the creation stack is not
    non-test runtime-only, whatever the duration; for "sync" no provenance
    filter; for every other reason the channel provenance filter; and for
    the non-channel reasons a LongBlock with Medium confidence only if
    [last_time - block_start] is at least [opts.min_block].  The time
    stamps are [int64] values whose difference does not overflow for the
    blocked goroutines. *)
Theorem detectLeaks_matches_section_4_4
    (goroutines : Detector.goroutineMap) (lastTime : Z) (opts : Detector.Options) :
  Forall (λ e, Detector.isBlocked e.2 = true →
               GoTime.in_int64 (lastTime - Detector.blockStart e.2)) goroutines →
  Detector.detectLeaks goroutines lastTime opts =
  Spec.leak_findings goroutines lastTime opts.
Proof.
  intros Hall. unfold Detector.detectLeaks, Spec.leak_findings.
  rewrite detectLeaks_loop_spec. simpl.
  induction Hall as [|[gid g] gs Hg _ IH]; simpl; [done|].
  rewrite IH. f_equal.
  rewrite detectLeaks_body_spec by done.
  by destruct (Detector.isBlocked g).
Qed.

Lemma detectLeaks_matches_section_4_4_witness :
  Detector.detectLeaks Examples.snapshot 3000000000 Examples.opts1s =
  Spec.leak_findings Examples.snapshot 3000000000 Examples.opts1s.
Proof.
  apply detectLeaks_matches_section_4_4.
  unfold Examples.snapshot.
  repeat (apply List.Forall_cons; [intros _; vm_compute; split; discriminate|]).
  apply List.Forall_nil.
Defined.

(** ** Occurrences of a text in a Go string *)

Section Strings.
Import GoStrings.

Local Notation "a +++ b" := (String.append a b) (at level 60, right associativity).
Local Arguments String.append !_ _ / : simpl nomatch.

Lemma sapp_assoc (a b c : string) : (a +++ b) +++ c = a +++ (b +++ c).
Proof. induction a as [|x a IH]; simpl; [done | by f_equal]. Qed.

Lemma sapp_nil_r (a : string) : a +++ "" = a.
Proof. induction a as [|x a IH]; simpl; [done | by f_equal]. Qed.

Lemma occurs_refl s : Spec.occurs s s.
Proof. exists "", "". simpl. by rewrite sapp_nil_r. Qed.

Lemma occurs_trans t u s : Spec.occurs t u → Spec.occurs u s → Spec.occurs t s.
Proof.
  intros (a & b & ->) (c & d & ->).
  exists (c +++ a), (b +++ d). by rewrite !sapp_assoc.
Qed.

Lemma occurs_prefix p r : Spec.occurs p (p +++ r).
Proof. by exists "", r. Qed.

Lemma occurs_suffix a t : Spec.occurs t (a +++ t).
Proof. exists a, "". by rewrite sapp_nil_r. Qed.

Lemma occurs_cons c t s : Spec.occurs t s → Spec.occurs t (String c s).
Proof. intros (a & b & ->). by exists (String c a), b. Qed.

Lemma HasPrefix_app s p : HasPrefix s p = true ↔ ∃ r, s = p +++ r.
Proof.
  unfold HasPrefix. revert s. induction p as [|x p IH]; intros s; simpl.
  - split; [intros _; by exists s | by destruct s].
  - destruct s as [|y s]; simpl.
    + split; [done | by intros (r & ?)].
    + destruct (ascii_dec x y) as [->|Hne].
      * rewrite IH. split; intros (r & Hr); exists r; congruence.
      * split; [done | intros (r & Hr); congruence].
Qed.

Lemma Contains_occurs s t : Contains s t = true ↔ Spec.occurs t s.
Proof.
  induction s as [|c s IH]; cbn [Contains].
  - rewrite orb_false_r, HasPrefix_app. split.
    + intros (r & ->). apply occurs_prefix.
    + intros ([|x a] & b & Hs); simpl in Hs; [by exists b | done].
  - rewrite orb_true_iff, IH, HasPrefix_app. split.
    + intros [(r & ->)|Hocc]; [apply occurs_prefix | by apply occurs_cons].
    + intros ([|x a] & b & Hs); simpl in Hs.
      * left. by exists b.
      * right. injection Hs as -> ->. by exists a, b.
Qed.

Lemma Split_nonempty s sep : Split s sep ≠ [].
Proof.
  induction s as [|c s IH]; simpl; [done|].
  destruct (Ascii.eqb c sep); [done|]. by destruct (Split s sep).
Qed.

Lemma Split_head_prefix s sep p ps :
  Split s sep = p :: ps → ∃ b, s = p +++ b.
Proof.
  revert p ps. induction s as [|c s IH]; intros p ps; simpl.
  - intros [= <- <-]. by exists "".
  - destruct (Ascii.eqb c sep).
    + intros [= <- <-]. by exists (String c s).
    + destruct (Split s sep) as [|q qs] eqn:Hsplit.
      { by destruct (Split_nonempty s sep). }
      intros [= <- <-]. destruct (IH q qs eq_refl) as [b ->].
      by exists b.
Qed.

Lemma Split_occurs s sep line : In line (Split s sep) → Spec.occurs line s.
Proof.
  revert line. induction s as [|c s IH]; intros line; simpl.
  - intros [<-|[]]. apply occurs_refl.
  - destruct (Ascii.eqb c sep).
    + intros [<-|Hin].
      * by exists "", (String c s).
      * apply occurs_cons. by apply IH.
    + destruct (Split s sep) as [|p ps] eqn:Hsplit.
      { by destruct (Split_nonempty s sep). }
      intros [<-|Hin].
      * destruct (Split_head_prefix _ _ _ _ Hsplit) as [b ->].
        by exists "", b.
      * apply occurs_cons. apply IH. by right.
Qed.

Lemma SplitN2_first_prefix s sep : ∃ r, s = SplitN2_first s sep +++ r.
Proof.
  induction s as [|c s [r IH]]; simpl; [by exists ""|].
  destruct (Ascii.eqb c sep); [by exists (String c s)|].
  exists r. simpl. by rewrite <- IH.
Qed.

(** [TrimLeftSpace] keeps a suffix. *)
Lemma TrimLeftSpace_suffix s : ∃ a, s = a +++ TrimLeftSpace s.
Proof.
  remember (String.length s) as n eqn:Hn.
  revert s Hn. induction (lt_wf n) as [n _ IH]; intros s ->.
  destruct s as [|c1 s1]; [by exists ""|]. simpl.
  destruct (isAsciiSpace c1).
  { destruct (IH (String.length s1) ltac:(simpl; lia) s1 eq_refl) as [a Ha].
    exists (String c1 a). simpl. by rewrite <- Ha. }
  destruct s1 as [|c2 s2]; [by exists ""|].
  destruct (isSpace2 c1 c2).
  { destruct (IH (String.length s2) ltac:(simpl; lia) s2 eq_refl) as [a Ha].
    exists (String c1 (String c2 a)). simpl. by rewrite <- Ha. }
  destruct s2 as [|c3 s3]; [by exists ""|].
  destruct (isSpace3 c1 c2 c3); [|by exists ""].
  destruct (IH (String.length s3) ltac:(simpl; lia) s3 eq_refl) as [a Ha].
  exists (String c1 (String c2 (String c3 a))). simpl. by rewrite <- Ha.
Qed.

Lemma TrimLeftSpace_rev_suffix r : ∃ a, r = a +++ TrimLeftSpace_rev r.
Proof.
  remember (String.length r) as n eqn:Hn.
  revert r Hn. induction (lt_wf n) as [n _ IH]; intros r ->.
  destruct r as [|c1 r1]; [by exists ""|]. simpl.
  destruct (isAsciiSpace c1).
  { destruct (IH (String.length r1) ltac:(simpl; lia) r1 eq_refl) as [a Ha].
    exists (String c1 a). simpl. by rewrite <- Ha. }
  destruct r1 as [|c2 r2]; [by exists ""|].
  destruct (isSpace2 c2 c1).
  { destruct (IH (String.length r2) ltac:(simpl; lia) r2 eq_refl) as [a Ha].
    exists (String c1 (String c2 a)). simpl. by rewrite <- Ha. }
  destruct r2 as [|c3 r3]; [by exists ""|].
  destruct (isSpace3 c3 c2 c1); [|by exists ""].
  destruct (IH (String.length r3) ltac:(simpl; lia) r3 eq_refl) as [a Ha].
  exists (String c1 (String c2 (String c3 a))). simpl. by rewrite <- Ha.
Qed.

Lemma rev_string_app acc a b :
  rev_string acc (a +++ b) = rev_string (rev_string acc a) b.
Proof. revert acc. induction a as [|x a IH]; intros acc; simpl; [done | apply IH]. Qed.

Lemma rev_string_acc acc s : rev_string acc s = rev_string "" s +++ acc.
Proof.
  revert acc. induction s as [|x s IH]; intros acc; simpl; [done|].
  rewrite (IH (String x acc)), (IH (String x "")), sapp_assoc. done.
Qed.

Lemma rev_string_involutive s : rev_string "" (rev_string "" s) = s.
Proof.
  induction s as [|x s IH]; simpl; [done|].
  rewrite (rev_string_acc (String x "") s), rev_string_app, IH. done.
Qed.

(** [TrimRightSpace] keeps a prefix. *)
Lemma TrimRightSpace_prefix s : ∃ b, s = TrimRightSpace s +++ b.
Proof.
  unfold TrimRightSpace.
  destruct (TrimLeftSpace_rev_suffix (rev_string "" s)) as [a Ha].
  exists (rev_string "" a).
  rewrite <- (rev_string_involutive s) at 1.
  rewrite Ha at 1. rewrite rev_string_app.
  by rewrite (rev_string_acc (rev_string "" a)).
Qed.

Lemma TrimSpace_occurs s : Spec.occurs (TrimSpace s) s.
Proof.
  unfold TrimSpace.
  destruct (TrimLeftSpace_suffix s) as [a Ha].
  destruct (TrimRightSpace_prefix (TrimLeftSpace s)) as [b Hb].
  exists a, b. by rewrite <- Hb.
Qed.

(** A frame whose function begins with [testing.] puts the text
    [testing.] into the rendered stack. *)
Lemma containsTestingFunction_Contains stack :
  Spec.containsTestingFunction stack = true →
  Contains stack "testing." = true.
Proof.
  unfold Spec.containsTestingFunction, Spec.isTestingFrameLine.
  rewrite existsb_exists. intros (line & Hin & Hpre).
  apply Contains_occurs.
  apply HasPrefix_app in Hpre as [r Hr].
  destruct (SplitN2_first_prefix (TrimSpace line) Detector.space) as [r' Hr'].
  eapply occurs_trans; [|by apply (Split_occurs _ _ _ Hin)].
  eapply occurs_trans; [|apply TrimSpace_occurs].
  rewrite Hr', Hr. rewrite sapp_assoc. apply occurs_prefix.
Qed.

End Strings.

(** ** The stack classifier *)

(** What [isNonTestRuntimeGoroutine] computes: it returns true exactly
    when [isRuntimeGoroutine] returns true and the text [testing.] occurs
    nowhere in the rendered stack, be it in a function name or in a file
    path; so it returns false whenever a frame's function begins with
    [testing.]; and the empty stack is runtime-only. *)
Lemma isNonTestRuntimeGoroutine_spec (stack : string) :
  (Detector.isNonTestRuntimeGoroutine stack = true ↔
     Detector.isRuntimeGoroutine stack = true ∧
     GoStrings.Contains stack "testing." = false) ∧
  (Spec.containsTestingFunction stack = true →
     Detector.isNonTestRuntimeGoroutine stack = false) ∧
  Detector.isRuntimeGoroutine "" = true.
Proof.
  unfold Detector.isNonTestRuntimeGoroutine. split; [|split].
  - destruct (Detector.isRuntimeGoroutine stack); simpl.
    + rewrite negb_true_iff. tauto.
    + split; [done | by intros [? _]].
  - intros Ht. apply containsTestingFunction_Contains in Ht. rewrite Ht.
    by destruct (Detector.isRuntimeGoroutine stack).
  - reflexivity.
Qed.

(** C2, evaluated on the stack of the single frame [runtime.gopark] whose
    source file lies under a directory named [testing.example].  Every
    frame of it is a runtime frame and no frame has a function that begins
    with [testing.]: the stack is runtime-only and holds no frame of the
    testing framework, so [isNonTestRuntimeGoroutine] has to return true.
    It returns false, because it looks for the text [testing.] in the whole
    rendering, file paths included.  The equivalence of the claim
    therefore fails; it fails in this direction only: whenever the
    function returns true, the stack is runtime-only and holds no
    [testing.] function. *)
Theorem isNonTestRuntimeGoroutine_rejects_testing_in_path :
  Detector.isRuntimeGoroutine Examples.runtimeStackInTestingDir = true ∧
  Spec.containsTestingFunction Examples.runtimeStackInTestingDir = false ∧
  Detector.isNonTestRuntimeGoroutine Examples.runtimeStackInTestingDir = false ∧
  ¬ (∀ stack,
       Detector.isNonTestRuntimeGoroutine stack = true ↔
       Detector.isRuntimeGoroutine stack = true ∧
       Spec.containsTestingFunction stack = false) ∧
  (∀ stack,
     Detector.isNonTestRuntimeGoroutine stack = true →
     Detector.isRuntimeGoroutine stack = true ∧
     Spec.containsTestingFunction stack = false).
Proof.
  assert (Hr : Detector.isRuntimeGoroutine Examples.runtimeStackInTestingDir
               = true) by (vm_compute; reflexivity).
  assert (Ht : Spec.containsTestingFunction Examples.runtimeStackInTestingDir
               = false) by (vm_compute; reflexivity).
  assert (Hc : Detector.isNonTestRuntimeGoroutine
                 Examples.runtimeStackInTestingDir = false)
    by (vm_compute; reflexivity).
  split; [exact Hr|]. split; [exact Ht|]. split; [exact Hc|]. split.
  - intros H. destruct (H Examples.runtimeStackInTestingDir) as [_ H'].
    rewrite Hc in H'. discriminate H'. by split.
  - intros stack Hn.
    destruct (isNonTestRuntimeGoroutine_spec stack) as (Hiff & Hfun & _).
    split; [by apply Hiff in Hn as [? _]|].
    destruct (Spec.containsTestingFunction stack); [|done].
    rewrite Hfun in Hn by done. discriminate Hn.
Qed.

(** ** What a finding of each detector comes from *)

Section Origins.
Import Detector.

Lemma detectLeaks_In gs lastTime opts f :
  In f (detectLeaks gs lastTime opts) ↔
  ∃ gid g, In (gid, g) gs ∧ detectLeaks_body lastTime opts gid g = Some f.
Proof.
  unfold detectLeaks. rewrite detectLeaks_loop_spec. simpl.
  rewrite in_flat_map. split.
  - intros ([gid g] & Hin & Hf). exists gid, g. split; [done|].
    destruct (detectLeaks_body lastTime opts gid g) as [f'|]; simpl in Hf;
      [|done]. destruct Hf as [->|[]]. done.
  - intros (gid & g & Hin & Hb). exists (gid, g). split; [done|].
    rewrite Hb. by left.
Qed.

Lemma detectOrphans_short gs d :
  d < 200000000 →
  detectOrphans gs d =
  flat_map (λ '(gid, g), option_list (detectOrphans_body d gid g)) gs.
Proof.
  intros Hd. unfold detectOrphans.
  change (GoTime.mul64 200 GoTime.Millisecond) with 200000000.
  destruct (Z.geb_spec d 200000000); [lia|].
  by rewrite detectOrphans_loop_spec.
Qed.

Lemma detectOrphans_long gs d : 200000000 <= d → detectOrphans gs d = [].
Proof.
  intros Hd. unfold detectOrphans.
  change (GoTime.mul64 200 GoTime.Millisecond) with 200000000.
  destruct (Z.geb_spec d 200000000); [done | lia].
Qed.

Lemma detectOrphans_In gs d f :
  In f (detectOrphans gs d) ↔
  d < 200000000 ∧
  ∃ gid g, In (gid, g) gs ∧ detectOrphans_body d gid g = Some f.
Proof.
  destruct (Z.lt_ge_cases d 200000000) as [Hd|Hd].
  - rewrite detectOrphans_short by done. rewrite in_flat_map. split.
    + intros ([gid g] & Hin & Hf). split; [done|]. exists gid, g.
      split; [done|].
      destruct (detectOrphans_body d gid g) as [f'|]; simpl in Hf; [|done].
      destruct Hf as [->|[]]. done.
    + intros (_ & gid & g & Hin & Hb). exists (gid, g). split; [done|].
      rewrite Hb. by left.
  - rewrite detectOrphans_long by done. split; [done | lia].
Qed.

Lemma detectOrphans_body_Some d gid g f :
  detectOrphans_body d gid g = Some f →
  f = {| Kind_ := KindGoroutineLeak; Confidence_ := ConfidenceLow;
         GoroutineID := gid; BlockedOn := orphanReason; BlockedFor := d;
         Stack := creationStack g; Function := creationFunction g;
         Location := creationLocation g |} ∧
  goroutineDead g = false ∧ isBlocked g = false ∧ creationSeen g = true.
Proof.
  unfold detectOrphans_body.
  destruct (goroutineDead g); [done|].
  destruct (isBlocked g); [done|].
  destruct (creationSeen g); simpl; [|done].
  destruct (isNonTestRuntimeGoroutine (creationStack g)); [done|].
  destruct (isRuntimeGoroutine (stack g) && String.eqb (creationFunction g) "");
    [done|].
  by intros [= <-].
Qed.

Lemma detectLeaks_body_Some lastTime opts gid g f :
  detectLeaks_body lastTime opts gid g = Some f →
  isBlocked g = true ∧ isRuntimeGoroutine (stack g) = false ∧
  GoroutineID f = gid ∧ BlockedOn f = reason g ∧
  Stack f = stack g ∧ Location f = location g.
Proof.
  unfold detectLeaks_body.
  destruct (isBlocked g); [|done].
  destruct (isRuntimeGoroutine (stack g)); [done|].
  simpl. intros H.
  repeat match type of H with
         | (if ?c then _ else _) = Some _ => destruct c; try done
         end;
    by injection H as <-.
Qed.

End Origins.

(** C5. When the trace lasts 200 ms or more [detectOrphans] returns no
    finding, whatever the snapshot; a finding can only come from a trace
    strictly shorter than 200 ms, and is then a GoroutineLeak with Low
    confidence. *)
Theorem detectOrphans_only_on_short_traces
    (goroutines : Detector.goroutineMap) (traceDuration : Z) :
  (200 * GoTime.Millisecond <= traceDuration →
     Detector.detectOrphans goroutines traceDuration = []) ∧
  (∀ f, In f (Detector.detectOrphans goroutines traceDuration) →
     traceDuration < 200 * GoTime.Millisecond ∧
     Detector.Kind_ f = Detector.KindGoroutineLeak ∧
     Detector.Confidence_ f = Detector.ConfidenceLow).
Proof.
  change (200 * GoTime.Millisecond) with 200000000. split.
  - apply detectOrphans_long.
  - intros f Hin. apply detectOrphans_In in Hin as (Hd & gid & g & _ & Hb).
    apply detectOrphans_body_Some in Hb as [-> _]. done.
Qed.

Lemma detectOrphans_only_on_short_traces_witness :
  Detector.detectOrphans [(5, Examples.neverRan)] 250000000 = [] ∧
  ∃ f, In f (Detector.detectOrphans [(5, Examples.neverRan)] 120000000) ∧
       120000000 < 200 * GoTime.Millisecond ∧
       Detector.Kind_ f = Detector.KindGoroutineLeak ∧
       Detector.Confidence_ f = Detector.ConfidenceLow.
Proof.
  split.
  - apply (proj1 (detectOrphans_only_on_short_traces
                    [(5, Examples.neverRan)] 250000000)).
    vm_compute. discriminate.
  - eexists. split; [vm_compute; left; reflexivity|].
    apply (proj2 (detectOrphans_only_on_short_traces
                    [(5, Examples.neverRan)] 120000000)).
    vm_compute. left. reflexivity.
Defined.

(** C10. Every finding of [detectOrphans] belongs to a goroutine of the
    snapshot, has [blocked_for] equal to the whole trace duration, and takes
    its stack, function and location from that goroutine's creation stack,
    not from its blocking stack. *)
Theorem detectOrphans_finding_fields
    (goroutines : Detector.goroutineMap) (traceDuration : Z)
    (f : Detector.Finding) :
  In f (Detector.detectOrphans goroutines traceDuration) →
  ∃ g, In (Detector.GoroutineID f, g) goroutines ∧
       Detector.BlockedFor f = traceDuration ∧
       Detector.Stack f = Detector.creationStack g ∧
       Detector.Function f = Detector.creationFunction g ∧
       Detector.Location f = Detector.creationLocation g.
Proof.
  intros Hin. apply detectOrphans_In in Hin as (_ & gid & g & Hg & Hb).
  apply detectOrphans_body_Some in Hb as [-> _]. by exists g.
Qed.

Lemma detectOrphans_finding_fields_witness :
  ∃ f g, In f (Detector.detectOrphans [(5, Examples.neverRan)] 120000000) ∧
         In (Detector.GoroutineID f, g) [(5, Examples.neverRan)] ∧
         Detector.BlockedFor f = 120000000 ∧
         Detector.Stack f = Detector.creationStack g ∧
         Detector.Function f = Detector.creationFunction g ∧
         Detector.Location f = Detector.creationLocation g.
Proof.
  assert (Hin : In (Detector.mkFinding Detector.KindGoroutineLeak
                      Detector.ConfidenceLow 5 Detector.orphanReason 120000000
                      Examples.userStack "main.worker" "/src/app/main.go:12")
                   (Detector.detectOrphans [(5, Examples.neverRan)] 120000000))
    by (vm_compute; left; reflexivity).
  destruct (detectOrphans_finding_fields _ _ _ Hin) as (g & Hg).
  eexists _, g. split; [exact Hin | exact Hg].
Defined.


(** ** Loops that keep the first goroutine per key *)

Section FirstPerKey.
Import Detector Views.
Variable cand : goroutineState → bool.
Variable key : goroutineState → string.

Lemma seenAt_insert seen k k' :
  seenAt (<[k := true]> seen) k' = bool_decide (k = k') || seenAt seen k'.
Proof.
  unfold seenAt. destruct (decide (k = k')) as [->|Hne].
  - rewrite lookup_insert_eq, bool_decide_eq_true_2; done.
  - rewrite lookup_insert_ne, bool_decide_eq_false_2; done.
Qed.

Lemma seenAt_empty k : seenAt ∅ k = false.
Proof. unfold seenAt. by rewrite lookup_empty. Qed.

Lemma keeps_true seen g :
  keeps cand key seen g = true ↔ cand g = true ∧ seenAt seen (key g) = false.
Proof. unfold keeps. by rewrite andb_true_iff, negb_true_iff. Qed.

Lemma firstPerKey_app seen l1 l2 :
  firstPerKey cand key seen (l1 ++ l2) =
  firstPerKey cand key seen l1 ++
  firstPerKey cand key (firstPerKey_seen cand key seen l1) l2.
Proof.
  revert seen. induction l1 as [|[gid g] l1 IH]; intros seen; simpl; [done|].
  destruct (keeps cand key seen g); simpl; by rewrite IH.
Qed.

(** Every entry kept is an entry of the map that passes the guards and
    whose key was not in [seen]. *)
Lemma firstPerKey_In seen gs gid g :
  In (gid, g) (firstPerKey cand key seen gs) →
  In (gid, g) gs ∧ cand g = true ∧ seenAt seen (key g) = false.
Proof.
  revert seen. induction gs as [|[gid' g'] gs IH]; intros seen; simpl; [done|].
  destruct (keeps cand key seen g') eqn:He.
  - intros [[= -> ->]|Hin].
    + apply keeps_true in He as [Hc Hs]. split; [by left | done].
    + destruct (IH _ Hin) as (Hin' & Hc & Hs).
      split; [by right|]. split; [done|].
      rewrite seenAt_insert in Hs. by apply orb_false_iff in Hs as [_ ?].
  - intros Hin. destruct (IH _ Hin) as (Hin' & Hc & Hs).
    split; [by right | done].
Qed.

(** [seen] ends with the keys it started with and the keys of the entries
    kept. *)
Lemma firstPerKey_seen_spec seen gs k :
  seenAt (firstPerKey_seen cand key seen gs) k = true ↔
  seenAt seen k = true ∨
  ∃ gid g, In (gid, g) (firstPerKey cand key seen gs) ∧ key g = k.
Proof.
  revert seen. induction gs as [|[gid g] gs IH]; intros seen; simpl.
  - split; [by left | by intros [?|(? & ? & [] & _)]].
  - destruct (keeps cand key seen g) eqn:He; rewrite IH.
    + rewrite seenAt_insert, orb_true_iff, bool_decide_eq_true. split.
      * intros [[Heq|Hs]|(gid' & g' & Hin & Hk)].
        -- right. exists gid, g. split; [by left | done].
        -- by left.
        -- right. exists gid', g'. split; [by right | done].
      * intros [Hs|(gid' & g' & [[= <- <-]|Hin] & Hk)].
        -- left. by right.
        -- left. by left.
        -- right. by exists gid', g'.
    + done.
Qed.

(** The keys of the entries kept are pairwise distinct. *)
Lemma firstPerKey_NoDup seen gs :
  List.NoDup (map (λ e, key e.2) (firstPerKey cand key seen gs)).
Proof.
  revert seen. induction gs as [|[gid g] gs IH]; intros seen; simpl.
  - constructor.
  - destruct (keeps cand key seen g); [|apply IH].
    simpl. constructor; [|apply IH].
    rewrite in_map_iff. intros ([gid' g'] & Hk & Hin). simpl in Hk.
    apply firstPerKey_In in Hin as (_ & _ & Hs).
    rewrite seenAt_insert, Hk in Hs.
    by rewrite bool_decide_eq_true_2 in Hs.
Qed.




End FirstPerKey.

(** ** The loop of [detectTransientBlocks] *)

Section Transient.
Import Detector Views.
Variable opts : Options.

Local Notation "'kept'" :=
  (firstPerKey (transient_cand opts) prevLongBlockLocation).
Local Notation "'kept_seen'" :=
  (firstPerKey_seen (transient_cand opts) prevLongBlockLocation).

Lemma transient_loop_views gs seen acc :
  detectTransientBlocks_loop opts gs seen acc =
  (kept_seen seen gs,
   acc ++ map (λ e, transientFinding e.1 e.2) (kept seen gs)).
Proof.
  revert seen acc. induction gs as [|[gid g] gs IH]; intros seen acc; simpl.
  - by rewrite app_nil_r.
  - unfold keeps, transient_cand.
    destruct (prevLongBlockDuration g <? MinBlock opts); simpl; [apply IH|].
    destruct (isRuntimeGoroutine (prevLongBlockStack g)); simpl; [apply IH|].
    destruct (seenAt seen (prevLongBlockLocation g)); simpl; [apply IH|].
    rewrite IH. by rewrite <- app_assoc.
Qed.

Lemma detectTransientBlocks_views gs :
  detectTransientBlocks gs opts =
  map (λ e, transientFinding e.1 e.2) (kept ∅ gs).
Proof. unfold detectTransientBlocks. by rewrite transient_loop_views. Qed.

Lemma transient_cand_true g :
  transient_cand opts g = true ↔ Spec.transient_candidate opts g.
Proof.
  unfold transient_cand, Spec.transient_candidate.
  rewrite andb_true_iff, !negb_true_iff, Z.ltb_ge. tauto.
Qed.

Lemma detectTransientBlocks_In gs f :
  In f (detectTransientBlocks gs opts) ↔
  ∃ gid g, In (gid, g) (kept ∅ gs) ∧ f = transientFinding gid g.
Proof.
  rewrite detectTransientBlocks_views, in_map_iff. split.
  - intros ([gid g] & <- & Hin). by exists gid, g.
  - intros (gid & g & Hin & ->). by exists (gid, g).
Qed.

Lemma detectTransientBlocks_locations gs :
  map Location (detectTransientBlocks gs opts) =
  map (λ e, prevLongBlockLocation e.2) (kept ∅ gs).
Proof. rewrite detectTransientBlocks_views, map_map. done. Qed.

Lemma detectTransientBlocks_kind gs f :
  In f (detectTransientBlocks gs opts) →
  Kind_ f = KindLongBlock ∧ Confidence_ f = ConfidenceMedium.
Proof. rewrite detectTransientBlocks_In. by intros (gid & g & _ & ->). Qed.


End Transient.


(** C4. Visiting the goroutines in the order [pre], [(gid, g)], [post],
    [detectTransientBlocks] emits a finding for [gid] if and only if
    [prev_long_duration] is at least [opts.min_block], [prev_long_stack] is
    not runtime-only, and no finding for the same [prev_long_location] was
    emitted while [pre] was visited; that finding is a LongBlock with Medium
    confidence built from the goroutine's [prev_long] fields, like every
    finding of the output; and no two findings of the output share a
    location. *)
Theorem detectTransientBlocks_emits_iff
    (opts : Detector.Options) (pre post : Detector.goroutineMap)
    (gid : Z) (g : Detector.goroutineState) :
  List.NoDup (map fst (pre ++ (gid, g) :: post)) →
  let out := Detector.detectTransientBlocks (pre ++ (gid, g) :: post) opts in
  ((∃ f, In f out ∧ Detector.GoroutineID f = gid) ↔
     Detector.MinBlock opts <= Detector.prevLongBlockDuration g ∧
     Detector.isRuntimeGoroutine (Detector.prevLongBlockStack g) = false ∧
     ¬ ∃ f', In f' (Detector.detectTransientBlocks pre opts) ∧
             Detector.Location f' = Detector.prevLongBlockLocation g) ∧
  (∀ f, In f out → Detector.GoroutineID f = gid →
        f = Detector.transientFinding gid g) ∧
  (∀ f, In f out →
        Detector.Kind_ f = Detector.KindLongBlock ∧
        Detector.Confidence_ f = Detector.ConfidenceMedium) ∧
  List.NoDup (map Detector.Location out).
Proof.
  intros Hkeys out.
  set (cand := Views.transient_cand opts).
  set (key := Detector.prevLongBlockLocation).
  set (seen1 := Views.firstPerKey_seen cand key ∅ pre).
  assert (Hsplit : ∀ gid' g',
            In (gid', g') (Views.firstPerKey cand key ∅ (pre ++ (gid, g) :: post)) ↔
            In (gid', g') (Views.firstPerKey cand key ∅ pre) ∨
            ((gid', g') = (gid, g) ∧ Views.keeps cand key seen1 g = true) ∨
            In (gid', g') (Views.firstPerKey cand key
                             (Views.firstPerKey_seen cand key seen1 [(gid, g)])
                             post)).
  { intros gid' g'.
    change (pre ++ (gid, g) :: post) with (pre ++ [(gid, g)] ++ post).
    rewrite !firstPerKey_app, !in_app_iff. fold seen1. simpl.
    destruct (Views.keeps cand key seen1 g); simpl; split.
    - intros [?|[[H|[]]|?]]; auto.
    - intros [?|[[H _]|?]]; auto.
    - intros [?|[[]|?]]; auto.
    - intros [?|[[_ H]|?]]; auto; done. }
  assert (Hgid : ∀ g', In (gid, g')
                   (Views.firstPerKey cand key ∅ (pre ++ (gid, g) :: post)) →
                 g' = g ∧ Views.keeps cand key seen1 g = true).
  { intros g' Hin. apply Hsplit in Hin as [Hin|[[[= ->] Hk]|Hin]]; [|done|].
    - apply firstPerKey_In in Hin as (Hin & _). exfalso.
      rewrite map_app in Hkeys. simpl in Hkeys.
      apply List.NoDup_remove_2 in Hkeys. apply Hkeys, in_or_app. left.
      apply in_map_iff. by exists (gid, g').
    - apply firstPerKey_In in Hin as (Hin & _). exfalso.
      rewrite map_app in Hkeys. simpl in Hkeys.
      apply List.NoDup_remove_2 in Hkeys. apply Hkeys, in_or_app. right.
      apply in_map_iff. by exists (gid, g'). }
  assert (Hseen1 : ∀ loc, Detector.seenAt seen1 loc = true ↔
            ∃ f', In f' (Detector.detectTransientBlocks pre opts) ∧
                  Detector.Location f' = loc).
  { intros loc. unfold seen1. rewrite firstPerKey_seen_spec, seenAt_empty.
    split.
    - intros [?|(gid' & g' & Hin & Hk)]; [done|].
      exists (Detector.transientFinding gid' g'). split; [|done].
      apply detectTransientBlocks_In. by exists gid', g'.
    - intros (f' & Hin & Hl). right.
      apply detectTransientBlocks_In in Hin as (gid' & g' & Hin & ->).
      by exists gid', g'. }
  split; [|split; [|split]].
  - split.
    + intros (f & Hin & Hid). subst out.
      apply detectTransientBlocks_In in Hin as (gid' & g' & Hin & ->).
      simpl in Hid. subst gid'. apply Hgid in Hin as [-> Hk].
      apply keeps_true in Hk as [Hc Hs].
      apply transient_cand_true in Hc as [Hd Hr].
      split; [done|]. split; [done|].
      intros Hex. apply Hseen1 in Hex. fold key in Hex. congruence.
    + intros (Hd & Hr & Hnone).
      exists (Detector.transientFinding gid g). split; [|done]. subst out.
      apply detectTransientBlocks_In. exists gid, g. split; [|done].
      apply Hsplit. right. left. split; [done|].
      apply keeps_true. split; [by apply transient_cand_true|].
      destruct (Detector.seenAt seen1 (key g)) eqn:Hs; [|done].
      apply Hseen1 in Hs. done.
  - intros f Hin Hid. subst out.
    apply detectTransientBlocks_In in Hin as (gid' & g' & Hin & ->).
    simpl in Hid. subst gid'. by apply Hgid in Hin as [-> _].
  - intros f Hin. by eapply detectTransientBlocks_kind.
  - subst out. rewrite detectTransientBlocks_locations.
    apply firstPerKey_NoDup.
Qed.

Lemma detectTransientBlocks_emits_iff_witness :
  (∃ f, In f (Detector.detectTransientBlocks Examples.sameSite12 Examples.opts1s) ∧
        Detector.GoroutineID f = 1) ∧
  List.NoDup (map Detector.Location
                (Detector.detectTransientBlocks Examples.sameSite12 Examples.opts1s)).
Proof.
  assert (Hkeys : List.NoDup (map fst ([] ++ (1, Examples.wasBlocked "/src/app/main.go:30" 2000000000)
                    :: [(2, Examples.wasBlocked "/src/app/main.go:30" 2000000000)]))).
  { simpl. constructor; [simpl; intros [H|[]]; discriminate H|].
    constructor; [simpl; tauto | constructor]. }
  destruct (detectTransientBlocks_emits_iff Examples.opts1s [] _ _ _ Hkeys)
    as (Hiff & _ & _ & Hnd).
  split; [|exact Hnd].
  apply Hiff. split; [vm_compute; discriminate|].
  split; [vm_compute; reflexivity|].
  intros (f & [] & _).
Defined.


(** ** The loops of [detectChanLockCycle] *)

Section ChanLock.
Import Detector Views.
Variable lastTime : Z.





Lemma chanLock_loop_views W gs seen acc :
  chanLock_loop lastTime W gs seen acc =
  (firstPerKey_seen (chanLock_cand lastTime W) prevSyncLocation seen gs,
   acc ++ map (λ e, chanLockFinding lastTime e.1 e.2)
            (firstPerKey (chanLock_cand lastTime W) prevSyncLocation seen gs)).
Proof.
  revert seen acc. induction gs as [|[gid g] gs IH]; intros seen acc; simpl.
  - by rewrite app_nil_r.
  - unfold keeps, chanLock_cand.
    destruct (isBlocked g); simpl; [|apply IH].
    destruct (String.eqb (reason g) "chan send"),
             (String.eqb (reason g) "chan receive"); simpl; try apply IH.
    all: destruct (String.eqb (prevSyncLocation g) ""); simpl; try apply IH.
    all: destruct (isRuntimeGoroutine (stack g)); simpl; try apply IH.
    all: destruct (GoTime.mul64 (GoTime.sub64 lastTime (prevSyncEndTime g))
                     GoTime.Nanosecond >? abbaStaleWindow); simpl;
           try apply IH.
    all: destruct (seenAt W (prevSyncLocation g)); simpl; try apply IH.
    all: destruct (seenAt seen (prevSyncLocation g)); simpl; try apply IH.
    all: rewrite IH; by rewrite <- app_assoc.
Qed.

Lemma detectChanLockCycle_views waiters gs :
  detectChanLockCycle waiters gs lastTime =
  map (λ e, chanLockFinding lastTime e.1 e.2)
    (firstPerKey (chanLock_cand lastTime (lockWaiters_loop waiters ∅))
       prevSyncLocation ∅ gs).
Proof. unfold detectChanLockCycle. by rewrite chanLock_loop_views. Qed.

Lemma detectChanLockCycle_kind waiters gs f :
  In f (detectChanLockCycle waiters gs lastTime) →
  Kind_ f = KindDeadlock ∧ Confidence_ f = ConfidenceMedium.
Proof.
  rewrite detectChanLockCycle_views, in_map_iff. by intros (e & <- & _).
Qed.


End ChanLock.


(** ** The loops of [detectDeadlocks] *)

Section Deadlocks.
Import Detector Views.
Variables threshold lastTime : Z.

Lemma groupAt_insert (G : gmap (string * string) (list member)) k l k' :
  groupAt (<[k := l]> G) k' = if decide (k = k') then l else groupAt G k'.
Proof.
  unfold groupAt. destruct (decide (k = k')) as [->|Hne].
  - by rewrite lookup_insert_eq.
  - by rewrite lookup_insert_ne.
Qed.

Lemma deadlockGroups_loop_cons gid g gs G :
  deadlockGroups_loop threshold lastTime ((gid, g) :: gs) G =
  deadlockGroups_loop threshold lastTime gs
    (if deadlock_cand threshold lastTime g
     then <[(reason g, location g) :=
              groupAt G (reason g, location g) ++
              [mkMember gid g
                 (GoTime.mul64 (GoTime.sub64 lastTime (blockStart g))
                    GoTime.Nanosecond)]]> G
     else G).
Proof.
  simpl. unfold deadlock_cand, syncWaiter.
  destruct (isBlocked g); simpl; [|done].
  destruct (isRuntimeGoroutine (stack g)); simpl.
  { by rewrite andb_false_r. }
  destruct (String.eqb (reason g) "sync"); simpl; [|done].
  by destruct (GoTime.mul64 (GoTime.sub64 lastTime (blockStart g))
                 GoTime.Nanosecond <? threshold).
Qed.

(** The group of [k] after the first loop. *)
Lemma deadlockGroups_loop_lookup gs : ∀ G k,
  deadlockGroups_loop threshold lastTime gs G !! k =
  match membersOf threshold lastTime k gs with
  | [] => G !! k
  | ms => Some (groupAt G k ++ ms)
  end.
Proof.
  induction gs as [|[gid g] gs IH]; intros G k; [done|].
  rewrite deadlockGroups_loop_cons, IH. simpl.
  destruct (deadlock_cand threshold lastTime g); simpl; [|done].
  destruct (decide ((reason g, location g) = k)) as [Hk|Hk].
  - rewrite bool_decide_eq_true_2 by done. simpl.
    rewrite groupAt_insert, decide_True by done.
    rewrite Hk, lookup_insert_eq.
    destruct (membersOf threshold lastTime k gs); [done|].
    by rewrite <- app_assoc.
  - rewrite bool_decide_eq_false_2 by done. simpl.
    rewrite groupAt_insert, decide_False by done.
    by rewrite lookup_insert_ne.
Qed.

Lemma membersOf_In k gs m :
  In m (membersOf threshold lastTime k gs) →
  (reason (m_g m), location (m_g m)) = k.
Proof.
  unfold membersOf. rewrite in_flat_map. intros ([gid g] & _ & Hm).
  destruct (deadlock_cand threshold lastTime g); simpl in Hm; [|done].
  destruct (bool_decide ((reason g, location g) = k)) eqn:Hk; [|done].
  apply bool_decide_eq_true in Hk. by destruct Hm as [<-|[]].
Qed.


Lemma pickBest_spec ms : ∀ m0,
  In (pickBest m0 ms) (m0 :: ms) ∧
  ∀ m, In m (m0 :: ms) → m_blocked m <= m_blocked (pickBest m0 ms).
Proof.
  induction ms as [|m1 ms IH]; intros m0; simpl.
  - split; [by left|]. intros m [<-|[]]. lia.
  - destruct (IH (if m_blocked m1 >? m_blocked m0 then m1 else m0))
      as [Hin Hmax].
    split.
    + destruct Hin as [Heq|Hin]; [|by right; right].
      rewrite <- Heq. destruct (m_blocked m1 >? m_blocked m0); auto.
    + intros m [<-|[<-|Hm]].
      * etrans; [|apply Hmax; by left].
        destruct (Z.gtb_spec (m_blocked m1) (m_blocked m0)); lia.
      * etrans; [|apply Hmax; by left].
        destruct (Z.gtb_spec (m_blocked m1) (m_blocked m0)); lia.
      * apply Hmax. by right.
Qed.



Lemma deadlockFindings_loop_spec order acc :
  deadlockFindings_loop order acc = acc ++ flat_map groupFindings order.
Proof.
  revert acc. induction order as [|[k members] order IH]; intros acc; simpl.
  - by rewrite app_nil_r.
  - unfold groupFindings at 1. simpl.
    destruct members as [|m0 ms]; rewrite IH; simpl; [done|].
    by rewrite <- app_assoc.
Qed.

End Deadlocks.

Section DeadlockRuns.
Import Detector Views.
Variable lastTime : Z.
Variable opts : Options.

Local Notation "'thr'" := (effectiveThreshold opts).

Lemma deadlockGroups_lookup gs k :
  deadlockGroups gs lastTime opts !! k =
  match membersOf thr lastTime k gs with
  | [] => None
  | ms => Some ms
  end.
Proof.
  unfold deadlockGroups. rewrite deadlockGroups_loop_lookup.
  destruct (membersOf thr lastTime k gs); [done|].
  unfold groupAt. by rewrite lookup_empty.
Qed.

Lemma deadlockGroups_entry gs k ms :
  In (k, ms) (map_to_list (deadlockGroups gs lastTime opts)) ↔
  ms = membersOf thr lastTime k gs ∧ ms ≠ [].
Proof.
  rewrite <- list_elem_of_In, elem_of_map_to_list, deadlockGroups_lookup.
  destruct (membersOf thr lastTime k gs) as [|m l]; split.
  - done.
  - by intros [-> ?].
  - by intros [= <-].
  - by intros [-> _].
Qed.

Lemma detectDeadlocks_kind gs order f :
  In f (detectDeadlocks gs lastTime opts order) →
  Kind_ f = KindDeadlock ∧ Confidence_ f = ConfidenceMedium.
Proof.
  unfold detectDeadlocks. rewrite deadlockFindings_loop_spec. simpl.
  rewrite in_flat_map. intros ([k ms] & _ & Hf).
  unfold groupFindings in Hf. simpl in Hf.
  destruct ms as [|m0 ms]; [done|]. by destruct Hf as [<-|[]].
Qed.

Local Notation "'groupSummary'" := (Views.groupSummary lastTime opts).

Lemma groupFindings_summary gs entries :
  (∀ e, In e entries → In e (map_to_list (deadlockGroups gs lastTime opts))) →
  map group (flat_map groupFindings entries) =
  map (groupSummary gs) (map fst entries).
Proof.
  induction entries as [|[k ms] entries IH]; intros Hall; [done|].
  simpl. rewrite map_app, IH by (intros e He; apply Hall; by right).
  f_equal.
  destruct (proj1 (deadlockGroups_entry gs k ms) (Hall _ ltac:(by left)))
    as [Hms Hne].
  unfold groupFindings. simpl. destruct ms as [|m0 ms]; [done|]. simpl.
  f_equal. unfold group, groupFinding, groupSummary. simpl.
  destruct (pickBest_spec ms m0) as [Hin _].
  rewrite Hms in Hin. apply membersOf_In in Hin.
  rewrite <- Hms. simpl. by rewrite <- Hin.
Qed.


Lemma deadlockGroups_keys_NoDup gs order :
  Permutation order (map_to_list (deadlockGroups gs lastTime opts)) →
  List.NoDup (map fst order).
Proof.
  intros Hperm.
  apply (Permutation_NoDup (Permutation_sym (Permutation_map fst Hperm))).
  apply NoDup_ListNoDup.
  apply (NoDup_fst_map_to_list (deadlockGroups gs lastTime opts)).
Qed.



End DeadlockRuns.


(** ** The loops of [detectABBA] *)

Section Edges.
Import Detector Views.
Variable lastTime : Z.

Lemma abbaEdges_entries_spec gid g entries edges :
  abbaEdges_entries lastTime gid g entries edges =
  edges ++
  flat_map
    (λ entry,
       if String.eqb (se_location entry) "" ||
          String.eqb (se_location entry) (location g)
       then []
       else if GoTime.mul64 (GoTime.sub64 lastTime (se_endTime entry))
                 GoTime.Nanosecond >? abbaStaleWindow
       then []
       else [mkLockEdge (se_location entry) (location g) gid g])
    entries.
Proof.
  revert edges. induction entries as [|entry entries IH]; intros edges; simpl.
  - by rewrite app_nil_r.
  - destruct (String.eqb (se_location entry) "" ||
              String.eqb (se_location entry) (location g)); [apply IH|].
    destruct (GoTime.mul64 (GoTime.sub64 lastTime (se_endTime entry))
                GoTime.Nanosecond >? abbaStaleWindow); [apply IH|].
    rewrite IH. by rewrite <- app_assoc.
Qed.

Lemma abbaEdges_loop_spec gs edges :
  abbaEdges_loop lastTime gs edges =
  edges ++ flat_map (λ e, edgesOf lastTime e.1 e.2) gs.
Proof.
  revert edges. induction gs as [|[gid g] gs IH]; intros edges; simpl.
  - by rewrite app_nil_r.
  - unfold edgesOf, syncWaiter.
    destruct (isBlocked g); simpl; [|apply IH].
    destruct (String.eqb (reason g) "sync"); simpl; [|apply IH].
    destruct (isRuntimeGoroutine (stack g)); simpl; [apply IH|].
    rewrite IH, abbaEdges_entries_spec. by rewrite <- app_assoc.
Qed.

(** An edge never joins a site to itself. *)
Lemma edgesOf_distinct gid g e :
  In e (edgesOf lastTime gid g) → e_from e ≠ e_to e.
Proof.
  unfold edgesOf. destruct (syncWaiter g); [|done].
  rewrite in_flat_map. intros (entry & _ & He).
  destruct (String.eqb (se_location entry) "") eqn:H0; [done|]. simpl in He.
  destruct (String.eqb (se_location entry) (location g)) eqn:H1; [done|].
  destruct (GoTime.mul64 (GoTime.sub64 lastTime (se_endTime entry))
              GoTime.Nanosecond >? abbaStaleWindow); [done|].
  destruct He as [<-|[]]. simpl. by apply String.eqb_neq.
Qed.

End Edges.

Section Pairs.
Import Detector Views.
Variable lastTime : Z.

Lemma seenPair_insert seen k k' :
  seenPair (<[k := true]> seen) k' = bool_decide (k = k') || seenPair seen k'.
Proof.
  unfold seenPair. destruct (decide (k = k')) as [->|Hne].
  - rewrite lookup_insert_eq, bool_decide_eq_true_2; done.
  - rewrite lookup_insert_ne, bool_decide_eq_false_2; done.
Qed.

Lemma seenPair_empty k : seenPair ∅ k = false.
Proof. unfold seenPair. by rewrite lookup_empty. Qed.

(** The inner loop emits at most one finding, for [e1]. *)
Lemma abbaPairs_inner_spec e1 later : ∀ seen acc,
  abbaPairs_inner lastTime e1 later seen acc =
  if existsb (inverse e1) later && negb (seenPair seen (edgeKey e1))
  then (<[edgeKey e1 := true]> seen, acc ++ [abbaFinding lastTime e1])
  else (seen, acc).
Proof.
  induction later as [|e2 later IH]; intros seen acc; simpl; [done|].
  unfold inverse at 1.
  destruct (String.eqb (e_from e1) (e_to e2)); simpl; [|apply IH].
  destruct (String.eqb (e_to e1) (e_from e2)); simpl; [|apply IH].
  fold (edgeKey e1).
  destruct (seenPair seen (edgeKey e1)) eqn:Hs; simpl.
  - rewrite IH, Hs. simpl. by rewrite andb_false_r.
  - rewrite IH, seenPair_insert, bool_decide_eq_true_2 by done. simpl.
    by rewrite andb_false_r.
Qed.

Lemma abbaPairs_outer_views edges : ∀ seen acc,
  abbaPairs_outer lastTime edges seen acc =
  (abbaKept_seen edges seen,
   acc ++ map (abbaFinding lastTime) (abbaKept edges seen)).
Proof.
  induction edges as [|e1 later IH]; intros seen acc; simpl.
  - by rewrite app_nil_r.
  - rewrite abbaPairs_inner_spec.
    destruct (existsb (inverse e1) later && negb (seenPair seen (edgeKey e1))).
    + rewrite IH. simpl. by rewrite <- app_assoc.
    + apply IH.
Qed.

Lemma detectABBA_views gs :
  detectABBA gs lastTime =
  map (abbaFinding lastTime)
    (abbaKept (flat_map (λ e, edgesOf lastTime e.1 e.2) gs) ∅).
Proof.
  unfold detectABBA. rewrite abbaPairs_outer_views, abbaEdges_loop_spec.
  done.
Qed.

Lemma detectABBA_kind gs f :
  In f (detectABBA gs lastTime) →
  Kind_ f = KindDeadlock ∧ Confidence_ f = ConfidenceMedium.
Proof. rewrite detectABBA_views, in_map_iff. by intros (e & <- & _). Qed.

Lemma earlier_cons {A} (x y a : A) l :
  earlier x y (a :: l) ↔ (a = x ∧ In y l) ∨ earlier x y l.
Proof.
  unfold earlier. split.
  - intros ([|b l1] & l2 & l3 & Heq); simpl in Heq.
    + injection Heq as -> ->. left. split; [done|].
      apply in_or_app. right. by left.
    + injection Heq as -> ->. right. by exists l1, l2, l3.
  - intros [[-> Hin]|(l1 & l2 & l3 & ->)].
    + apply in_split in Hin as (l2 & l3 & ->). by exists [], l2, l3.
    + by exists (a :: l1), l2, l3.
Qed.

Lemma earlier_nil {A} (x y : A) : ¬ earlier x y [].
Proof. intros ([|? ?] & ? & ? & ?); done. Qed.

Lemma abbaKept_In edges : ∀ seen e,
  In e (abbaKept edges seen) →
  seenPair seen (edgeKey e) = false ∧
  ∃ e2, earlier e e2 edges ∧ inverse e e2 = true.
Proof.
  induction edges as [|e1 later IH]; intros seen e; simpl; [done|].
  destruct (existsb (inverse e1) later) eqn:Hex; simpl.
  - destruct (seenPair seen (edgeKey e1)) eqn:Hs; simpl.
    + intros Hin. destruct (IH _ _ Hin) as (Hs' & e2 & He & Hi).
      split; [done|]. exists e2. split; [|done]. apply earlier_cons. by right.
    + intros [<-|Hin].
      * split; [done|]. apply existsb_exists in Hex as (e2 & Hin & Hi).
        exists e2. split; [|done]. apply earlier_cons. by left.
      * destruct (IH _ _ Hin) as (Hs' & e2 & He & Hi).
        rewrite seenPair_insert in Hs'. apply orb_false_iff in Hs' as [_ Hs'].
        split; [done|]. exists e2. split; [|done]. apply earlier_cons.
        by right.
  - intros Hin. destruct (IH _ _ Hin) as (Hs' & e2 & He & Hi).
    split; [done|]. exists e2. split; [|done]. apply earlier_cons. by right.
Qed.

Lemma abbaKept_seen_spec edges : ∀ seen k,
  seenPair (abbaKept_seen edges seen) k = true ↔
  seenPair seen k = true ∨ ∃ e, In e (abbaKept edges seen) ∧ edgeKey e = k.
Proof.
  induction edges as [|e1 later IH]; intros seen k; simpl.
  - split; [by left | by intros [?|(? & [] & _)]].
  - destruct (existsb (inverse e1) later && negb (seenPair seen (edgeKey e1)));
      rewrite IH.
    + rewrite seenPair_insert, orb_true_iff, bool_decide_eq_true. split.
      * intros [[Heq|Hs]|(e & Hin & Hk)].
        -- right. exists e1. split; [by left | done].
        -- by left.
        -- right. exists e. split; [by right | done].
      * intros [Hs|(e & [<-|Hin] & Hk)].
        -- left. by right.
        -- left. by left.
        -- right. by exists e.
    + done.
Qed.


Lemma abbaKept_complete edges : ∀ seen e1 e2,
  earlier e1 e2 edges → inverse e1 e2 = true →
  seenPair (abbaKept_seen edges seen) (edgeKey e1) = true.
Proof.
  induction edges as [|e later IH]; intros seen e1 e2 He Hi.
  { by apply earlier_nil in He. }
  simpl. apply earlier_cons in He as [[-> Hin]|He].
  - assert (existsb (inverse e1) later = true) as ->.
    { apply existsb_exists. by exists e2. }
    simpl. destruct (seenPair seen (edgeKey e1)) eqn:Hs; simpl.
    + apply abbaKept_seen_spec. by left.
    + apply abbaKept_seen_spec. left. rewrite seenPair_insert.
      by rewrite bool_decide_eq_true_2.
  - destruct (existsb (inverse e) later && negb (seenPair seen (edgeKey e)));
      by eapply IH.
Qed.

(** The keys for which a finding is emitted. *)
Lemma abbaKept_keys edges k :
  In k (map edgeKey (abbaKept edges ∅)) ↔
  ∃ e1 e2, earlier e1 e2 edges ∧ inverse e1 e2 = true ∧ edgeKey e1 = k.
Proof.
  rewrite in_map_iff. split.
  - intros (e & Hk & Hin). apply abbaKept_In in Hin as (_ & e2 & He & Hi).
    by exists e, e2.
  - intros (e1 & e2 & He & Hi & <-).
    pose proof (abbaKept_complete edges ∅ e1 e2 He Hi) as Hs.
    apply abbaKept_seen_spec in Hs as [Hs|(e & Hin & Hk)].
    + by rewrite seenPair_empty in Hs.
    + by exists e.
Qed.

Lemma earlier_In {A} (x y : A) l : earlier x y l → In x l ∧ In y l.
Proof.
  intros (l1 & l2 & l3 & ->). split.
  - apply in_or_app. right. by left.
  - apply in_or_app. right. right. apply in_or_app. right. by left.
Qed.

Lemma In_earlier {A} (x y : A) l :
  In x l → In y l → x ≠ y → earlier x y l ∨ earlier y x l.
Proof.
  induction l as [|a l IH]; [done|].
  intros [->|Hx] [->|Hy] Hne; try done.
  - left. apply earlier_cons. by left.
  - right. apply earlier_cons. by left.
  - destruct (IH Hx Hy Hne); [left | right]; apply earlier_cons; by right.
Qed.

Lemma canonicalKey_sym a b : canonicalKey a b = canonicalKey b a.
Proof.
  unfold canonicalKey. rewrite (String.compare_antisym a b).
  destruct (String.compare b a) eqn:Hc; simpl; try done.
  apply String.compare_eq_iff in Hc. by subst.
Qed.

Lemma inverse_sym e1 e2 : inverse e1 e2 = inverse e2 e1.
Proof.
  unfold inverse. rewrite andb_comm.
  by rewrite (String.eqb_sym (e_to e1)), (String.eqb_sym (e_from e1)).
Qed.

Lemma inverse_edgeKey e1 e2 :
  inverse e1 e2 = true → edgeKey e2 = edgeKey e1.
Proof.
  unfold inverse, edgeKey. rewrite andb_true_iff, !String.eqb_eq.
  intros [-> ->]. apply canonicalKey_sym.
Qed.

(** When no edge joins a site to itself, the keys emitted are those of
    the edges that have an inverse edge, wherever the two stand in the
    list. *)
Lemma abbaKept_keys_In edges k :
  (∀ e, In e edges → e_from e ≠ e_to e) →
  In k (map edgeKey (abbaKept edges ∅)) ↔
  ∃ e1 e2, In e1 edges ∧ In e2 edges ∧ inverse e1 e2 = true ∧ edgeKey e1 = k.
Proof.
  intros Hdist. rewrite abbaKept_keys. split.
  - intros (e1 & e2 & He & Hi & Hk). apply earlier_In in He as [H1 H2].
    by exists e1, e2.
  - intros (e1 & e2 & H1 & H2 & Hi & Hk).
    assert (e1 ≠ e2) as Hne.
    { intros ->. apply (Hdist e2 H2).
      unfold inverse in Hi. apply andb_true_iff in Hi as [Hi _].
      by apply String.eqb_eq. }
    destruct (In_earlier e1 e2 edges H1 H2 Hne) as [He|He].
    + by exists e1, e2.
    + exists e2, e1. split; [done|]. rewrite inverse_sym. split; [done|].
      by rewrite (inverse_edgeKey e1 e2).
Qed.


End Pairs.

(** ** The event loop of [Analyze] *)

Section EventLoop.
Import GoStrings GoTime Trace Detector Views.

(** The index into the circular buffer counts the pushes: it is never
    negative and grows by at most one per event. *)
Lemma applyTransition_returns time st from to g k :
  0 <= syncHistoryIdx g <= k → k < int64_max →
  ∃ g', applyTransition time st from to g = Some g' ∧
        0 <= syncHistoryIdx g' <= k + 1.
Proof.
  intros Hidx Hk. unfold applyTransition.
  set (g1 := if GoState_eqb from GoNotExist then _ else g).
  assert (H1 : syncHistoryIdx g1 = syncHistoryIdx g).
  { subst g1. destruct (GoState_eqb from GoNotExist); [|done].
    by destruct (extractStack (Trace.Stack st)) as [[s f] l]. }
  set (g2 := if GoState_eqb to GoNotExist then setDead g1 else g1).
  assert (H2 : syncHistoryIdx g2 = syncHistoryIdx g).
  { subst g2. by destruct (GoState_eqb to GoNotExist). }
  set (g3 := if Executing from && GoState_eqb to GoWaiting then _ else g2).
  assert (H3 : syncHistoryIdx g3 = syncHistoryIdx g).
  { subst g3. destruct (Executing from && GoState_eqb to GoWaiting); [|done].
    by destruct (extractStack (Trace.Stack st)) as [[s f] l]. }
  clearbody g3. clear g1 g2 H1 H2.
  destruct (GoState_eqb from GoWaiting && (Executing to || GoState_eqb to GoRunnable)).
  2:{ exists g3. split; [done|]. lia. }
  destruct (isBlocked g3 && String.eqb (reason g3) "sync").
  2:{ eexists. split; [done|]. simpl. lia. }
  set (g4 := if _ >? _ then _ else g3).
  assert (H4 : syncHistoryIdx g4 = syncHistoryIdx g).
  { subst g4. by destruct (_ >? _). }
  clearbody g4. unfold pushSync.
  assert (Hpos : 0 <= Z.rem (syncHistoryIdx g4) syncHistorySize).
  { apply Z.rem_nonneg; [done|]. lia. }
  destruct (Z.ltb_spec (Z.rem (syncHistoryIdx g4) syncHistorySize) 0); [lia|].
  eexists. split; [done|]. simpl.
  rewrite wrap64_id; [lia|]. unfold in_int64, int64_min. unfold int64_max in *. lia.
Qed.

Lemma step_returns e ev k :
  indexBound e k → 0 <= k < int64_max →
  ∃ e', step e ev = Some e' ∧ indexBound e' (k + 1).
Proof.
  intros Hinv Hk. unfold step.
  assert (Hskip : ∀ ft lt,
            indexBound {| goroutines := goroutines e; firstTime := ft;
                          lastTime := lt; first := false |} (k + 1)).
  { intros ft lt gid g Hg. apply Hinv in Hg. lia. }
  destruct (Payload ev) as [st|]; [|by eexists].
  destruct (Resource_ st) as [gid from to|]; [|by eexists].
  assert (Hg : 0 <= syncHistoryIdx (default zeroState (goroutines e !! gid)) <= k).
  { destruct (goroutines e !! gid) as [g|] eqn:Hl; simpl.
    - by eapply Hinv.
    - lia. }
  destruct (applyTransition_returns (Time ev) st from to _ k Hg) as (g' & -> & Hg');
    [lia|].
  eexists. split; [done|]. intros gid0 g0. simpl.
  destruct (decide (gid0 = gid)) as [->|Hne].
  - rewrite lookup_insert_eq. by intros [= <-].
  - rewrite lookup_insert_ne by done. intros Hl. apply Hinv in Hl. lia.
Qed.

Lemma runEvents_returns events : ∀ e k,
  indexBound e k → 0 <= k → k + Z.of_nat (length events) <= int64_max →
  ∃ e', runEvents e events = Some e'.
Proof.
  induction events as [|ev events IH]; intros e k Hinv Hk Hlen; simpl.
  - by eexists.
  - simpl in Hlen.
    destruct (step_returns e ev k Hinv) as (e1 & -> & Hinv1); [lia|].
    apply (IH e1 (k + 1)); [done | lia | lia].
Qed.

(** The event loop does not panic on a trace of fewer than 2^63 events, so
    [Analyze] returns a result whatever order its loops take. *)
Lemma Analyze_returns path events opts it :
  Z.of_nat (length events) <= int64_max →
  ∃ r, Analyze path events opts it = Some r.
Proof.
  intros Hlen. unfold Analyze.
  destruct (runEvents_returns events initEngine 0) as (e & ->).
  - intros gid g Hg. simpl in Hg. by rewrite lookup_empty in Hg.
  - done.
  - lia.
  - by eexists.
Qed.

(** Waiting to an executing state or to Runnable: the engine of [Analyze]
    clears the five current-block fields. *)
Lemma applyTransition_unblocks time st to g g' :
  Executing to = true ∨ to = GoRunnable →
  applyTransition time st GoWaiting to g = Some g' →
  isBlocked g' = false ∧ reason g' = "" ∧ stack g' = "" ∧
  function g' = "" ∧ location g' = "".
Proof.
  intros Hto. unfold applyTransition.
  assert (Hcond : GoState_eqb GoWaiting GoWaiting &&
                  (Executing to || GoState_eqb to GoRunnable) = true).
  { destruct Hto as [->| ->]; [done|]. by destruct (Executing GoRunnable). }
  rewrite Hcond.
  cbv iota.
  match goal with
  | |- match ?x with _ => _ end = _ → _ => destruct x as [g0|]; [|done]
  end.
  by intros [= <-].
Qed.

End EventLoop.

(** ** Two runs over the same snapshot *)

Section Runs.
Import GoStrings GoTime Trace Detector Views.





Lemma iterationOf_iterates snapshot order lastTime opts :
  Permutation order (map_to_list snapshot) →
  iterates snapshot lastTime opts (Examples.iterationOf order lastTime opts).
Proof. intros H. unfold iterates. simpl. by repeat split. Qed.




End Runs.




(** ** Channel leaks *)

Section Reasons.
Import GoStrings GoTime Trace Detector Views.

Lemma applyTransition_syncOnly time st from to g g' :
  syncOnly g → applyTransition time st from to g = Some g' → syncOnly g'.
Proof.
  intros Hg. unfold applyTransition.
  set (g1 := if GoState_eqb from GoNotExist then _ else g).
  assert (H1 : syncOnly g1).
  { subst g1. destruct (GoState_eqb from GoNotExist); [|done].
    by destruct (extractStack (Trace.Stack st)) as [[s f] l]. }
  set (g2 := if GoState_eqb to GoNotExist then setDead g1 else g1).
  assert (H2 : syncOnly g2).
  { subst g2. by destruct (GoState_eqb to GoNotExist). }
  set (g3 := if Executing from && GoState_eqb to GoWaiting then _ else g2).
  assert (H3 : syncOnly g3).
  { subst g3. destruct (Executing from && GoState_eqb to GoWaiting); [|done].
    by destruct (extractStack (Trace.Stack st)) as [[s f] l]. }
  clearbody g3. clear g1 g2 H1 H2.
  destruct (GoState_eqb from GoWaiting && (Executing to || GoState_eqb to GoRunnable)).
  2:{ by intros [= <-]. }
  destruct (isBlocked g3 && String.eqb (reason g3) "sync") eqn:Hsync.
  2:{ by intros [= <-]. }
  apply andb_true_iff in Hsync as [_ Hsync]. apply String.eqb_eq in Hsync.
  set (g4 := if _ >? _ then _ else g3).
  assert (H4 : syncOnly g4).
  { subst g4. destruct (_ >? _); [|done]. by right. }
  clearbody g4. unfold pushSync.
  destruct (_ <? 0); [done|]. by intros [= <-].
Qed.

Lemma step_syncOnly e ev e' :
  (∀ gid g, goroutines e !! gid = Some g → syncOnly g) →
  step e ev = Some e' →
  ∀ gid g, goroutines e' !! gid = Some g → syncOnly g.
Proof.
  intros Hinv. unfold step.
  destruct (Payload ev) as [st|]; [|by intros [= <-]].
  destruct (Resource_ st) as [gid from to|]; [|by intros [= <-]].
  destruct (applyTransition _ _ _ _ _) as [g'|] eqn:Happ; [|done].
  intros [= <-] gid0 g0. simpl.
  destruct (decide (gid0 = gid)) as [->|Hne].
  - rewrite lookup_insert_eq. intros [= <-].
    eapply applyTransition_syncOnly; [|exact Happ].
    destruct (goroutines e !! gid) as [g|] eqn:Hl; simpl.
    + by eapply Hinv.
    + by left.
  - rewrite lookup_insert_ne by done. apply Hinv.
Qed.

Lemma runEvents_syncOnly events : ∀ e e',
  (∀ gid g, goroutines e !! gid = Some g → syncOnly g) →
  runEvents e events = Some e' →
  ∀ gid g, goroutines e' !! gid = Some g → syncOnly g.
Proof.
  induction events as [|ev events IH]; intros e e' Hinv; simpl.
  - by intros [= <-].
  - destruct (step e ev) as [e1|] eqn:Hstep; [|done].
    apply IH. by eapply step_syncOnly.
Qed.

Lemma detectLeaks_body_chan lastTime opts gid g f :
  detectLeaks_body lastTime opts gid g = Some f →
  reason g = "chan send" ∨ reason g = "chan receive" →
  Kind_ f = KindGoroutineLeak ∧ Confidence_ f = ConfidenceHigh.
Proof.
  intros Hb Hr.
  assert (Hc : String.eqb (reason g) "chan send" ||
               String.eqb (reason g) "chan receive" = true).
  { destruct Hr as [-> | ->]; done. }
  unfold detectLeaks_body in Hb. rewrite Hc in Hb.
  repeat match type of Hb with
         | (if ?c then _ else _) = Some _ => destruct c; try done
         end;
    by injection Hb as <-.
Qed.

Lemma membersOf_sync threshold lastTime k gs m :
  In m (membersOf threshold lastTime k gs) → reason (m_g m) = "sync".
Proof.
  unfold membersOf. rewrite in_flat_map. intros ([gid g] & _ & Hm).
  destruct (deadlock_cand threshold lastTime g) eqn:Hc; simpl in Hm; [|done].
  destruct (bool_decide _); [|done]. destruct Hm as [<-|[]]. simpl.
  unfold deadlock_cand, syncWaiter in Hc.
  apply andb_true_iff in Hc as [Hc _]. apply andb_true_iff in Hc as [Hc _].
  apply andb_true_iff in Hc as [_ Hc]. by apply String.eqb_eq.
Qed.

Lemma detectDeadlocks_blockedOn gs lastTime opts order f :
  Permutation order (map_to_list (deadlockGroups gs lastTime opts)) →
  In f (detectDeadlocks gs lastTime opts order) → BlockedOn f = "sync".
Proof.
  intros Hperm. unfold detectDeadlocks.
  rewrite deadlockFindings_loop_spec. simpl.
  rewrite in_flat_map. intros ([k ms] & Hin & Hf).
  apply (Permutation_in _ Hperm) in Hin.
  apply deadlockGroups_entry in Hin as [Hms _].
  unfold groupFindings in Hf. simpl in Hf.
  destruct ms as [|m0 ms]; [done|]. destruct Hf as [<-|[]]. simpl.
  assert (Hin : In m0 (membersOf (effectiveThreshold opts) lastTime k gs))
    by (rewrite <- Hms; by left).
  pose proof (membersOf_In _ _ _ _ _ Hin) as Hk.
  apply membersOf_sync in Hin. rewrite <- Hk. done.
Qed.

Lemma detectABBA_blockedOn gs lastTime f :
  In f (detectABBA gs lastTime) → BlockedOn f = "sync (AB-BA lock inversion)".
Proof. rewrite detectABBA_views, in_map_iff. by intros (e & <- & _). Qed.

Lemma append_length s1 s2 :
  String.length (String.append s1 s2) = (String.length s1 + String.length s2)%nat.
Proof.
  induction s1 as [|a s1 IH]; [done|].
  change (String.append (String a s1) s2) with (String a (String.append s1 s2)).
  simpl. by rewrite IH.
Qed.

Lemma detectChanLockCycle_blockedOn waiters gs lastTime f :
  In f (detectChanLockCycle waiters gs lastTime) →
  (String.length (BlockedOn f) >= 49)%nat.
Proof.
  rewrite detectChanLockCycle_views, in_map_iff. intros ([gid g] & <- & _).
  simpl. rewrite append_length. simpl. lia.
Qed.

End Reasons.

(** C8. Whatever order the loops of a run of [Analyze] take, every finding
    of its result with reason "chan send" or "chan receive", from whichever
    of the six detectors, is a GoroutineLeak with High confidence and names
    a goroutine whose final state has [is_blocked = true], that very
    reason, and a blocking stack that is not runtime-only. *)
Theorem chan_blocked_finding_final_state
    (path : string) (events : list Trace.Event) (opts : Detector.Options)
    (e : Detector.engine) (it : Detector.iteration)
    (r : Detector.Result) (f : Detector.Finding) :
  Detector.runEvents Detector.initEngine events = Some e →
  Detector.iterates (Detector.goroutines e) (Detector.lastTime e) opts it →
  Detector.Analyze path events opts it = Some r →
  In f (Detector.Findings r) →
  Detector.BlockedOn f = "chan send" ∨ Detector.BlockedOn f = "chan receive" →
  Detector.Kind_ f = Detector.KindGoroutineLeak ∧
  Detector.Confidence_ f = Detector.ConfidenceHigh ∧
  ∃ g, Detector.goroutines e !! Detector.GoroutineID f = Some g ∧
       Detector.isBlocked g = true ∧
       Detector.reason g = Detector.BlockedOn f ∧
       (Detector.reason g = "chan send" ∨ Detector.reason g = "chan receive") ∧
       Detector.isRuntimeGoroutine (Detector.stack g) = false.
Proof.
  intros Hrun Hit Hres Hin Hchan.
  unfold Detector.Analyze in Hres. rewrite Hrun in Hres.
  injection Hres as <-. simpl in Hin. unfold Detector.runDetectors in Hin.
  destruct Hit as (Hl & Hd & Hg & Ht & _).
  repeat (apply in_app_or in Hin as [Hin|Hin]).
  - apply detectLeaks_In in Hin as (gid & g & Hgs & Hb).
    pose proof (detectLeaks_body_Some _ _ _ _ _ Hb) as (Hbl & Hrt & <- & Hr & _).
    rewrite Hr in Hchan.
    destruct (detectLeaks_body_chan _ _ _ _ _ Hb Hchan) as [Hk Hc].
    split; [done|]. split; [done|]. exists g. rewrite Hr.
    split; [|done].
    apply (Permutation_in _ Hl) in Hgs.
    apply elem_of_map_to_list. by apply list_elem_of_In.
  - apply (detectDeadlocks_blockedOn _ _ _ _ _ Hg) in Hin.
    rewrite Hin in Hchan. destruct Hchan as [H|H]; discriminate H.
  - apply detectTransientBlocks_In in Hin as (gid & g & Hk & ->).
    apply firstPerKey_In in Hk as [Hk _].
    apply (Permutation_in _ Ht) in Hk.
    apply list_elem_of_In, elem_of_map_to_list in Hk.
    assert (Hs : Views.syncOnly g).
    { apply (runEvents_syncOnly events Detector.initEngine e) with (gid := gid);
        [|done|done].
      intros gid0 g0 H0. simpl in H0. by rewrite lookup_empty in H0. }
    simpl in Hchan. destruct Hs as [Hs|Hs]; rewrite Hs in Hchan;
      destruct Hchan as [H|H]; discriminate H.
  - apply detectABBA_blockedOn in Hin.
    rewrite Hin in Hchan. destruct Hchan as [H|H]; discriminate H.
  - apply detectChanLockCycle_blockedOn in Hin.
    destruct Hchan as [H|H]; rewrite H in Hin; simpl in Hin; lia.
  - apply detectOrphans_In in Hin as (_ & gid & g & _ & Hb).
    apply detectOrphans_body_Some in Hb as [-> _]. simpl in Hchan.
    destruct Hchan as [H|H]; discriminate H.
Qed.

Lemma chan_blocked_finding_final_state_witness :
  ∃ g, Detector.goroutines (Examples.finalEngine Examples.receiveLeak) !! 18 = Some g ∧
       Detector.isBlocked g = true ∧
       Detector.reason g = "chan receive" ∧
       (Detector.reason g = "chan send" ∨ Detector.reason g = "chan receive") ∧
       Detector.isRuntimeGoroutine (Detector.stack g) = false.
Proof.
  apply (chan_blocked_finding_final_state "trace.out" Examples.receiveLeak
           Examples.opts1s (Examples.finalEngine Examples.receiveLeak)
           (Examples.forward Examples.receiveLeak)
           (default Examples.emptyResult
              (Detector.Analyze "trace.out" Examples.receiveLeak Examples.opts1s
                 (Examples.forward Examples.receiveLeak)))
           (Detector.mkFinding Detector.KindGoroutineLeak Detector.ConfidenceHigh
              18 "chan receive" 299999980 (Trace.renderStack Examples.workerFrames)
              "main.worker" "/src/app/main.go:12")).
  - vm_compute. reflexivity.
  - apply iterationOf_iterates. reflexivity.
  - vm_compute. reflexivity.
  - vm_compute. left. reflexivity.
  - right. reflexivity.
Defined.

(** ** The state engine of [analyzeTrace] *)

Section Engine.
Import Trace Prototype.

(** A transition from Waiting to Runnable changes no field of the
    goroutine's record. *)
Lemma applyTransition_waiting_runnable t st g :
  applyTransition t st GoWaiting GoRunnable g = g.
Proof. reflexivity. Qed.

Lemma step_waiting_runnable e t gid r frames g :
  goroutines e !! gid = Some g →
  goroutines (step e (Examples.transition t gid GoWaiting GoRunnable r frames))
    !! gid = Some g.
Proof.
  intros Hg. unfold step. simpl. rewrite Hg. simpl.
  by rewrite lookup_insert_eq.
Qed.

(** A transition from Waiting to an executing state clears the
    current-block fields. *)
Lemma applyTransition_waiting_executing t st to g :
  Executing to = true →
  let g' := applyTransition t st GoWaiting to g in
  isBlocked g' = false ∧ reason g' = "" ∧ stack g' = "".
Proof. intros Hto. unfold applyTransition. simpl. by rewrite Hto. Qed.

End Engine.

(** C3, evaluated on the engine of [analyzeTrace]: goroutine 7 blocks on a
    channel receive and is then woken by a transition from Waiting to
    Runnable.  The engine leaves [is_blocked] set and keeps reason and
    stack; the goroutine goes on to run and exit, and is still reported as
    a goroutine leak at the end of the trace.  On the same events the
    engine of [Analyze] clears [is_blocked] and [Analyze] reports
    nothing. *)
Theorem analyzeTrace_waiting_to_runnable_keeps_blocked :
  Prototype.goroutines (Prototype.runEvents Examples.blockThenWake) !! 7 =
    Some Examples.blockedWorker ∧
  Prototype.isBlocked Examples.blockedWorker = true ∧
  map_to_list (Prototype.goroutines (Prototype.runEvents Examples.blockWakeRunExit)) =
    [(7, Examples.blockedWorker)] ∧
  Prototype.analyzeTrace Examples.blockWakeRunExit [(7, Examples.blockedWorker)] =
    [ {| Prototype.Kind_ := "goroutine_leak"; Prototype.GoroutineID := 7;
         Prototype.Reason_ := "chan receive";
         Prototype.Stack_ := Trace.renderStack Examples.workerFrames;
         Prototype.BlockedFor := 30 |} ] ∧
  option_map (λ e, Detector.isBlocked <$> Detector.goroutines e !! 7)
    (Detector.runEvents Detector.initEngine Examples.blockThenWake) =
    Some (Some false) ∧
  option_map Detector.Findings
    (Detector.Analyze "trace.out" Examples.blockWakeRunExit Examples.opts1s
       (Examples.forward Examples.blockWakeRunExit)) = Some [].
Proof. repeat split; vm_compute; reflexivity. Qed.

(** ** The static findings in the JSON report *)

Section Report.
Import Reporter.

Lemma appendStatic_spec findings statics :
  Cmd.appendStatic findings statics = findings ++ map Cmd.staticToFinding statics.
Proof.
  revert findings. induction statics as [|sf statics IH]; intros findings; simpl.
  - by rewrite app_nil_r.
  - rewrite IH. by rewrite <- app_assoc.
Qed.

Lemma buildFindings_reset explanation fs acc :
  map (λ jf, setExplanation jf "") (buildFindings explanation fs acc) =
  map (λ jf, setExplanation jf "") acc ++ map toJsonFinding fs.
Proof.
  revert acc. induction fs as [|f fs IH]; intros acc; simpl.
  - by rewrite app_nil_r.
  - rewrite IH, map_app, <- app_assoc. simpl. do 2 f_equal.
    by destruct (negb (String.eqb explanation "") && (length acc =? 0)%nat).
Qed.

Lemma reportFindings_WriteJSON result explanation :
  reportFindings (WriteJSON result explanation) =
  map (λ f, encodeFinding (toJsonFinding f)) (Detector.Findings result).
Proof.
  unfold WriteJSON, reportFindings. simpl.
  rewrite buildFindings_reset. simpl. by rewrite map_map.
Qed.

End Report.

(** C9, as stated, fails: the JSON object of a static finding has a
    [goroutine_id] member (the struct tag has no [omitempty]); its value
    is 0. *)
Lemma static_finding_json_carries_goroutine_id :
  ¬ (∀ j, In j (Reporter.reportFindings
                  (Reporter.WriteJSON
                     (Cmd.withStatic Examples.emptyResult [Examples.lockLeak]) "")) →
          Reporter.field "kind" j = Some (Reporter.JString "lock_leak") ∧
          Reporter.field "confidence" j = Some (Reporter.JString "low") ∧
          Reporter.field "goroutine_id" j = None).
Proof.
  intros H.
  specialize (H (Reporter.encodeFinding
                   (Reporter.toJsonFinding (Cmd.staticToFinding Examples.lockLeak)))).
  destruct H as (_ & _ & H); [vm_compute; left; reflexivity|].
  vm_compute in H. discriminate H.
Qed.

(** C9 (amended). The findings [runRun] adds for the static analyzer come
    last in the report, one per static finding; each has kind [lock_leak]
    and confidence [low], and its JSON object carries the member
    [goroutine_id] with the value 0. *)
Theorem static_findings_in_json_report
    (result : Detector.Result) (staticFindings : list Static.Finding)
    (explanation : string) :
  Reporter.reportFindings
    (Reporter.WriteJSON (Cmd.withStatic result staticFindings) explanation) =
  map (λ f, Reporter.encodeFinding (Reporter.toJsonFinding f))
      (Detector.Findings result) ++
  map (λ sf, Reporter.encodeFinding
               (Reporter.toJsonFinding (Cmd.staticToFinding sf)))
      staticFindings ∧
  ∀ sf,
    let f := Cmd.staticToFinding sf in
    let j := Reporter.encodeFinding (Reporter.toJsonFinding f) in
    Detector.Kind_ f = Detector.KindLockLeak ∧
    Detector.Confidence_ f = Detector.ConfidenceLow ∧
    Detector.GoroutineID f = 0 ∧
    Reporter.field "kind" j = Some (Reporter.JString "lock_leak") ∧
    Reporter.field "confidence" j = Some (Reporter.JString "low") ∧
    Reporter.field "goroutine_id" j = Some (Reporter.JNumber 0).
Proof.
  split.
  - rewrite reportFindings_WriteJSON. simpl.
    by rewrite appendStatic_spec, map_app, map_map.
  - intros sf. repeat split; reflexivity.
Qed.

(** ** The lock-release analyzer *)

Section Phase1.
Import Static.




End Phase1.

Section Phase1Blocks.
Import Static.





End Phase1Blocks.

Section Search.
Import Static.
Variable fn : Function.
Variable u : gmap nat (list nat).
Hypothesis u_spec : ∀ j k, In k (unlocksAt u j) ↔
  ∃ instr, Instrs (blockAt fn j) !! k = Some instr ∧ isUnlockInstr instr = true.








End Search.

Section Termination.
Import Static.






End Termination.

Section Analyzer.
Import Static.




End Analyzer.

(** The paths the claim asks for are those the search covers and, in
    addition, the lock sites whose own block is a function exit. *)
Lemma unreleasedPath_cases fn ls :
  Static.unreleasedPath fn ls ↔
  Static.unreleasedPathViaSucc fn ls ∨
  (Static.noUnlockAfter fn (Static.block ls) (Static.idx ls) ∧
   Static.Succs (Static.blockAt fn (Static.block ls)) = []).
Proof. unfold Static.unreleasedPath, Static.unreleasedPathViaSucc. tauto. Qed.

(** C7, evaluated on [func f(mu *sync.Mutex) { mu.Lock() }]: the function
    has no deferred unlock, its only block holds the lock call and is a
    function exit, so the path from the lock to the exit passes through no
    unlock; [analyzeFn] reports nothing, because the search starts from the
    successors of the lock's block and that block has none. *)
Theorem analyzeFn_misses_lock_in_exit_block :
  Static.analyzeFn Examples.lockOnly = Some [] ∧
  ¬ Static.containsDeferUnlock Examples.lockOnly ∧
  Static.isLockSite Examples.lockOnly Examples.lockOnlySite ∧
  Static.unreleasedPath Examples.lockOnly Examples.lockOnlySite.
Proof.
  split; [vm_compute; reflexivity|]. split; [|split].
  - intros (b & instr & Hb & Hi & Hd). simpl in Hb.
    destruct Hb as [<-|[]]. simpl in Hi.
    destruct Hi as [<-|[<-|[]]]; discriminate Hd.
  - exists (Static.mkCall false (Static.VFunction "(*sync.Mutex).Lock")).
    split; [reflexivity|]. split; [reflexivity | simpl; lia].
  - split; [|by left].
    intros k' instr Hk Hl. simpl in Hl.
    destruct k' as [|[|k']]; [lia | by injection Hl as <- | done].
Qed.

(** ** Lists *)

Section Lookups.

Lemma lookup_In {A} (l : list A) (i : nat) (x : A) : l !! i = Some x → In x l.
Proof.
  intros H. apply list_elem_of_In. by eapply list_elem_of_lookup_2.
Qed.

End Lookups.

(** ** Invariants of the event loop of [Analyze] *)

Section EngineInvariants.
Import GoStrings GoTime Trace Detector Views Trail.

(** Every record the event loop stores is obtained from the zero record
    by the assignments of the four [if] statements. *)
Lemma applyTransition_preserves (P : goroutineState → Prop) time st from to g g' :
  P g →
  (∀ g s f l, extractStack (Trace.Stack st) = (s, f, l) → P g →
        P (setCreation g s f l)) →
  (∀ g, P g → P (setDead g)) →
  (∀ g s f l, extractStack (Trace.Stack st) = (s, f, l) → P g →
        P (setBlock g true (Reason st) time s f l)) →
  (∀ g, P g → isBlocked g = true → reason g = "sync" →
        mul64 (sub64 time (blockStart g)) Nanosecond > prevLongBlockDuration g →
        P (setPrevLongBlock g (mul64 (sub64 time (blockStart g)) Nanosecond))) →
  (∀ g g1, P g → isBlocked g = true → reason g = "sync" →
           pushSync g time = Some g1 → P g1) →
  (∀ g, P g → P (setBlock g false "" (blockStart g) "" "" "")) →
  applyTransition time st from to g = Some g' → P g'.
Proof.
  intros Hg Hcre Hdead Hblock Hprev Hpush Hclear. unfold applyTransition.
  set (g1 := if GoState_eqb from GoNotExist then _ else g).
  assert (H1 : P g1).
  { subst g1. destruct (GoState_eqb from GoNotExist); [|done].
    destruct (extractStack (Trace.Stack st)) as [[s f] l] eqn:He.
    by eapply Hcre. }
  set (g2 := if GoState_eqb to GoNotExist then setDead g1 else g1).
  assert (H2 : P g2).
  { subst g2. destruct (GoState_eqb to GoNotExist); [by apply Hdead | done]. }
  set (g3 := if Executing from && GoState_eqb to GoWaiting then _ else g2).
  assert (H3 : P g3).
  { subst g3. destruct (Executing from && GoState_eqb to GoWaiting); [|done].
    destruct (extractStack (Trace.Stack st)) as [[s f] l] eqn:He.
    by eapply Hblock. }
  clearbody g3. clear g1 g2 H1 H2.
  destruct (GoState_eqb from GoWaiting && (Executing to || GoState_eqb to GoRunnable)).
  2:{ by intros [= <-]. }
  destruct (isBlocked g3 && String.eqb (reason g3) "sync") eqn:Hsync.
  2:{ intros [= <-]. by apply Hclear. }
  apply andb_true_iff in Hsync as [Hb Hsync]. apply String.eqb_eq in Hsync.
  set (g4 := if _ >? _ then _ else g3).
  assert (H4 : P g4 ∧ isBlocked g4 = true ∧ reason g4 = "sync").
  { subst g4. destruct (Z.gtb_spec (mul64 (sub64 time (blockStart g3)) Nanosecond)
                          (prevLongBlockDuration g3)) as [Hgt|Hle].
    - split; [|done]. apply Hprev; try done. lia.
    - done. }
  clearbody g4. destruct H4 as (H4 & Hb4 & Hr4).
  destruct (pushSync g4 time) as [g5|] eqn:Hp; [|done].
  intros [= <-]. apply Hclear. by eapply Hpush.
Qed.

Lemma step_preserves (P : Z → goroutineState → Prop) e ev e' :
  (∀ t t' g, P t g → t <= t' → P t' g) →
  (∀ st from to g g', P (lastTime e) g → lastTime e <= Time ev →
     applyTransition (Time ev) st from to g = Some g' → P (Time ev) g') →
  P (lastTime e) zeroState →
  lastTime e <= Time ev →
  (∀ gid g, goroutines e !! gid = Some g → P (lastTime e) g) →
  step e ev = Some e' →
  lastTime e' = Time ev ∧
  ∀ gid g, goroutines e' !! gid = Some g → P (lastTime e') g.
Proof.
  intros Hmono Happ Hzero Hle Hinv. unfold step.
  assert (Hskip : ∀ gid g, goroutines e !! gid = Some g → P (Time ev) g).
  { intros gid g Hg. eapply Hmono; [by eapply Hinv | done]. }
  destruct (Payload ev) as [st|]; [|by intros [= <-]].
  destruct (Resource_ st) as [gid from to|]; [|by intros [= <-]].
  destruct (applyTransition _ _ _ _ _) as [g'|] eqn:Ha; [|done].
  intros [= <-]. simpl. split; [done|]. intros gid0 g0.
  destruct (decide (gid0 = gid)) as [->|Hne].
  - rewrite lookup_insert_eq. intros [= <-].
    eapply Happ; [|done|exact Ha].
    destruct (goroutines e !! gid) as [g|] eqn:Hl; simpl; [by eapply Hinv | done].
  - rewrite lookup_insert_ne by done. apply Hskip.
Qed.

(** An invariant that may mention the time of the last event read, on a
    trace whose time stamps do not decrease. *)
Lemma runEvents_preserves_timed (P : Z → goroutineState → Prop) events : ∀ e e',
  (∀ t t' g, P t g → t <= t' → P t' g) →
  (∀ t t' st from to g g', P t g → t <= t' →
     applyTransition t' st from to g = Some g' → P t' g') →
  (∀ t, lastTime e <= t → P t zeroState) →
  chronologicalFrom (lastTime e) events →
  (∀ gid g, goroutines e !! gid = Some g → P (lastTime e) g) →
  runEvents e events = Some e' →
  lastTime e <= lastTime e' ∧
  ∀ gid g, goroutines e' !! gid = Some g → P (lastTime e') g.
Proof.
  induction events as [|ev events IH]; intros e e' Hmono Happ Hzero Hchr Hinv; simpl.
  - intros [= <-]. split; [lia | done].
  - destruct Hchr as [[Hle _] Hchr].
    destruct (step e ev) as [e1|] eqn:Hstep; [|done].
    destruct (step_preserves P e ev e1 Hmono) as [Ht H1]; try done.
    + intros st from to g g'. apply Happ.
    + apply Hzero. lia.
    + intros Hrun. rewrite <- Ht in Hchr.
      destruct (IH e1 e' Hmono Happ) as [Hle' H']; try done.
      * intros t Ht'. apply Hzero. lia.
      * split; [lia | done].
Qed.

(** An invariant of the records alone, on a trace whose goroutine
    transitions all satisfy [Q]. *)
Lemma runEvents_preserves_on (Q : StateTransition → Prop)
    (P : goroutineState → Prop) events : ∀ e e',
  Forall (λ ev, match Payload ev with
                | EventStateTransition st => Q st
                | EventOther => True
                end) events →
  (∀ t st from to g g', Q st → P g →
     applyTransition t st from to g = Some g' → P g') →
  P zeroState →
  (∀ gid g, goroutines e !! gid = Some g → P g) →
  runEvents e events = Some e' →
  ∀ gid g, goroutines e' !! gid = Some g → P g.
Proof.
  induction events as [|ev events IH]; intros e e' HQ Happ Hzero Hinv; simpl.
  - by intros [= <-].
  - apply List.Forall_cons_iff in HQ as [Hev HQ].
    destruct (step e ev) as [e1|] eqn:Hstep; [|done].
    apply IH; try done.
    unfold step in Hstep.
    destruct (Payload ev) as [st|]; [|by injection Hstep as <-].
    destruct (Resource_ st) as [gid from to|]; [|by injection Hstep as <-].
    destruct (applyTransition _ _ _ _ _) as [g'|] eqn:Ha; [|done].
    injection Hstep as <-. simpl. intros gid0 g0.
    destruct (decide (gid0 = gid)) as [->|Hne].
    + rewrite lookup_insert_eq. intros [= <-]. eapply Happ; [exact Hev| |exact Ha].
      destruct (goroutines e !! gid) as [g|] eqn:Hl; simpl; [by eapply Hinv | done].
    + rewrite lookup_insert_ne by done. apply Hinv.
Qed.

(** An invariant of the records alone, on any trace. *)
Lemma runEvents_preserves (P : goroutineState → Prop) events e e' :
  (∀ t st from to g g', P g → applyTransition t st from to g = Some g' → P g') →
  P zeroState →
  (∀ gid g, goroutines e !! gid = Some g → P g) →
  runEvents e events = Some e' →
  ∀ gid g, goroutines e' !! gid = Some g → P g.
Proof.
  intros Happ. apply (runEvents_preserves_on (λ _, True) P).
  - apply List.Forall_forall. intros ev _. by destruct (Payload ev).
  - intros t st from to g g' _. apply Happ.
Qed.

Lemma initEngine_empty (P : goroutineState → Prop) gid g :
  goroutines initEngine !! gid = Some g → P g.
Proof. simpl. by rewrite lookup_empty. Qed.

(** *** The header of the result *)

Lemma step_dom e ev e' :
  step e ev = Some e' →
  dom (goroutines e') = dom (goroutines e) ∪ list_to_set (goroutineOf ev).
Proof.
  unfold step, goroutineOf.
  destruct (Payload ev) as [st|]; [|intros [= <-]; simpl; set_solver].
  destruct (Resource_ st) as [gid from to|]; [|intros [= <-]; simpl; set_solver].
  destruct (applyTransition _ _ _ _ _) as [g'|]; [|done].
  intros [= <-]. simpl. rewrite dom_insert_L. set_solver.
Qed.

Lemma runEvents_dom events : ∀ e e',
  runEvents e events = Some e' →
  dom (goroutines e') = dom (goroutines e) ∪ list_to_set (goroutineIDs events).
Proof.
  induction events as [|ev events IH]; intros e e'; simpl.
  - intros [= <-]. set_solver.
  - destruct (step e ev) as [e1|] eqn:Hstep; [|done].
    intros Hrun. rewrite (IH _ _ Hrun), (step_dom _ _ _ Hstep).
    unfold goroutineIDs. simpl. rewrite list_to_set_app_L. set_solver.
Qed.

Lemma step_times e ev e' :
  step e ev = Some e' →
  lastTime e' = Time ev ∧ first e' = false ∧
  firstTime e' = (if first e then Time ev else firstTime e).
Proof.
  unfold step.
  destruct (Payload ev) as [st|]; [|by intros [= <-]].
  destruct (Resource_ st) as [gid from to|]; [|by intros [= <-]].
  destruct (applyTransition _ _ _ _ _) as [g'|]; [|done].
  by intros [= <-].
Qed.

Lemma runEvents_times events : ∀ e e',
  runEvents e events = Some e' →
  lastTime e' = (match rev events with [] => lastTime e | ev :: _ => Time ev end) ∧
  firstTime e' = (match events with
                  | [] => firstTime e
                  | ev :: _ => if first e then Time ev else firstTime e
                  end).
Proof.
  induction events as [|ev events IH]; intros e e'; simpl.
  - by intros [= <-].
  - destruct (step e ev) as [e1|] eqn:Hstep; [|done].
    intros Hrun. destruct (step_times _ _ _ Hstep) as (Hl & Hf & Hft).
    destruct (IH _ _ Hrun) as [IHl IHf]. split.
    + rewrite IHl. destruct (rev events) as [|ev' r] eqn:Hrev; simpl; [done|done].
    + rewrite IHf. destruct events as [|ev' events]; [done|]. by rewrite Hf.
Qed.

End EngineInvariants.

(** X1. [Analyze] returns on every trace of fewer than 2^63 events; its
    result names the trace file, counts the distinct goroutines that occur
    in goroutine state transitions, and gives as duration the time between
    the first and the last event, in whole milliseconds. *)
Theorem Analyze_result_header
    (path : string) (events : list Trace.Event) (opts : Detector.Options)
    (it : Detector.iteration) :
  Z.of_nat (length events) <= GoTime.int64_max →
  ∃ r, Detector.Analyze path events opts it = Some r ∧
       Detector.TraceFile r = path ∧
       Detector.GoroutinesAnalyzed r =
         Z.of_nat (size (list_to_set (Trail.goroutineIDs events) : gset Z)) ∧
       Detector.DurationMs r =
         GoTime.Milliseconds
           (GoTime.mul64
              (GoTime.sub64 (Trail.lastTimeOf events) (Trail.firstTimeOf events))
              GoTime.Nanosecond).
Proof.
  intros Hlen. unfold Detector.Analyze.
  destruct (runEvents_returns events Detector.initEngine 0) as (e & Hrun).
  - intros gid g Hg. simpl in Hg. by rewrite lookup_empty in Hg.
  - done.
  - lia.
  - rewrite Hrun. eexists. split; [reflexivity|]. simpl.
    split; [done|]. split.
    + rewrite <- size_dom, (runEvents_dom _ _ _ Hrun). simpl.
      rewrite dom_empty_L. f_equal. f_equal. set_solver.
    + destruct (runEvents_times _ _ _ Hrun) as [-> ->].
      unfold Trail.lastTimeOf, Trail.firstTimeOf. simpl.
      by destruct events.
Qed.

Lemma Analyze_result_header_witness :
  ∃ r, Detector.Analyze "trace.out" Examples.twoTimedOut Examples.opts1s
         (Examples.forward Examples.twoTimedOut) = Some r ∧
       Detector.TraceFile r = "trace.out" ∧
       Detector.GoroutinesAnalyzed r = 2 ∧
       Detector.DurationMs r = 2000.
Proof.
  destruct (Analyze_result_header "trace.out" Examples.twoTimedOut Examples.opts1s
              (Examples.forward Examples.twoTimedOut))
    as (r & Hr & Hf & Hn & Hd).
  - vm_compute. discriminate.
  - exists r. split; [exact Hr|]. split; [exact Hf|]. split.
    + rewrite Hn. vm_compute. reflexivity.
    + rewrite Hd. vm_compute. reflexivity.
Defined.


Section Cleared.
Import GoStrings GoTime Trace Detector Views Trail.

Lemma runEvents_cleared events e gid g :
  runEvents initEngine events = Some e → goroutines e !! gid = Some g →
  cleared g.
Proof.
  intros Hrun.
  apply (runEvents_preserves cleared events initEngine e); try done.
  intros t st from to g0 g' Hg0.
  apply (applyTransition_preserves cleared); try done.
  - intros g1 s f l _ [H1 H2]. split; [exact H1 | done].
  - intros g1 s f l _ [H1 H2]. split; [done | exact H2].
  - intros g1 g2 Hg1 _ _. unfold pushSync.
    destruct (_ <? 0); [done|]. by intros [= <-].
  - intros g1 [H1 H2]. split; [done | exact H2].
Qed.

End Cleared.

(** X2. In the state the event loop ends with, a goroutine that is not
    blocked has empty current-block fields, and a goroutine whose creation
    was not seen has empty creation fields. *)
Theorem Analyze_unblocked_goroutine_is_cleared
    (events : list Trace.Event) (e : Detector.engine)
    (gid : Z) (g : Detector.goroutineState) :
  Detector.runEvents Detector.initEngine events = Some e →
  Detector.goroutines e !! gid = Some g →
  (Detector.isBlocked g = false →
     Detector.reason g = "" ∧ Detector.stack g = "" ∧
     Detector.function g = "" ∧ Detector.location g = "") ∧
  (Detector.creationSeen g = false →
     Detector.creationStack g = "" ∧ Detector.creationFunction g = "" ∧
     Detector.creationLocation g = "").
Proof.
  intros Hrun Hg. exact (runEvents_cleared events e gid g Hrun Hg).
Qed.

Lemma Analyze_unblocked_goroutine_is_cleared_witness :
  ∃ g, Detector.goroutines (Examples.finalEngine Examples.twoTimedOut) !! 1 = Some g ∧
       Detector.reason g = "" ∧ Detector.stack g = "" ∧
       Detector.function g = "" ∧ Detector.location g = "".
Proof.
  destruct (Detector.goroutines (Examples.finalEngine Examples.twoTimedOut) !! 1)
    as [g|] eqn:Hg; [|vm_compute in Hg; discriminate Hg].
  exists g. split; [reflexivity|].
  apply (Analyze_unblocked_goroutine_is_cleared Examples.twoTimedOut
           (Examples.finalEngine Examples.twoTimedOut) 1 g).
  - vm_compute. reflexivity.
  - exact Hg.
  - vm_compute in Hg. injection Hg as <-. reflexivity.
Defined.

(** ** [extractStack] *)

Section ExtractStack.
Import GoStrings GoTime Trace Detector Views Trail.

Lemma sourceLine_nonempty f : sourceLine f ≠ "".
Proof.
  unfold sourceLine. destruct (File f) as [|c s]; [|done].
  change (String.append "" ?x) with x. done.
Qed.

Lemma extractStack_fold frames : ∀ sb fn loc,
  fold_left
    (λ '(sb, function, location) f,
       let sb := String.append sb (renderFrame f) in
       if String.eqb location "" && negb (isRuntimeFrame (Func f) (File f))
       then (sb, Func f, sourceLine f)
       else (sb, function, location))
    frames (sb, fn, loc) =
  (fold_left (λ sb f, String.append sb (renderFrame f)) frames sb,
   if String.eqb loc "" then
     match firstUserFrame frames with Some f => Func f | None => fn end
   else fn,
   if String.eqb loc "" then
     match firstUserFrame frames with Some f => sourceLine f | None => loc end
   else loc).
Proof.
  induction frames as [|f frames IH]; intros sb fn loc; simpl.
  - by destruct (String.eqb loc "").
  - unfold firstUserFrame. simpl.
    destruct (String.eqb_spec loc "") as [->|Hne]; simpl.
    + destruct (negb (isRuntimeFrame (Func f) (File f))); rewrite IH.
      * destruct (String.eqb_spec (sourceLine f) "") as [He|_]; [|done].
        by apply sourceLine_nonempty in He.
      * done.
    + rewrite IH. destruct (String.eqb_spec loc ""); done.
Qed.

Lemma extractStack_eq frames :
  extractStack frames =
    (renderStack frames,
     match firstUserFrame frames with Some f => Func f | None => "" end,
     match firstUserFrame frames with Some f => sourceLine f | None => "" end).
Proof. unfold extractStack. apply (extractStack_fold frames "" "" ""). Qed.

End ExtractStack.

(** X3. [extractStack] returns the rendering of the whole stack together
    with the function and the [file:line] of the first frame, from the
    top, that is not a runtime frame; both are empty when every frame is a
    runtime frame, and the location is empty in that case only. *)
Theorem extractStack_first_user_frame (frames : list Trace.StackFrame) :
  Detector.extractStack frames =
    (Trace.renderStack frames,
     match Trail.firstUserFrame frames with
     | Some f => Trace.Func f
     | None => ""
     end,
     match Trail.firstUserFrame frames with
     | Some f => Trail.sourceLine f
     | None => ""
     end) ∧
  ((Detector.extractStack frames).2 = "" ↔
   forallb (λ f, Detector.isRuntimeFrame (Trace.Func f) (Trace.File f)) frames = true).
Proof.
  assert (Heq : Detector.extractStack frames =
    (Trace.renderStack frames,
     match Trail.firstUserFrame frames with
     | Some f => Trace.Func f
     | None => ""
     end,
     match Trail.firstUserFrame frames with
     | Some f => Trail.sourceLine f
     | None => ""
     end)).
  { unfold Detector.extractStack. apply (extractStack_fold frames "" "" ""). }
  split; [exact Heq|]. rewrite Heq. simpl.
  unfold Trail.firstUserFrame.
  induction frames as [|f frames IH]; simpl; [done|].
  destruct (Detector.isRuntimeFrame (Trace.Func f) (Trace.File f)); simpl.
  - apply IH. unfold Detector.extractStack.
    apply (extractStack_fold frames "" "" "").
  - split; [|done]. intros He. by apply sourceLine_nonempty in He.
Qed.

(** ** What the findings of the deadlock detectors stand for *)

Section DeadlockFacts.
Import GoStrings GoTime Trace Detector Views Trail.
Variable lastTime : Z.
Variable opts : Options.

Local Notation "'thr'" := (effectiveThreshold opts).

Lemma syncWaiter_true g :
  syncWaiter g = true ↔
  isBlocked g = true ∧ reason g = "sync" ∧ isRuntimeGoroutine (stack g) = false.
Proof.
  unfold syncWaiter.
  rewrite !andb_true_iff, negb_true_iff, String.eqb_eq. tauto.
Qed.

Lemma deadlock_cand_true t g :
  deadlock_cand t lastTime g = true ↔
  isBlocked g = true ∧ reason g = "sync" ∧
  isRuntimeGoroutine (stack g) = false ∧ t <= blockedFor lastTime g.
Proof.
  unfold deadlock_cand, blockedFor.
  rewrite andb_true_iff, syncWaiter_true, negb_true_iff, Z.ltb_ge. tauto.
Qed.

Lemma membersOf_full t k gs m :
  In m (membersOf t lastTime k gs) →
  In (m_gid m, m_g m) gs ∧ deadlock_cand t lastTime (m_g m) = true ∧
  (reason (m_g m), location (m_g m)) = k ∧
  m_blocked m = blockedFor lastTime (m_g m).
Proof.
  unfold membersOf. rewrite in_flat_map. intros ([gid g] & Hin & Hm).
  destruct (deadlock_cand t lastTime g) eqn:Hc; simpl in Hm; [|done].
  destruct (bool_decide ((reason g, location g) = k)) eqn:Hk; [|done].
  apply bool_decide_eq_true in Hk. by destruct Hm as [<-|[]].
Qed.

Lemma membersOf_intro t gs gid g :
  In (gid, g) gs → deadlock_cand t lastTime g = true →
  In (mkMember gid g (blockedFor lastTime g))
     (membersOf t lastTime (reason g, location g) gs).
Proof.
  intros Hin Hc. unfold membersOf. rewrite in_flat_map.
  exists (gid, g). split; [done|]. rewrite Hc. simpl.
  rewrite bool_decide_eq_true_2 by done. by left.
Qed.

Lemma detectDeadlocks_In gs order f :
  Permutation order (map_to_list (deadlockGroups gs lastTime opts)) →
  In f (detectDeadlocks gs lastTime opts order) ↔
  ∃ k m0 ms, membersOf thr lastTime k gs = m0 :: ms ∧ f = groupFinding k m0 ms.
Proof.
  intros Hperm. unfold detectDeadlocks.
  rewrite deadlockFindings_loop_spec. simpl. rewrite in_flat_map. split.
  - intros ([k ms] & Hin & Hf). apply (Permutation_in _ Hperm) in Hin.
    apply deadlockGroups_entry in Hin as [Hms _].
    unfold groupFindings in Hf. simpl in Hf.
    destruct ms as [|m0 ms]; [done|]. destruct Hf as [<-|[]].
    by exists k, m0, ms.
  - intros (k & m0 & ms & Hms & ->). exists (k, m0 :: ms). split.
    + apply (Permutation_in _ (Permutation_sym Hperm)).
      apply deadlockGroups_entry. by rewrite Hms.
    + by left.
Qed.

(** The finding of a group: its representative is a member of the group
    that no member has been blocked for longer than. *)
Lemma groupFinding_representative k m0 ms gs :
  membersOf thr lastTime k gs = m0 :: ms →
  let f := groupFinding k m0 ms in
  ∃ g, In (GoroutineID f, g) gs ∧
       deadlock_cand thr lastTime g = true ∧
       k = ("sync", location g) ∧
       Stack f = stack g ∧ Function f = function g ∧ Location f = location g ∧
       BlockedFor f = blockedFor lastTime g ∧
       ∀ gid' g', In (gid', g') gs → deadlock_cand thr lastTime g' = true →
                  location g' = location g →
                  blockedFor lastTime g' <= BlockedFor f.
Proof.
  intros Hms f. destruct (pickBest_spec ms m0) as [Hin Hmax].
  rewrite <- Hms in Hin.
  destruct (membersOf_full _ _ _ _ Hin) as (Hgs & Hc & Hk & Hb).
  exists (m_g (pickBest m0 ms)). subst f. simpl.
  pose proof (proj1 (deadlock_cand_true _ _) Hc) as (_ & Hr & _).
  split; [done|]. split; [done|]. split; [by rewrite <- Hk, Hr|].
  split; [done|]. split; [done|]. split; [done|]. split; [done|].
  intros gid' g' Hin' Hc' Hloc.
  pose proof (membersOf_intro _ _ _ _ Hin' Hc') as Hm.
  pose proof (proj1 (deadlock_cand_true _ _) Hc') as (_ & Hr' & _).
  rewrite Hr', Hloc, <- Hr, Hk, Hms in Hm.
  apply Hmax in Hm. done.
Qed.

Lemma detectDeadlocks_locations gs order :
  Permutation order (map_to_list (deadlockGroups gs lastTime opts)) →
  List.NoDup (map Location (detectDeadlocks gs lastTime opts order)).
Proof.
  intros Hperm. unfold detectDeadlocks.
  rewrite deadlockFindings_loop_spec. simpl.
  assert (Hmap : map Location (flat_map groupFindings order) =
                 map (λ p, p.2) (map group (flat_map groupFindings order))).
  { by rewrite map_map. }
  rewrite Hmap. rewrite (groupFindings_summary lastTime opts gs order)
    by (intros e He; by apply (Permutation_in _ Hperm)).
  rewrite !map_map. simpl.
  pose proof (deadlockGroups_keys_NoDup lastTime opts gs order Hperm) as Hnd.
  assert (Hsync : ∀ e, In e order → e.1.1 = "sync").
  { intros [k ms] He. apply (Permutation_in _ Hperm) in He.
    apply deadlockGroups_entry in He as [-> Hne].
    destruct (membersOf thr lastTime k gs) as [|m0 ms'] eqn:Hms; [done|].
    assert (Hin : In m0 (membersOf thr lastTime k gs)) by (rewrite Hms; by left).
    apply membersOf_full in Hin as (_ & Hc & Hk & _).
    apply deadlock_cand_true in Hc as (_ & Hr & _). simpl.
    by rewrite <- Hk, Hr. }
  clear Hperm Hmap. induction order as [|[k ms] order IH]; simpl; [constructor|].
  simpl in Hnd. apply List.NoDup_cons_iff in Hnd as [Hk Hnd].
  constructor.
  - rewrite in_map_iff. intros ([k' ms'] & Hloc & Hin). simpl in Hloc.
    apply Hk. rewrite in_map_iff. exists (k', ms'). split; [|done]. simpl.
    pose proof (Hsync (k, ms) ltac:(by left)) as H1.
    pose proof (Hsync (k', ms') ltac:(by right)) as H2. simpl in H1, H2.
    destruct k as [r l], k' as [r' l']. simpl in *. congruence.
  - apply IH; [done|]. intros e He. apply Hsync. by right.
Qed.

Lemma edgesOf_In gid g e :
  In e (edgesOf lastTime gid g) →
  e_gid e = gid ∧ e_g e = g ∧ syncWaiter g = true ∧ e_to e = location g ∧
  e_from e ≠ "" ∧ e_from e ≠ location g ∧
  ∃ entry, In entry (syncHistoryList g) ∧ se_location entry = e_from e ∧
           mul64 (sub64 lastTime (se_endTime entry)) Nanosecond <= abbaStaleWindow.
Proof.
  unfold edgesOf. destruct (syncWaiter g); [|done].
  rewrite in_flat_map. intros (entry & Hen & He).
  destruct (String.eqb_spec (se_location entry) "") as [|H0]; [done|]. simpl in He.
  destruct (String.eqb_spec (se_location entry) (location g)) as [|H1]; [done|].
  destruct (Z.gtb_spec (mul64 (sub64 lastTime (se_endTime entry)) Nanosecond)
              abbaStaleWindow) as [|Hage]; [done|].
  destruct He as [<-|[]]. simpl. repeat split; try done.
  exists entry. split; [done|]. split; [done|]. lia.
Qed.

Lemma inverse_true e1 e2 :
  inverse e1 e2 = true ↔ e_from e1 = e_to e2 ∧ e_to e1 = e_from e2.
Proof. unfold inverse. by rewrite andb_true_iff, !String.eqb_eq. Qed.

Lemma chanLock_cand_true W g :
  chanLock_cand lastTime W g = true ↔
  isBlocked g = true ∧ (reason g = "chan send" ∨ reason g = "chan receive") ∧
  prevSyncLocation g ≠ "" ∧ isRuntimeGoroutine (stack g) = false ∧
  mul64 (sub64 lastTime (prevSyncEndTime g)) Nanosecond <= abbaStaleWindow ∧
  seenAt W (prevSyncLocation g) = true.
Proof.
  unfold chanLock_cand.
  rewrite !andb_true_iff, orb_true_iff, !negb_true_iff, !String.eqb_eq.
  rewrite String.eqb_neq.
  destruct (Z.gtb_spec (mul64 (sub64 lastTime (prevSyncEndTime g)) Nanosecond)
              abbaStaleWindow); split; intros; intuition (try done; try lia).
Qed.

End DeadlockFacts.

(** X4. [detectDeadlocks] emits one finding per call site at which a
    goroutine has been blocked on "sync", with a user stack, for the
    threshold or longer, even when it is the only one there; the finding
    names a goroutine at that site that none of the others has been blocked
    for longer than, and no two findings share a location. *)
Theorem detectDeadlocks_one_finding_per_site
    (gs : Detector.goroutineMap) (lastTime : Z) (opts : Detector.Options)
    (order : list ((string * string) * list Detector.member)) :
  Permutation order (map_to_list (Detector.deadlockGroups gs lastTime opts)) →
  let thr := Detector.effectiveThreshold opts in
  let out := Detector.detectDeadlocks gs lastTime opts order in
  (∀ f, In f out →
     Detector.Kind_ f = Detector.KindDeadlock ∧
     Detector.Confidence_ f = Detector.ConfidenceMedium ∧
     Detector.BlockedOn f = "sync" ∧
     ∃ g, In (Detector.GoroutineID f, g) gs ∧
          Detector.isBlocked g = true ∧ Detector.reason g = "sync" ∧
          Detector.isRuntimeGoroutine (Detector.stack g) = false ∧
          Detector.Stack f = Detector.stack g ∧
          Detector.Function f = Detector.function g ∧
          Detector.Location f = Detector.location g ∧
          Detector.BlockedFor f = Trail.blockedFor lastTime g ∧
          thr <= Detector.BlockedFor f ∧
          ∀ gid' g', In (gid', g') gs →
            Views.deadlock_cand thr lastTime g' = true →
            Detector.location g' = Detector.location g →
            Trail.blockedFor lastTime g' <= Detector.BlockedFor f) ∧
  (∀ gid g, In (gid, g) gs → Views.deadlock_cand thr lastTime g = true →
     ∃ f, In f out ∧ Detector.Location f = Detector.location g) ∧
  List.NoDup (map Detector.Location out).
Proof.
  intros Hperm thr out. split; [|split].
  - intros f Hin.
    apply (detectDeadlocks_In lastTime opts gs order f Hperm) in Hin
      as (k & m0 & ms & Hms & ->).
    destruct (groupFinding_representative lastTime opts k m0 ms gs Hms)
      as (g & Hg & Hc & Hk & Hs & Hf & Hl & Hb & Hmax).
    split; [done|]. split; [done|]. split; [by rewrite Hk|].
    exists g. apply deadlock_cand_true in Hc as (H1 & H2 & H3 & H4).
    split; [done|]. split; [done|]. split; [done|]. split; [done|].
    split; [done|]. split; [done|]. split; [done|]. split; [done|].
    split; [by rewrite Hb | done].
  - intros gid g Hin Hc.
    pose proof (membersOf_intro lastTime thr gs gid g Hin Hc) as Hm.
    destruct (Views.membersOf thr lastTime
                (Detector.reason g, Detector.location g) gs)
      as [|m0 ms] eqn:Hms; [done|].
    destruct (groupFinding_representative lastTime opts _ m0 ms gs Hms)
      as (g0 & _ & _ & Hk & _ & _ & Hl & _).
    exists (Views.groupFinding (Detector.reason g, Detector.location g) m0 ms).
    split.
    + apply (detectDeadlocks_In lastTime opts gs order _ Hperm).
      by exists (Detector.reason g, Detector.location g), m0, ms.
    + rewrite Hl. by injection Hk as _ ->.
  - by apply detectDeadlocks_locations.
Qed.

Lemma detectDeadlocks_one_finding_per_site_witness :
  let gs := map_to_list (Examples.snapshotOf Scenarios.inversion) in
  let groups := map_to_list (Detector.deadlockGroups gs 3000000000 Examples.opts1s) in
  length (Detector.detectDeadlocks gs 3000000000 Examples.opts1s groups) = 2%nat ∧
  List.NoDup
    (map Detector.Location
       (Detector.detectDeadlocks gs 3000000000 Examples.opts1s groups)).
Proof.
  split; [vm_compute; reflexivity|].
  exact (proj2 (proj2
    (detectDeadlocks_one_finding_per_site
       (map_to_list (Examples.snapshotOf Scenarios.inversion)) 3000000000
       Examples.opts1s
       (map_to_list
          (Detector.deadlockGroups
             (map_to_list (Examples.snapshotOf Scenarios.inversion))
             3000000000 Examples.opts1s))
       (Permutation_refl _)))).
Defined.

Section PairFacts.
Import GoStrings GoTime Trace Detector Views Trail.

Lemma lookup_functional {A} (l : list (Z * A)) k v1 v2 :
  List.NoDup (map fst l) → In (k, v1) l → In (k, v2) l → v1 = v2.
Proof.
  induction l as [|[k' v'] l IH]; simpl; [done|].
  intros Hnd. apply List.NoDup_cons_iff in Hnd as [Hk Hnd].
  intros [[= -> ->]|H1] [[= <-]|H2]; try done.
  - destruct Hk. apply in_map_iff. by exists (k, v2).
  - destruct Hk. apply in_map_iff. by exists (k', v1).
  - by apply IH.
Qed.

Lemma canonicalKey_cases a b :
  canonicalKey a b = (a, b) ∨ canonicalKey a b = (b, a).
Proof. unfold canonicalKey. destruct (String.compare a b); auto. Qed.

Lemma canonicalKey_ends a b c d :
  canonicalKey a b = canonicalKey c d → b = c ∨ b = d.
Proof.
  destruct (canonicalKey_cases a b) as [-> | ->],
           (canonicalKey_cases c d) as [-> | ->]; intros [= -> ->]; auto.
Qed.

Lemma edges_In lastTime gs e :
  In e (flat_map (λ p, edgesOf lastTime p.1 p.2) gs) →
  In (e_gid e, e_g e) gs ∧ In e (edgesOf lastTime (e_gid e) (e_g e)).
Proof.
  rewrite in_flat_map. intros ([gid g] & Hin & He). simpl in He.
  destruct (edgesOf_In lastTime gid g e He) as (-> & -> & _). done.
Qed.

(** A finding of [detectABBA] and the two edges it comes from. *)
Lemma detectABBA_In lastTime gs f :
  In f (detectABBA gs lastTime) →
  ∃ e1 e2, f = abbaFinding lastTime e1 ∧
    In (e_gid e1, e_g e1) gs ∧ In e1 (edgesOf lastTime (e_gid e1) (e_g e1)) ∧
    In (e_gid e2, e_g e2) gs ∧ In e2 (edgesOf lastTime (e_gid e2) (e_g e2)) ∧
    inverse e1 e2 = true.
Proof.
  rewrite detectABBA_views, in_map_iff. intros (e1 & <- & Hin).
  apply abbaKept_In in Hin as (_ & e2 & He & Hi).
  apply earlier_In in He as [H1 H2].
  apply edges_In in H1 as [H1 H1']. apply edges_In in H2 as [H2 H2'].
  by exists e1, e2.
Qed.

Lemma detectChanLockCycle_In lastTime waiters gs f :
  In f (detectChanLockCycle waiters gs lastTime) →
  ∃ gid g, f = chanLockFinding lastTime gid g ∧ In (gid, g) gs ∧
           chanLock_cand lastTime (lockWaiters_loop waiters ∅) g = true.
Proof.
  rewrite detectChanLockCycle_views, in_map_iff. intros ([gid g] & <- & Hin).
  apply firstPerKey_In in Hin as (Hin & Hc & _). by exists gid, g.
Qed.

Lemma detectLeaks_body_blocked lastTime opts gid g f :
  detectLeaks_body lastTime opts gid g = Some f →
  BlockedFor f = blockedFor lastTime g ∧
  Function f = function g ∧
  (reason g ≠ "chan send" → reason g ≠ "chan receive" →
   Kind_ f = KindLongBlock ∧ Confidence_ f = ConfidenceMedium ∧
   MinBlock opts <= BlockedFor f).
Proof.
  unfold detectLeaks_body, blockedFor. intros H.
  destruct (Z.ltb_spec (mul64 (sub64 lastTime (blockStart g)) Nanosecond)
              (MinBlock opts)) as [Hlt|Hge];
  repeat match type of H with
         | (if ?c then _ else _) = Some _ => destruct c eqn:?; try done
         end;
    injection H as <-; simpl; (split; [done|]); (split; [done|]);
    intros H1 H2; try done;
    match goal with
    | Hc : _ || _ = true |- _ =>
        apply orb_true_iff in Hc as [Hc|Hc]; apply String.eqb_eq in Hc; done
    end.
Qed.

(** The four detectors of blocked goroutines name a goroutine of the
    snapshot that is blocked, and report how long it has been. *)
Lemma blocking_detectors_name_blocked snapshot lastTime opts it f :
  iterates snapshot lastTime opts it →
  In f (detectLeaks (it_leaks it) lastTime opts ++
        detectDeadlocks (it_deadlocks it) lastTime opts (it_groups it) ++
        detectABBA (it_abba it) lastTime ++
        detectChanLockCycle (it_waiters it) (it_chanlock it) lastTime) →
  ∃ g, snapshot !! GoroutineID f = Some g ∧ isBlocked g = true ∧
       isRuntimeGoroutine (stack g) = false ∧
       Stack f = stack g ∧ Function f = function g ∧ Location f = location g ∧
       BlockedFor f = blockedFor lastTime g.
Proof.
  intros (Hl & Hd & Hg & _ & Ha & _ & Hc & _) Hin.
  assert (Hsnap : ∀ order gid g, Permutation order (map_to_list snapshot) →
            In (gid, g) order → snapshot !! gid = Some g).
  { intros order gid g Hp Hi. apply (Permutation_in _ Hp) in Hi.
    apply elem_of_map_to_list. by apply list_elem_of_In. }
  repeat (apply in_app_or in Hin as [Hin|Hin]).
  - apply detectLeaks_In in Hin as (gid & g & Hgs & Hb).
    destruct (detectLeaks_body_Some _ _ _ _ _ Hb) as (H1 & H2 & <- & _ & H3 & H4).
    destruct (detectLeaks_body_blocked _ _ _ _ _ Hb) as (H5 & H6 & _).
    exists g. split; [exact (Hsnap _ _ _ Hl Hgs)|]. done.
  - apply (detectDeadlocks_In lastTime opts _ _ f Hg) in Hin
      as (k & m0 & ms & Hms & ->).
    destruct (groupFinding_representative lastTime opts k m0 ms _ Hms)
      as (g & Hgs & Hcand & _ & H3 & H4 & H5 & H6 & _).
    apply deadlock_cand_true in Hcand as (H1 & _ & H2 & _).
    exists g. split; [exact (Hsnap _ _ _ Hd Hgs)|]. done.
  - apply detectABBA_In in Hin as (e1 & e2 & -> & Hgs & He & _).
    apply edgesOf_In in He as (_ & _ & Hw & _).
    apply syncWaiter_true in Hw as (H1 & _ & H2).
    exists (e_g e1). split; [exact (Hsnap _ _ _ Ha Hgs)|]. done.
  - apply detectChanLockCycle_In in Hin as (gid & g & -> & Hgs & Hcand).
    apply chanLock_cand_true in Hcand as (H1 & _ & _ & H2 & _).
    exists g. split; [exact (Hsnap _ _ _ Hc Hgs)|]. done.
Qed.

Lemma syncHistoryList_located g entry :
  In entry (syncHistoryList g) → se_location entry ≠ "".
Proof.
  unfold syncHistoryList. rewrite in_flat_map. intros (i & _ & Hin).
  cbv zeta in Hin.
  match type of Hin with
  | In _ (if negb (String.eqb (se_location ?e) "") then _ else _) =>
      destruct (String.eqb_spec (se_location e) "") as [|Hne];
        simpl in Hin; [done|]
  end.
  by destruct Hin as [<-|[]].
Qed.

Lemma leftRecently_true lastTime g site :
  leftRecently lastTime g site = true ↔
  ∃ entry, In entry (syncHistoryList g) ∧ se_location entry = site ∧
           mul64 (sub64 lastTime (se_endTime entry)) Nanosecond
             <= abbaStaleWindow.
Proof.
  unfold leftRecently. rewrite existsb_exists.
  split; intros (entry & Hin & H); exists entry; (split; [done|]).
  - apply andb_true_iff in H as [H1 H2].
    apply String.eqb_eq in H1. apply negb_true_iff in H2.
    split; [done|]. rewrite Z.gtb_ltb in H2. apply Z.ltb_ge in H2. lia.
  - destruct H as [H1 H2]. apply andb_true_iff. split.
    + by apply String.eqb_eq.
    + apply negb_true_iff. rewrite Z.gtb_ltb. apply Z.ltb_ge. lia.
Qed.

Lemma edgesOf_intro lastTime gid g site :
  syncWaiter g = true → site ≠ location g →
  leftRecently lastTime g site = true →
  In (mkLockEdge site (location g) gid g) (edgesOf lastTime gid g).
Proof.
  intros Hw Hne Hrec. apply leftRecently_true in Hrec as (entry & Hin & <- & Hage).
  unfold edgesOf. rewrite Hw. apply in_flat_map. exists entry. split; [done|].
  pose proof (syncHistoryList_located _ _ Hin) as H0.
  destruct (String.eqb_spec (se_location entry) "") as [|_]; [done|].
  destruct (String.eqb_spec (se_location entry) (location g)) as [|_]; [done|].
  simpl.
  destruct (Z.gtb_spec (mul64 (sub64 lastTime (se_endTime entry)) Nanosecond)
              abbaStaleWindow) as [Hgt|_]; [lia|].
  by left.
Qed.

(** Two edges that are the inverse of each other give a finding at the
    waiting site of one of them. *)
Lemma detectABBA_inverse_edges lastTime gs gid1 g1 gid2 g2 e1 e2 :
  In (gid1, g1) gs → In (gid2, g2) gs →
  In e1 (edgesOf lastTime gid1 g1) →
  In e2 (edgesOf lastTime gid2 g2) →
  inverse e1 e2 = true →
  ∃ f, In f (detectABBA gs lastTime) ∧
       (Location f = location g1 ∨ Location f = location g2).
Proof.
  intros Hg1 Hg2 He1 He2 Hinv.
  set (edges := flat_map (λ p, edgesOf lastTime p.1 p.2) gs).
  assert (Hdist : ∀ e, In e edges → e_from e ≠ e_to e).
  { intros e He. apply in_flat_map in He as ([gid g] & _ & He).
    by eapply edgesOf_distinct. }
  assert (H1 : In e1 edges).
  { apply in_flat_map. by exists (gid1, g1). }
  assert (H2 : In e2 edges).
  { apply in_flat_map. by exists (gid2, g2). }
  assert (Hk : In (edgeKey e1) (map edgeKey (abbaKept edges ∅))).
  { apply (abbaKept_keys_In edges _ Hdist). by exists e1, e2. }
  apply in_map_iff in Hk as (e & Hk & He).
  exists (abbaFinding lastTime e). split.
  - rewrite detectABBA_views. apply in_map_iff. by exists e.
  - simpl. apply abbaKept_In in He as (_ & e' & Hearly & _).
    apply earlier_In in Hearly as [He _].
    apply edges_In in He as [_ He].
    apply edgesOf_In in He as (_ & _ & _ & Hto & _).
    apply edgesOf_In in He1 as (_ & _ & _ & Hto1 & _).
    apply edgesOf_In in He2 as (_ & _ & _ & Hto2 & _).
    apply inverse_true in Hinv as [Hft Htf].
    unfold edgeKey in Hk. apply canonicalKey_ends in Hk.
    rewrite <- Hto, <- Hto1, <- Hto2.
    destruct Hk as [Hk|Hk]; [right; by rewrite Hk, Hft | left; by rewrite Hk].
Qed.

End PairFacts.

(** X5. A finding of [detectABBA] names a goroutine blocked on "sync" at a
    site A that recently left a sync block at another site B, while a
    second, different goroutine is blocked on "sync" at B and recently left
    a sync block at A; and whenever two goroutines of the map are in that
    position, a finding is emitted at one of the two sites.  "Recently"
    is the same on both sides: among the entries [syncHistoryList]
    returns (the last five sync unblocks that have a location), one is at
    the site and ended at most [abbaStaleWindow], five seconds, before the
    end of the trace. *)
Theorem detectABBA_findings_have_inverse_pair
    (gs : Detector.goroutineMap) (lastTime : Z) :
  List.NoDup (map fst gs) →
  let out := Detector.detectABBA gs lastTime in
  (∀ f, In f out →
     Detector.Kind_ f = Detector.KindDeadlock ∧
     Detector.Confidence_ f = Detector.ConfidenceMedium ∧
     Detector.BlockedOn f = "sync (AB-BA lock inversion)" ∧
     ∃ g1 gid2 g2,
       In (Detector.GoroutineID f, g1) gs ∧ In (gid2, g2) gs ∧
       gid2 ≠ Detector.GoroutineID f ∧
       Views.syncWaiter g1 = true ∧ Views.syncWaiter g2 = true ∧
       Detector.Location f = Detector.location g1 ∧
       Detector.Stack f = Detector.stack g1 ∧
       Detector.BlockedFor f = Trail.blockedFor lastTime g1 ∧
       Detector.location g2 ≠ Detector.location g1 ∧
       Trail.leftRecently lastTime g1 (Detector.location g2) = true ∧
       Trail.leftRecently lastTime g2 (Detector.location g1) = true) ∧
  (∀ gid1 g1 gid2 g2,
     In (gid1, g1) gs → In (gid2, g2) gs →
     Views.syncWaiter g1 = true → Views.syncWaiter g2 = true →
     Detector.location g2 ≠ Detector.location g1 →
     Trail.leftRecently lastTime g1 (Detector.location g2) = true →
     Trail.leftRecently lastTime g2 (Detector.location g1) = true →
     ∃ f, In f out ∧
          (Detector.Location f = Detector.location g1 ∨
           Detector.Location f = Detector.location g2)).
Proof.
  intros Hnd out. split.
  - intros f Hin.
    apply detectABBA_In in Hin as (e1 & e2 & -> & Hg1 & He1 & Hg2 & He2 & Hinv).
    split; [done|]. split; [done|]. split; [done|].
    apply edgesOf_In in He1
      as (_ & _ & Hw1 & Hto1 & _ & Hne1 & en1 & Hen1 & Hl1 & Hage1).
    apply edgesOf_In in He2
      as (_ & _ & Hw2 & Hto2 & _ & Hne2 & en2 & Hen2 & Hl2 & Hage2).
    apply inverse_true in Hinv as [Hft Htf].
    exists (Detector.e_g e1), (Detector.e_gid e2), (Detector.e_g e2). simpl.
    assert (Hloc : Detector.location (Detector.e_g e2) ≠
                   Detector.location (Detector.e_g e1)).
    { rewrite <- Hto2, <- Hft. done. }
    split; [done|]. split; [done|]. split.
    { intros Heq. rewrite Heq in Hg2.
      pose proof (lookup_functional gs _ _ _ Hnd Hg1 Hg2) as Hsame.
      by rewrite Hsame in Hloc. }
    split; [done|]. split; [done|]. split; [done|]. split; [done|].
    split; [done|]. split; [done|]. split.
    + apply leftRecently_true. exists en1. split; [done|].
      split; [by rewrite Hl1, Hft | done].
    + apply leftRecently_true. exists en2. split; [done|].
      split; [by rewrite Hl2, <- Htf | done].
  - intros gid1 g1 gid2 g2 Hg1 Hg2 Hw1 Hw2 Hne Hr1 Hr2.
    apply (detectABBA_inverse_edges lastTime gs gid1 g1 gid2 g2
             (Detector.mkLockEdge (Detector.location g2) (Detector.location g1)
                gid1 g1)
             (Detector.mkLockEdge (Detector.location g1) (Detector.location g2)
                gid2 g2)); try done.
    + by apply edgesOf_intro.
    + apply edgesOf_intro; [done| |done]. by intros Heq; apply Hne.
    + apply inverse_true. by split.
Qed.


(** X7. With a positive [MinBlock], every goroutine [detectLeaks] reports
    as a long block on "sync" is covered by a deadlock finding of
    [detectDeadlocks] at the same location, blocked for at least as
    long: the two detectors report the same block twice. *)
Theorem sync_long_block_is_also_reported_as_deadlock
    (gs gs' : Detector.goroutineMap) (lastTime : Z) (opts : Detector.Options)
    (order : list ((string * string) * list Detector.member))
    (f : Detector.Finding) :
  0 < Detector.MinBlock opts →
  Permutation gs gs' →
  Permutation order (map_to_list (Detector.deadlockGroups gs' lastTime opts)) →
  In f (Detector.detectLeaks gs lastTime opts) →
  Detector.BlockedOn f = "sync" →
  Detector.Kind_ f = Detector.KindLongBlock ∧
  ∃ f', In f' (Detector.detectDeadlocks gs' lastTime opts order) ∧
        Detector.Kind_ f' = Detector.KindDeadlock ∧
        Detector.Location f' = Detector.Location f ∧
        Detector.BlockedFor f <= Detector.BlockedFor f'.
Proof.
  intros Hmin Hperm Horder Hin Hsync.
  apply detectLeaks_In in Hin as (gid & g & Hgs & Hb).
  destruct (detectLeaks_body_Some _ _ _ _ _ Hb) as (H1 & H2 & _ & Hr & _ & Hloc).
  rewrite Hsync in Hr.
  destruct (detectLeaks_body_blocked _ _ _ _ _ Hb) as (Hbf & _ & Hlong).
  destruct Hlong as (Hk & _ & Hge); [by rewrite <- Hr | by rewrite <- Hr |].
  split; [done|].
  assert (Hthr : Detector.effectiveThreshold opts <= Detector.MinBlock opts).
  { unfold Detector.effectiveThreshold.
    destruct (Z.gtb_spec (Detector.MinBlock opts) 0); [|lia]. simpl.
    destruct (Z.ltb_spec (Detector.MinBlock opts) Detector.deadlockThreshold); lia. }
  assert (Hc : Views.deadlock_cand (Detector.effectiveThreshold opts) lastTime g = true).
  { apply deadlock_cand_true. rewrite <- Hbf. repeat split; try done. lia. }
  apply (Permutation_in _ Hperm) in Hgs.
  pose proof (membersOf_intro lastTime _ gs' gid g Hgs Hc) as Hm.
  destruct (Views.membersOf (Detector.effectiveThreshold opts) lastTime
              (Detector.reason g, Detector.location g) gs')
    as [|m0 ms] eqn:Hms; [done|].
  destruct (groupFinding_representative lastTime opts _ m0 ms gs' Hms)
    as (g0 & _ & _ & Hkey & _ & _ & Hl & _ & Hmax).
  exists (Views.groupFinding (Detector.reason g, Detector.location g) m0 ms).
  split.
  - apply (detectDeadlocks_In lastTime opts gs' order _ Horder).
    by exists (Detector.reason g, Detector.location g), m0, ms.
  - injection Hkey as _ Hl0. split; [done|]. split.
    + by rewrite Hl, Hloc, Hl0.
    + rewrite Hbf. apply (Hmax gid g); [done | done | done].
Qed.

(** X8. A goroutine [detectOrphans] reports is named by no finding of
    [detectLeaks], [detectDeadlocks], [detectABBA] or
    [detectChanLockCycle] of the same run: those four only name goroutines
    that are blocked at the end of the trace. *)
Theorem orphan_is_reported_by_no_blocking_detector
    (snapshot : gmap Z Detector.goroutineState) (lastTime traceDuration : Z)
    (opts : Detector.Options) (it : Detector.iteration)
    (f f' : Detector.Finding) :
  Detector.iterates snapshot lastTime opts it →
  In f (Detector.detectOrphans (Detector.it_orphans it) traceDuration) →
  In f' (Detector.detectLeaks (Detector.it_leaks it) lastTime opts ++
         Detector.detectDeadlocks (Detector.it_deadlocks it) lastTime opts
           (Detector.it_groups it) ++
         Detector.detectABBA (Detector.it_abba it) lastTime ++
         Detector.detectChanLockCycle (Detector.it_waiters it)
           (Detector.it_chanlock it) lastTime) →
  Detector.GoroutineID f' ≠ Detector.GoroutineID f.
Proof.
  intros Hit Hin Hin' Heq.
  destruct (blocking_detectors_name_blocked _ _ _ _ _ Hit Hin')
    as (g' & Hg' & Hb' & _).
  apply detectOrphans_In in Hin as (_ & gid & g & Hgs & Hb).
  apply detectOrphans_body_Some in Hb as (-> & _ & Hnb & _). simpl in Heq.
  destruct Hit as (_ & _ & _ & _ & _ & _ & _ & Ho).
  apply (Permutation_in _ Ho) in Hgs.
  apply list_elem_of_In, elem_of_map_to_list in Hgs.
  rewrite Heq, Hgs in Hg'. injection Hg' as ->. congruence.
Qed.

Lemma detectABBA_findings_have_inverse_pair_witness :
  let gs := map_to_list (Examples.snapshotOf Scenarios.inversion) in
  List.NoDup (map fst gs) ∧
  ∃ f, Detector.detectABBA gs 3000000000 = [f] ∧
       Detector.BlockedOn f = "sync (AB-BA lock inversion)" ∧
       ∃ g1 gid2 g2,
         In (Detector.GoroutineID f, g1) gs ∧ In (gid2, g2) gs ∧
         gid2 ≠ Detector.GoroutineID f ∧
         Detector.location g2 ≠ Detector.location g1 ∧
         Trail.leftRecently 3000000000 g1 (Detector.location g2) = true ∧
         Trail.leftRecently 3000000000 g2 (Detector.location g1) = true.
Proof.
  assert (Hnd : List.NoDup
            (map fst (map_to_list (Examples.snapshotOf Scenarios.inversion)))).
  { apply NoDup_ListNoDup.
    apply (NoDup_fst_map_to_list (Examples.snapshotOf Scenarios.inversion)). }
  cbv zeta. split; [exact Hnd|].
  destruct (Detector.detectABBA
              (map_to_list (Examples.snapshotOf Scenarios.inversion)) 3000000000)
    as [|f [|f' fs]] eqn:E; [vm_compute in E; discriminate| |vm_compute in E; discriminate].
  exists f. split; [reflexivity|].
  destruct (proj1 (detectABBA_findings_have_inverse_pair
                     (map_to_list (Examples.snapshotOf Scenarios.inversion))
                     3000000000 Hnd) f)
    as (_ & _ & Hon & g1 & gid2 & g2 & H1 & H2 & Hne & _ & _ & _ & _ & _ & Hloc
        & Hl1 & Hl2).
  { cbv zeta. rewrite E. left. reflexivity. }
  split; [exact Hon|]. exists g1, gid2, g2.
  exact (conj H1 (conj H2 (conj Hne (conj Hloc (conj Hl1 Hl2))))).
Defined.

Lemma sync_long_block_is_also_reported_as_deadlock_witness :
  ∃ f f',
    In f (Detector.detectLeaks Examples.snapshot 3000000000 Examples.opts1s) ∧
    Detector.GoroutineID f = 19 ∧
    Detector.Kind_ f = Detector.KindLongBlock ∧
    In f' (Detector.detectDeadlocks Examples.snapshot 3000000000 Examples.opts1s
             (map_to_list
                (Detector.deadlockGroups Examples.snapshot 3000000000
                   Examples.opts1s))) ∧
    Detector.Kind_ f' = Detector.KindDeadlock ∧
    Detector.Location f' = Detector.Location f.
Proof.
  destruct (Detector.detectLeaks Examples.snapshot 3000000000 Examples.opts1s
              !! 1%nat) as [f|] eqn:E; [|vm_compute in E; discriminate].
  assert (Hin : In f (Detector.detectLeaks Examples.snapshot 3000000000
                        Examples.opts1s)).
  { exact (lookup_In _ _ _ E). }
  assert (Hf : Detector.GoroutineID f = 19 ∧ Detector.BlockedOn f = "sync").
  { vm_compute in E. injection E as <-. split; reflexivity. }
  destruct Hf as [Hid Hon].
  destruct (sync_long_block_is_also_reported_as_deadlock
              Examples.snapshot Examples.snapshot 3000000000 Examples.opts1s
              (map_to_list
                 (Detector.deadlockGroups Examples.snapshot 3000000000
                    Examples.opts1s)) f)
    as (Hk & f' & Hin' & Hk' & Hloc & _).
  - vm_compute. reflexivity.
  - reflexivity.
  - reflexivity.
  - exact Hin.
  - exact Hon.
  - exists f, f'.
    exact (conj Hin (conj Hid (conj Hk (conj Hin' (conj Hk' Hloc))))).
Defined.

Lemma orphan_is_reported_by_no_blocking_detector_witness :
  let it := Examples.forward Scenarios.orphanAndLeak in
  let lastTime := Detector.lastTime (Examples.finalEngine Scenarios.orphanAndLeak) in
  ∃ f f',
    In f (Detector.detectOrphans (Detector.it_orphans it) 100000000) ∧
    In f' (Detector.detectLeaks (Detector.it_leaks it) lastTime Examples.opts1s) ∧
    Detector.GoroutineID f' ≠ Detector.GoroutineID f.
Proof.
  cbv zeta.
  set (it := Examples.forward Scenarios.orphanAndLeak).
  set (lastTime := Detector.lastTime (Examples.finalEngine Scenarios.orphanAndLeak)).
  destruct (Detector.detectOrphans (Detector.it_orphans it) 100000000 !! 0%nat)
    as [f|] eqn:E; [|vm_compute in E; discriminate].
  destruct (Detector.detectLeaks (Detector.it_leaks it) lastTime Examples.opts1s
              !! 0%nat) as [f'|] eqn:E'; [|vm_compute in E'; discriminate].
  assert (Hin : In f (Detector.detectOrphans (Detector.it_orphans it) 100000000)).
  { exact (lookup_In _ _ _ E). }
  assert (Hin' : In f' (Detector.detectLeaks (Detector.it_leaks it) lastTime
                          Examples.opts1s)).
  { exact (lookup_In _ _ _ E'). }
  exists f, f'. split; [exact Hin|]. split; [exact Hin'|].
  apply (orphan_is_reported_by_no_blocking_detector
           (Examples.snapshotOf Scenarios.orphanAndLeak) lastTime 100000000
           Examples.opts1s it f f').
  - apply iterationOf_iterates. reflexivity.
  - exact Hin.
  - apply in_or_app. left. exact Hin'.
Defined.

(** ** What the event loop records, and the findings built from it *)

Section Recorded.
Import GoStrings GoTime Trace Detector Views Trail.

Lemma append_eq_nil a b : String.append a b = "" → a = "" ∧ b = "".
Proof.
  intros H. apply (f_equal String.length) in H. rewrite append_length in H.
  simpl in H. destruct a, b; simpl in H; try done; lia.
Qed.

Lemma renderFrame_nonempty f : renderFrame f ≠ "".
Proof. done. Qed.

Lemma renderStack_fold_nil frames : ∀ sb,
  fold_left (λ sb f, String.append sb (renderFrame f)) frames sb = "" →
  sb = "" ∧ frames = [].
Proof.
  induction frames as [|f frames IH]; intros sb; simpl; [done|].
  intros H. apply IH in H as [H _]. apply append_eq_nil in H as [_ H].
  by apply renderFrame_nonempty in H.
Qed.

(** A stack with a user frame has a location and a rendering. *)
Lemma extractStack_function frames s f l :
  extractStack frames = (s, f, l) → f ≠ "" → l ≠ "" ∧ s ≠ "".
Proof.
  rewrite extractStack_eq. intros [= <- <- <-] Hf.
  destruct (firstUserFrame frames) as [fr|] eqn:Hfr; [|done].
  split; [apply sourceLine_nonempty|].
  intros H. apply renderStack_fold_nil in H as [_ ->]. done.
Qed.

Lemma runEvents_recorded events e gid g :
  runEvents initEngine events = Some e → goroutines e !! gid = Some g →
  recorded g.
Proof.
  intros Hrun.
  apply (runEvents_preserves recorded events initEngine e); try done.
  intros t st from to g0 g' Hg0.
  apply (applyTransition_preserves recorded); try done.
  - intros g1 s f l He (H1 & H2 & H3). split; [|done]. simpl.
    by eapply extractStack_function.
  - intros g1 (H1 & H2 & H3) _ Hr Hgt. split; [done|]. simpl.
    split; [lia|]. intros _. split; [done | lia].
  - intros g1 g2 Hg1 _ _. unfold pushSync.
    destruct (_ <? 0); [done|]. by intros [= <-].
Qed.

Lemma chronologicalFrom_bounds events : ∀ t ev,
  chronologicalFrom t events → In ev events → t <= Time ev <= int64_max.
Proof.
  induction events as [|ev0 events IH]; intros t ev; simpl; [done|].
  intros [[H1 H2] Hc] [<-|Hin]; [done|].
  destruct (IH _ _ Hc Hin). lia.
Qed.

(** On a chronological trace the clock of the engine stays within the
    time stamps, and every block has started by the last one. *)
Lemma runEvents_startedBy events e :
  chronological events → runEvents initEngine events = Some e →
  0 <= firstTime e <= lastTime e ∧ lastTime e <= int64_max ∧
  ∀ gid g, goroutines e !! gid = Some g → startedBy (lastTime e) g.
Proof.
  intros Hchr Hrun.
  destruct (runEvents_preserves_timed startedBy events initEngine e)
    as [_ Hinv]; try done.
  { unfold startedBy. intros t t' g H Hle. lia. }
  { intros t t' st from to g g' Hg Hle.
    assert (Hg' : startedBy t' g) by (unfold startedBy in *; lia).
    assert (H0 : 0 <= t') by (unfold startedBy in Hg; lia).
    apply (applyTransition_preserves (startedBy t')); try done;
      try (intros; unfold startedBy in *; simpl; lia).
    intros g1 g2 Hg1 _ _. unfold pushSync.
    destruct (_ <? 0); [done|]. by intros [= <-]. }
  destruct (runEvents_times _ _ _ Hrun) as [Hl Hf]. simpl in Hl, Hf.
  split; [|split; [|done]].
  - rewrite Hl, Hf. destruct events as [|ev0 events]; [simpl; lia|].
    destruct Hchr as [[H0 H1] Hc].
    destruct (rev (ev0 :: events)) as [|evl r] eqn:Hrev.
    { apply (f_equal (@length _)) in Hrev. rewrite length_rev in Hrev. done. }
    assert (Hin : In evl (ev0 :: events)).
    { apply in_rev. rewrite Hrev. by left. }
    destruct Hin as [<-|Hin]; [lia|].
    destruct (chronologicalFrom_bounds _ _ _ Hc Hin). lia.
  - rewrite Hl. destruct (rev events) as [|evl r] eqn:Hrev; [simpl; unfold int64_max; lia|].
    assert (Hin : In evl events).
    { apply in_rev. rewrite Hrev. by left. }
    destruct (chronologicalFrom_bounds _ _ _ Hchr Hin). lia.
Qed.

Lemma snapshot_lookup (snapshot : gmap Z goroutineState) order gid g :
  Permutation order (map_to_list snapshot) → In (gid, g) order →
  snapshot !! gid = Some g.
Proof.
  intros Hp Hi. apply (Permutation_in _ Hp) in Hi.
  apply elem_of_map_to_list. by apply list_elem_of_In.
Qed.

End Recorded.

(** X9. On a trace whose time stamps are non-negative and never decrease,
    no finding of [Analyze] is blocked for a negative time. *)
Theorem findings_are_blocked_for_nonnegative_time
    (path : string) (events : list Trace.Event) (opts : Detector.Options)
    (e : Detector.engine) (it : Detector.iteration)
    (r : Detector.Result) (f : Detector.Finding) :
  Trail.chronological events →
  Detector.runEvents Detector.initEngine events = Some e →
  Detector.iterates (Detector.goroutines e) (Detector.lastTime e) opts it →
  Detector.Analyze path events opts it = Some r →
  In f (Detector.Findings r) →
  0 <= Detector.BlockedFor f.
Proof.
  intros Hchr Hrun Hit Hres Hin.
  destruct (runEvents_startedBy events e Hchr Hrun) as (Hft & Hmax & Hstart).
  unfold Detector.Analyze in Hres. rewrite Hrun in Hres.
  injection Hres as <-. simpl in Hin. unfold Detector.runDetectors in Hin.
  assert (Hblocked : ∀ f0,
            In f0 (Detector.detectLeaks (Detector.it_leaks it) (Detector.lastTime e) opts ++
                   Detector.detectDeadlocks (Detector.it_deadlocks it)
                     (Detector.lastTime e) opts (Detector.it_groups it) ++
                   Detector.detectABBA (Detector.it_abba it) (Detector.lastTime e) ++
                   Detector.detectChanLockCycle (Detector.it_waiters it)
                     (Detector.it_chanlock it) (Detector.lastTime e)) →
            0 <= Detector.BlockedFor f0).
  { intros f0 H0.
    destruct (blocking_detectors_name_blocked _ _ _ _ _ Hit H0)
      as (g & Hg & _ & _ & _ & _ & _ & ->).
    apply Hstart in Hg. unfold Trail.startedBy in Hg.
    unfold Trail.blockedFor. rewrite blocked_duration_exact; [lia|].
    unfold GoTime.in_int64, GoTime.int64_min, GoTime.int64_max in *. lia. }
  apply in_app_or in Hin as [Hin|Hin].
  { apply Hblocked. apply in_or_app. by left. }
  apply in_app_or in Hin as [Hin|Hin].
  { apply Hblocked. apply in_or_app. right. apply in_or_app. by left. }
  apply in_app_or in Hin as [Hin|Hin].
  { apply detectTransientBlocks_In in Hin as (gid & g & Hk & ->). simpl.
    apply firstPerKey_In in Hk as [Hk _].
    destruct Hit as (_ & _ & _ & Ht & _).
    pose proof (snapshot_lookup _ _ _ _ Ht Hk) as Hg.
    by destruct (runEvents_recorded events e gid g Hrun Hg) as (_ & H & _). }
  apply in_app_or in Hin as [Hin|Hin].
  { apply Hblocked. do 2 (apply in_or_app; right). apply in_or_app. by left. }
  apply in_app_or in Hin as [Hin|Hin].
  { apply Hblocked. do 3 (apply in_or_app; right). done. }
  apply detectOrphans_In in Hin as (_ & gid & g & _ & Hb).
  apply detectOrphans_body_Some in Hb as [-> _]. simpl.
  rewrite blocked_duration_exact; [lia|].
  unfold GoTime.in_int64, GoTime.int64_min, GoTime.int64_max in *. lia.
Qed.

(** X10. Every finding of [detectTransientBlocks] on the state the event
    loop ends with is a completed block on "sync": its reason is "sync",
    its duration is positive and at least [MinBlock], and its stack is not
    runtime-only. *)
Theorem transient_findings_are_completed_sync_blocks
    (events : list Trace.Event) (e : Detector.engine) (opts : Detector.Options)
    (order : Detector.goroutineMap) (f : Detector.Finding) :
  Detector.runEvents Detector.initEngine events = Some e →
  Permutation order (map_to_list (Detector.goroutines e)) →
  In f (Detector.detectTransientBlocks order opts) →
  Detector.Kind_ f = Detector.KindLongBlock ∧
  Detector.BlockedOn f = "sync" ∧
  0 < Detector.BlockedFor f ∧
  Detector.MinBlock opts <= Detector.BlockedFor f ∧
  Detector.isRuntimeGoroutine (Detector.Stack f) = false.
Proof.
  intros Hrun Hperm Hin.
  apply detectTransientBlocks_In in Hin as (gid & g & Hk & ->). simpl.
  apply firstPerKey_In in Hk as (Hk & Hc & _).
  apply transient_cand_true in Hc as [Hmin Hstack].
  pose proof (snapshot_lookup _ _ _ _ Hperm Hk) as Hg.
  destruct (runEvents_recorded events e gid g Hrun Hg) as (_ & _ & Hrec).
  destruct Hrec as [Hr Hpos].
  { intros Hs. by rewrite Hs in Hstack. }
  done.
Qed.

(** X11. Every finding of [detectOrphans] on the state the event loop ends
    with carries a creation site: its function, location and stack are not
    empty; the goroutine it names is alive, not blocked, and has no
    blocking stack. *)
Theorem orphan_findings_carry_their_creation_site
    (events : list Trace.Event) (e : Detector.engine)
    (order : Detector.goroutineMap) (traceDuration : Z) (f : Detector.Finding) :
  Detector.runEvents Detector.initEngine events = Some e →
  Permutation order (map_to_list (Detector.goroutines e)) →
  In f (Detector.detectOrphans order traceDuration) →
  Detector.Function f ≠ "" ∧ Detector.Location f ≠ "" ∧
  Detector.Stack f ≠ "" ∧
  ∃ g, Detector.goroutines e !! Detector.GoroutineID f = Some g ∧
       Detector.goroutineDead g = false ∧ Detector.isBlocked g = false ∧
       Detector.stack g = "" ∧
       Detector.Function f = Detector.creationFunction g ∧
       Detector.Location f = Detector.creationLocation g ∧
       Detector.Stack f = Detector.creationStack g.
Proof.
  intros Hrun Hperm Hin.
  apply detectOrphans_In in Hin as (_ & gid & g & Hgs & Hb).
  pose proof (snapshot_lookup _ _ _ _ Hperm Hgs) as Hg.
  destruct (runEvents_cleared events e gid g Hrun Hg) as [Hclr _].
  destruct (runEvents_recorded events e gid g Hrun Hg) as (Hcre & _).
  pose proof (detectOrphans_body_Some _ _ _ _ Hb) as (-> & Hdead & Hnb & Hseen).
  simpl. destruct (Hclr Hnb) as (_ & Hst & _).
  assert (Hfn : Detector.creationFunction g ≠ "").
  { intros Hfn. unfold Detector.detectOrphans_body in Hb.
    rewrite Hdead, Hnb, Hseen, Hst, Hfn in Hb. simpl in Hb.
    by destruct (Detector.isNonTestRuntimeGoroutine (Detector.creationStack g)). }
  destruct (Hcre Hfn) as [Hloc Hstack].
  split; [done|]. split; [done|]. split; [done|]. by exists g.
Qed.

Lemma findings_are_blocked_for_nonnegative_time_witness :
  ∃ r f,
    Detector.Analyze "trace.out" Examples.receiveLeak Examples.opts1s
      (Examples.forward Examples.receiveLeak) = Some r ∧
    In f (Detector.Findings r) ∧ 0 <= Detector.BlockedFor f.
Proof.
  destruct (Detector.Analyze "trace.out" Examples.receiveLeak Examples.opts1s
              (Examples.forward Examples.receiveLeak)) as [r|] eqn:E;
    [|vm_compute in E; discriminate].
  destruct (Detector.Findings r !! 0%nat) as [f|] eqn:Ef.
  2: { exfalso. vm_compute in E. injection E as <-. vm_compute in Ef.
       discriminate. }
  assert (Hin : In f (Detector.Findings r)).
  { exact (lookup_In _ _ _ Ef). }
  exists r, f. split; [reflexivity|]. split; [exact Hin|].
  apply (findings_are_blocked_for_nonnegative_time "trace.out"
           Examples.receiveLeak Examples.opts1s
           (Examples.finalEngine Examples.receiveLeak)
           (Examples.forward Examples.receiveLeak) r f).
  - vm_compute. intuition discriminate.
  - vm_compute. reflexivity.
  - apply iterationOf_iterates. reflexivity.
  - exact E.
  - exact Hin.
Defined.

Lemma transient_findings_are_completed_sync_blocks_witness :
  ∃ f,
    In f (Detector.detectTransientBlocks
            (map_to_list (Examples.snapshotOf Examples.twoTimedOut))
            Examples.opts1s) ∧
    Detector.BlockedOn f = "sync" ∧ 0 < Detector.BlockedFor f.
Proof.
  destruct (Detector.detectTransientBlocks
              (map_to_list (Examples.snapshotOf Examples.twoTimedOut))
              Examples.opts1s !! 0%nat) as [f|] eqn:E;
    [|vm_compute in E; discriminate].
  assert (Hin : In f (Detector.detectTransientBlocks
                        (map_to_list (Examples.snapshotOf Examples.twoTimedOut))
                        Examples.opts1s)).
  { exact (lookup_In _ _ _ E). }
  destruct (transient_findings_are_completed_sync_blocks Examples.twoTimedOut
              (Examples.finalEngine Examples.twoTimedOut) Examples.opts1s
              (map_to_list (Examples.snapshotOf Examples.twoTimedOut)) f)
    as (_ & Hon & Hpos & _).
  - vm_compute. reflexivity.
  - reflexivity.
  - exact Hin.
  - exists f. exact (conj Hin (conj Hon Hpos)).
Defined.

Lemma orphan_findings_carry_their_creation_site_witness :
  ∃ f,
    In f (Detector.detectOrphans
            (map_to_list (Examples.snapshotOf Scenarios.orphanAndLeak))
            100000000) ∧
    Detector.Function f ≠ "" ∧ Detector.Location f ≠ "".
Proof.
  destruct (Detector.detectOrphans
              (map_to_list (Examples.snapshotOf Scenarios.orphanAndLeak))
              100000000 !! 0%nat) as [f|] eqn:E;
    [|vm_compute in E; discriminate].
  assert (Hin : In f (Detector.detectOrphans
                        (map_to_list (Examples.snapshotOf Scenarios.orphanAndLeak))
                        100000000)).
  { exact (lookup_In _ _ _ E). }
  destruct (orphan_findings_carry_their_creation_site Scenarios.orphanAndLeak
              (Examples.finalEngine Scenarios.orphanAndLeak)
              (map_to_list (Examples.snapshotOf Scenarios.orphanAndLeak))
              100000000 f)
    as (Hfn & Hloc & _).
  - vm_compute. reflexivity.
  - reflexivity.
  - exact Hin.
  - exists f. exact (conj Hin (conj Hfn Hloc)).
Defined.

(** ** The circular buffer of sync unblocks *)

Section Ring.
Import GoStrings GoTime Trace Detector Views Trail.

Lemma flat_map_filter_map {A B} (p : B → bool) (h1 h2 : A → B) l :
  (∀ a, In a l → h1 a = h2 a) →
  flat_map (λ a, if p (h1 a) then [h1 a] else []) l = List.filter p (map h2 l).
Proof.
  induction l as [|a l IH]; intros Hext; simpl; [done|].
  rewrite <- (Hext a) by (by left).
  rewrite IH by (intros b Hb; apply Hext; by right).
  by destruct (p (h1 a)).
Qed.

Lemma ring_position idx i :
  0 <= idx <= int64_max → (i < Nat.min (Z.to_nat idx) 5)%nat →
  let pos := Z.rem (wrap64 (wrap64 (idx - 1) - Z.of_nat i)) syncHistorySize in
  Z.to_nat (if pos <? 0 then pos + syncHistorySize else pos) =
  ((Z.to_nat idx - 1 - i) mod 5)%nat.
Proof.
  intros Hidx Hi. cbv zeta.
  assert (H1 : wrap64 (idx - 1) = idx - 1).
  { apply wrap64_id. unfold in_int64, int64_min, int64_max in *. lia. }
  rewrite H1.
  assert (H2 : wrap64 (idx - 1 - Z.of_nat i) = idx - 1 - Z.of_nat i).
  { apply wrap64_id. unfold in_int64, int64_min, int64_max in *. lia. }
  rewrite H2. unfold syncHistorySize.
  rewrite Z.rem_mod_nonneg by lia.
  destruct (Z.ltb_spec ((idx - 1 - Z.of_nat i) mod 5) 0) as [Hneg|_].
  { pose proof (Z.mod_pos_bound (idx - 1 - Z.of_nat i) 5). lia. }
  rewrite Z2Nat.inj_mod by lia. f_equal. lia.
Qed.

(** [syncHistoryList] returns the entries of [recent] that have a
    location. *)
Lemma syncHistoryList_recent g :
  0 <= syncHistoryIdx g <= int64_max →
  syncHistoryList g =
  List.filter (λ en, negb (String.eqb (se_location en) "")) (recent g).
Proof.
  intros Hidx. unfold syncHistoryList, recent.
  assert (Hn : Z.to_nat (if syncHistoryIdx g >? syncHistorySize
                         then syncHistorySize else syncHistoryIdx g) =
               Nat.min (Z.to_nat (syncHistoryIdx g)) 5).
  { unfold syncHistorySize.
    destruct (Z.gtb_spec (syncHistoryIdx g) 5); lia. }
  rewrite Hn.
  apply (flat_map_filter_map
           (λ en, negb (String.eqb (se_location en) ""))
           (λ i : nat,
              default zeroEntry
                (syncHistory g !!
                   Z.to_nat
                     (let pos := Z.rem (wrap64 (wrap64 (syncHistoryIdx g - 1)
                                                 - Z.of_nat i)) syncHistorySize in
                      if pos <? 0 then pos + syncHistorySize else pos)))).
  intros i Hi. apply in_seq in Hi. simpl in Hi.
  rewrite ring_position by (done || lia). done.
Qed.

Lemma pushSync_recent g time :
  ring g →
  ∃ g', pushSync g time = Some g' ∧
        length (syncHistory g') = 5%nat ∧
        syncHistoryIdx g' = syncHistoryIdx g + 1 ∧
        recent g' = take 5 (pushed g time :: recent g).
Proof.
  intros [Hlen Hidx]. unfold pushSync.
  assert (Hrem : Z.rem (syncHistoryIdx g) syncHistorySize =
                 syncHistoryIdx g mod 5).
  { unfold syncHistorySize. apply Z.rem_mod_nonneg; lia. }
  rewrite Hrem.
  destruct (Z.ltb_spec (syncHistoryIdx g mod 5) 0) as [Hneg|_].
  { pose proof (Z.mod_pos_bound (syncHistoryIdx g) 5). lia. }
  eexists. split; [reflexivity|]. cbn [syncHistory syncHistoryIdx].
  split; [by rewrite length_insert|].
  assert (Hw : wrap64 (syncHistoryIdx g + 1) = syncHistoryIdx g + 1).
  { apply wrap64_id. unfold in_int64, int64_min, int64_max in *. lia. }
  split; [done|].
  unfold recent. cbn [syncHistory syncHistoryIdx]. rewrite Hw.
  set (n := Z.to_nat (syncHistoryIdx g)).
  assert (Hn1 : Z.to_nat (syncHistoryIdx g + 1) = S n) by lia.
  assert (Hpos : Z.to_nat (syncHistoryIdx g mod 5) = (n mod 5)%nat).
  { subst n. by rewrite Z2Nat.inj_mod by lia. }
  rewrite Hn1, Hpos.
  assert (Hmin : Nat.min (S n) 5 = S (Nat.min n 4)) by lia.
  rewrite Hmin. cbn [seq map firstn take].
  assert (H0 : (S n - 1 - 0 = n)%nat) by lia.
  rewrite H0, list_lookup_insert_eq.
  2:{ rewrite Hlen. apply Nat.mod_upper_bound. done. }
  cbn [default]. unfold pushed. f_equal.
  rewrite firstn_map, take_seq.
  rewrite <- seq_shift, map_map.
  assert (Hm : Nat.min 4 (Nat.min n 5) = Nat.min n 4) by lia.
  rewrite Hm. apply map_ext_in. intros i Hi. apply in_seq in Hi.
  rewrite list_lookup_insert_ne.
  - do 2 f_equal. f_equal. lia.
  - assert (Hi' : (i < 4)%nat ∧ (i < n)%nat) by lia. clear Hi.
    destruct Hi' as [H4 Hn].
    assert (Hs : (S n - 1 - S i = n - S i)%nat) by lia. rewrite Hs.
    intros Heq.
    pose proof (Nat.div_mod_eq (n - S i) 5) as Hd.
    pose proof (Nat.div_mod_eq n 5) as Hd'.
    rewrite <- Heq in Hd.
    generalize dependent (n mod 5)%nat. intros r _ _ Hd Hd'.
    generalize dependent (n / 5)%nat. intros q1 Hd'.
    generalize dependent ((n - S i) / 5)%nat. intros q2 Hd.
    clearbody n. lia.
Qed.

Lemma applyTransition_ring time st from to g g' :
  length (syncHistory g) = 5%nat →
  applyTransition time st from to g = Some g' →
  length (syncHistory g') = 5%nat.
Proof.
  intros Hg.
  apply (applyTransition_preserves (λ g, length (syncHistory g) = 5%nat));
    try done.
  intros g1 g2 H1 _ _. unfold pushSync.
  destruct (_ <? 0); [done|]. intros [= <-]. simpl. by rewrite length_insert.
Qed.

End Ring.

(** X12. The circular buffer keeps the five most recent sync unblocks.
    While fewer than 2^63 - 1 entries have been written, [pushSync] stores
    the new entry in front of the recent ones and drops the oldest beyond
    five, and [syncHistoryList] returns the recent entries that have a
    location, most recent first. *)
Theorem pushSync_keeps_the_five_most_recent
    (g : Detector.goroutineState) (time : Z) :
  Trail.ring g →
  ∃ g', Detector.pushSync g time = Some g' ∧
        Trail.recent g' = take 5 (Trail.pushed g time :: Trail.recent g) ∧
        Detector.syncHistoryList g =
          List.filter (λ en, negb (String.eqb (Detector.se_location en) ""))
            (Trail.recent g) ∧
        Detector.syncHistoryList g' =
          List.filter (λ en, negb (String.eqb (Detector.se_location en) ""))
            (take 5 (Trail.pushed g time :: Trail.recent g)) ∧
        (length (Detector.syncHistoryList g') <= 5)%nat.
Proof.
  intros Hring. destruct (pushSync_recent g time Hring) as (g' & Hp & Hlen & Hidx & Hrec).
  destruct Hring as [Hl Hi].
  exists g'. split; [done|]. split; [done|].
  split; [apply syncHistoryList_recent; lia|].
  assert (Hl' : Detector.syncHistoryList g' =
                List.filter (λ en, negb (String.eqb (Detector.se_location en) ""))
                  (take 5 (Trail.pushed g time :: Trail.recent g))).
  { rewrite <- Hrec. apply syncHistoryList_recent. lia. }
  split; [done|]. rewrite Hl'.
  etransitivity; [apply List.filter_length_le|].
  rewrite length_take. lia.
Qed.

Lemma pushSync_keeps_the_five_most_recent_witness :
  ∃ g', Detector.pushSync (Examples.blockedOn "sync" 200) 300 = Some g' ∧
        Detector.syncHistoryList g' =
          [{| Detector.se_location := "/src/app/main.go:12";
              Detector.se_endTime := 300 |}].
Proof.
  destruct (pushSync_keeps_the_five_most_recent (Examples.blockedOn "sync" 200) 300)
    as (g' & Hpush & _ & _ & Hlist & _).
  - split; [reflexivity|]. split; [vm_compute; discriminate|vm_compute; reflexivity].
  - exists g'. split; [exact Hpush|]. rewrite Hlist. vm_compute. reflexivity.
Defined.

(** ** The helpers of the debug dump *)

Section DebugFacts.
Import GoStrings GoTime Detector Debug.

Local Notation "a +++ b" := (String.append a b) (at level 60, right associativity).
Local Arguments String.append !_ _ / : simpl nomatch.

Lemma dropBytes_spec k s :
  (k <= String.length s)%nat →
  ∃ p, s = p +++ dropBytes k s ∧ String.length p = k ∧
       String.length (dropBytes k s) = (String.length s - k)%nat.
Proof.
  revert s. induction k as [|k IH]; intros s Hk.
  - exists "". simpl. split; [done|]. split; [done | lia].
  - destruct s as [|c s]; simpl in Hk; [lia|].
    destruct (IH s ltac:(lia)) as (p & Hs & Hp & Hl).
    exists (String c p). simpl. split; [by f_equal|]. split; [by f_equal | done].
Qed.

Lemma splitLines_loop_spec rest : ∀ line lines,
  splitLines_loop rest line lines =
  lines ++
  List.filter (λ l, negb (String.eqb l ""))
    (match Split rest newline with
     | [] => [line]
     | p :: ps => (line +++ p) :: ps
     end).
Proof.
  induction rest as [|c rest IH]; intros line lines; simpl.
  - rewrite sapp_nil_r. destruct (String.eqb line ""); simpl;
      [by rewrite app_nil_r | done].
  - destruct (Ascii.eqb c newline) eqn:Hc.
    + rewrite sapp_nil_r. simpl.
      destruct (String.eqb line ""); simpl; rewrite IH; simpl.
      * by destruct (Split rest newline).
      * rewrite <- app_assoc. simpl. by destruct (Split rest newline).
    + rewrite IH. pose proof (Split_nonempty rest newline) as Hne.
      destruct (Split rest newline) as [|p ps]; [done|].
      by rewrite sapp_assoc.
Qed.

Lemma Split_no_sep s sep line :
  In line (Split s sep) → ∀ a b, line ≠ a +++ String sep b.
Proof.
  revert line. induction s as [|c s IH]; intros line; simpl.
  - intros [<-|[]] a b. by destruct a.
  - destruct (Ascii.eqb_spec c sep) as [->|Hne].
    + intros [<-|Hin]; [intros a b; by destruct a | by apply IH].
    + pose proof (Split_nonempty s sep) as Hnil.
      destruct (Split s sep) as [|p ps] eqn:Hs; [done|].
      intros [<-|Hin]; [|apply IH; by right].
      intros [|x a] b; simpl; intros [= Hx Hp]; [done|].
      by apply (IH p ltac:(by left) a b).
Qed.

End DebugFacts.

(** X13. [truncate(s, n)] with [n] of 3 or more returns [s] itself when it
    has at most [n] bytes, and otherwise three dots followed by the last
    [n - 3] bytes of [s], [n] bytes in all; with [n] below 3 it panics on
    every string longer than [n]. *)
Theorem truncate_keeps_the_end
    (s : string) (n : Z) :
  Debug.len s < 2 ^ 62 →
  - 2 ^ 62 <= n →
  (3 <= n →
     ∃ r, Debug.truncate s n = Some r ∧ Debug.len r <= n ∧
          (Debug.len s <= n → r = s) ∧
          (n < Debug.len s →
             Debug.len r = n ∧
             ∃ p t, s = String.append p t ∧ r = String.append "..." t)) ∧
  (n < 3 → n < Debug.len s → Debug.truncate s n = None).
Proof.
  intros Hlen Hn. unfold Debug.truncate, Debug.sliceFrom.
  assert (Hmax : GoTime.int64_max = 2 ^ 63 - 1) by done.
  destruct (Z.leb_spec (Debug.len s) n) as [Hle|Hgt].
  { split; [|lia]. intros _. exists s. split; [done|]. split; [done|].
    split; [done | lia]. }
  assert (Hw1 : GoTime.wrap64 (Debug.len s - n) = Debug.len s - n).
  { apply wrap64_id. unfold GoTime.in_int64, GoTime.int64_min.
    unfold Debug.len in *. lia. }
  rewrite Hw1. split.
  - intros H3.
    assert (Hw2 : GoTime.wrap64 (Debug.len s - n + 3) = Debug.len s - n + 3).
    { apply wrap64_id. unfold GoTime.in_int64, GoTime.int64_min.
      unfold Debug.len in *. lia. }
    rewrite Hw2.
    destruct (Z.ltb_spec (Debug.len s - n + 3) 0) as [|_]; [lia|].
    destruct (Z.gtb_spec (Debug.len s - n + 3) (Debug.len s)) as [|_]; [lia|].
    simpl.
    destruct (dropBytes_spec (Z.to_nat (Debug.len s - n + 3)) s)
      as (p & Hs & Hp & Hl).
    { unfold Debug.len in *. lia. }
    eexists. split; [reflexivity|].
    assert (Hr : Debug.len
                   (String.append "..."
                      (Debug.dropBytes (Z.to_nat (Debug.len s - n + 3)) s)) = n).
    { unfold Debug.len in *. rewrite append_length, Hl. simpl. lia. }
    split; [lia|]. split; [lia|]. intros _. split; [done|].
    by exists p, (Debug.dropBytes (Z.to_nat (Debug.len s - n + 3)) s).
  - intros H3 _.
    destruct (Z.leb_spec (Debug.len s - n + 3) GoTime.int64_max) as [Hin|Hout].
    + assert (Hw2 : GoTime.wrap64 (Debug.len s - n + 3) = Debug.len s - n + 3).
      { apply wrap64_id. unfold GoTime.in_int64, GoTime.int64_min.
        unfold Debug.len in *. lia. }
      rewrite Hw2.
      destruct (Z.gtb_spec (Debug.len s - n + 3) (Debug.len s)) as [_|]; [|lia].
      by rewrite orb_true_r.
    + assert (Hneg : GoTime.wrap64 (Debug.len s - n + 3) < 0).
      { unfold GoTime.wrap64.
        replace (Debug.len s - n + 3 + 2 ^ 63)
          with ((Debug.len s - n + 3 - 2 ^ 63) + 1 * 2 ^ 64) by lia.
        rewrite Z.mod_add by lia.
        rewrite Z.mod_small; unfold Debug.len in *; lia. }
      destruct (Z.ltb_spec (GoTime.wrap64 (Debug.len s - n + 3)) 0); [done | lia].
Qed.

Lemma truncate_keeps_the_end_witness :
  Debug.truncate "/home/user/project/internal/server/handler.go:120" 20 =
    Some "...er/handler.go:120" ∧
  Debug.truncate "abcdef" 2 = None.
Proof.
  destruct (truncate_keeps_the_end
              "/home/user/project/internal/server/handler.go:120" 20)
    as [H _]; [vm_compute; reflexivity | vm_compute; discriminate |].
  destruct (truncate_keeps_the_end "abcdef" 2)
    as [_ H']; [vm_compute; reflexivity | vm_compute; discriminate |].
  split.
  - destruct H as (r & Hr & _); [lia|]. rewrite Hr. f_equal.
    vm_compute in Hr. by injection Hr as <-.
  - apply H'; [lia | vm_compute; reflexivity].
Defined.

(** X14. [splitLines(s)] returns, in order, the pieces of
    [strings.Split(s, "\n")] that are not empty: no line it returns is
    empty or holds a newline. *)
Theorem splitLines_nonempty_pieces (s : string) :
  Debug.splitLines s =
    List.filter (λ l, negb (String.eqb l ""))
      (GoStrings.Split s Detector.newline) ∧
  ∀ line, In line (Debug.splitLines s) →
    line ≠ "" ∧
    ∀ a b, line ≠ String.append a (String Detector.newline b).
Proof.
  assert (Heq : Debug.splitLines s =
                List.filter (λ l, negb (String.eqb l ""))
                  (GoStrings.Split s Detector.newline)).
  { unfold Debug.splitLines. rewrite splitLines_loop_spec. simpl.
    pose proof (Split_nonempty s Detector.newline).
    by destruct (GoStrings.Split s Detector.newline). }
  split; [done|]. intros line. rewrite Heq. intros Hin.
  apply List.filter_In in Hin as [Hin Hne]. split.
  - intros ->. done.
  - exact (Split_no_sep s Detector.newline line Hin).
Qed.

(** ** The summary of the terminal report *)

Section Summary.
Import GoStrings GoTime Detector Views Terminal.

Lemma countKind_loop_spec kind findings : ∀ n,
  0 <= n → n + Z.of_nat (length findings) <= int64_max →
  countKind_loop findings kind n = n + Z.of_nat (tally kind findings).
Proof.
  induction findings as [|f findings IH]; intros n Hn Hlen; simpl.
  - unfold tally. simpl. lia.
  - simpl in Hlen. unfold tally. simpl.
    destruct (String.eqb (Kind_ f) kind); simpl.
    + rewrite wrap64_id
        by (unfold in_int64, int64_min, int64_max in *; lia).
      rewrite IH by lia. unfold tally. lia.
    + rewrite IH by lia. unfold tally. lia.
Qed.

Lemma detectLeaks_body_kind lastTime opts gid g f :
  detectLeaks_body lastTime opts gid g = Some f →
  (Kind_ f = KindGoroutineLeak ∧ Confidence_ f = ConfidenceHigh) ∨
  (Kind_ f = KindLongBlock ∧ Confidence_ f = ConfidenceMedium).
Proof.
  unfold detectLeaks_body. intros H.
  repeat match type of H with
         | (if ?c then _ else _) = Some _ => destruct c; try done
         end;
    injection H as <-; simpl; auto.
Qed.

(** The kinds and confidences the six detectors emit. *)
Lemma runDetectors_kinds it lastTime traceDuration opts f :
  In f (runDetectors it lastTime traceDuration opts) →
  (Kind_ f = KindGoroutineLeak ∧
   (Confidence_ f = ConfidenceHigh ∨ Confidence_ f = ConfidenceLow)) ∨
  (Kind_ f = KindDeadlock ∧ Confidence_ f = ConfidenceMedium) ∨
  (Kind_ f = KindLongBlock ∧ Confidence_ f = ConfidenceMedium).
Proof.
  unfold runDetectors. intros Hin.
  repeat (apply in_app_or in Hin as [Hin|Hin]).
  - apply detectLeaks_In in Hin as (gid & g & _ & Hb).
    apply detectLeaks_body_kind in Hb as [[-> ->]|[-> ->]]; auto.
  - apply detectDeadlocks_kind in Hin as [-> ->]. auto.
  - apply detectTransientBlocks_kind in Hin as [-> ->]. auto.
  - apply detectABBA_kind in Hin as [-> ->]. auto.
  - apply detectChanLockCycle_kind in Hin as [-> ->]. auto.
  - apply detectOrphans_In in Hin as (_ & gid & g & _ & Hb).
    apply detectOrphans_body_Some in Hb as [-> _]. simpl. auto.
Qed.

Lemma tally_three findings :
  (∀ f, In f findings →
     Kind_ f = KindGoroutineLeak ∨ Kind_ f = KindDeadlock ∨
     Kind_ f = KindLongBlock) →
  (tally KindGoroutineLeak findings + tally KindDeadlock findings +
   tally KindLongBlock findings = length findings)%nat.
Proof.
  unfold tally. induction findings as [|f findings IH]; intros Hall; [done|].
  simpl. specialize (IH (λ f0 H0, Hall f0 (or_intror H0))).
  destruct (Hall f (or_introl eq_refl)) as [-> | [-> | ->]]; simpl; lia.
Qed.

Lemma tally_static kind findings statics :
  kind ≠ KindLockLeak →
  tally kind (findings ++ map Cmd.staticToFinding statics) = tally kind findings.
Proof.
  intros Hk. unfold tally. rewrite List.filter_app, length_app.
  assert (H0 : List.filter (λ f, String.eqb (Kind_ f) kind)
                 (map Cmd.staticToFinding statics) = []).
  { induction statics as [|sf statics IH]; [done|].
    cbn [map List.filter]. unfold Cmd.staticToFinding at 1. cbn [Kind_].
    destruct (String.eqb_spec KindLockLeak kind) as [He|_]; [|done].
    by destruct Hk. }
  rewrite H0. simpl. lia.
Qed.

End Summary.

(** X15. The three counts of the summary of the terminal report
    (goroutine leaks, deadlocks, long blocks) add up to the number of
    findings of [Analyze]; a finding added for the static analyzer is
    counted by none of them. *)
Theorem terminal_summary_counts_the_findings_of_Analyze
    (path : string) (events : list Trace.Event) (opts : Detector.Options)
    (it : Detector.iteration) (r : Detector.Result)
    (statics : list Static.Finding) :
  Detector.Analyze path events opts it = Some r →
  let shown := Detector.Findings (Cmd.withStatic r statics) in
  Z.of_nat (length shown) <= GoTime.int64_max →
  Terminal.countKind shown Detector.KindGoroutineLeak +
  Terminal.countKind shown Detector.KindDeadlock +
  Terminal.countKind shown Detector.KindLongBlock =
    Z.of_nat (length (Detector.Findings r)) ∧
  Z.of_nat (length shown) =
    Z.of_nat (length (Detector.Findings r)) + Z.of_nat (length statics).
Proof.
  intros Hres shown Hlen.
  assert (Hshown : shown = Detector.Findings r ++ map Cmd.staticToFinding statics).
  { subst shown. simpl. apply appendStatic_spec. }
  unfold Terminal.countKind.
  rewrite !countKind_loop_spec by lia. rewrite Hshown.
  rewrite !tally_static by done.
  split; [|rewrite length_app, length_map; lia].
  assert (Hk : ∀ f, In f (Detector.Findings r) →
            Detector.Kind_ f = Detector.KindGoroutineLeak ∨
            Detector.Kind_ f = Detector.KindDeadlock ∨
            Detector.Kind_ f = Detector.KindLongBlock).
  { unfold Detector.Analyze in Hres.
    destruct (Detector.runEvents Detector.initEngine events) as [e|]; [|done].
    injection Hres as <-. simpl. intros f Hin.
    apply runDetectors_kinds in Hin as [[-> _]|[[-> _]|[-> _]]]; auto. }
  pose proof (tally_three _ Hk). lia.
Qed.

Lemma terminal_summary_counts_the_findings_of_Analyze_witness :
  ∃ r,
    Detector.Analyze "trace.out" Examples.receiveLeak Examples.opts1s
      (Examples.forward Examples.receiveLeak) = Some r ∧
    let shown := Detector.Findings (Cmd.withStatic r [Examples.lockLeak]) in
    Terminal.countKind shown Detector.KindGoroutineLeak +
    Terminal.countKind shown Detector.KindDeadlock +
    Terminal.countKind shown Detector.KindLongBlock = 1 ∧
    Z.of_nat (length shown) = 2.
Proof.
  destruct (Detector.Analyze "trace.out" Examples.receiveLeak Examples.opts1s
              (Examples.forward Examples.receiveLeak)) as [r|] eqn:E;
    [|vm_compute in E; discriminate].
  assert (Hlen : length (Detector.Findings r) = 1%nat).
  { vm_compute in E. injection E as <-. reflexivity. }
  exists r. split; [reflexivity|].
  destruct (terminal_summary_counts_the_findings_of_Analyze "trace.out"
              Examples.receiveLeak Examples.opts1s
              (Examples.forward Examples.receiveLeak) r [Examples.lockLeak] E)
    as [Hsum Htotal].
  - unfold Cmd.withStatic. cbn [Detector.Findings Cmd.appendStatic Examples.lockLeak].
    rewrite length_app, Hlen. vm_compute. discriminate.
  - cbv zeta. rewrite Hsum, Htotal, Hlen. split; reflexivity.
Defined.

(** ** [runMulti] *)

Section MultiFacts.
Import GoStrings GoTime Tracer.
Variable stat : string → option Z.

Local Notation "a +++ b" := (String.append a b) (at level 60, right associativity).



End MultiFacts.

Section RemoveFacts.
Import GoStrings GoTime Tracer.


End RemoveFacts.



(** ** [joinArgs] and the retry loop of [runRun] *)

Section RunFacts.
Import GoStrings GoTime Run.

Local Notation "a +++ b" := (String.append a b) (at level 60, right associativity).
Local Arguments String.append !_ _ / : simpl nomatch.

Lemma joinArgs_loop_spec args : ∀ i acc,
  joinArgs_loop args i acc =
  match args with
  | [] => acc
  | _ => acc +++ (if (0 <? i)%nat then " " else "") +++ String.concat " " args
  end.
Proof.
  induction args as [|a args IH]; intros i acc; [done|].
  cbn [joinArgs_loop]. rewrite IH.
  destruct args as [|b args].
  - simpl. destruct (0 <? i)%nat; by rewrite ?sapp_assoc.
  - change (0 <? S i)%nat with true. cbn [String.concat].
    destruct (0 <? i)%nat; rewrite !sapp_assoc; simpl; done.
Qed.

Lemma Split_no_space a :
  Contains a " " = false → Split a Detector.space = [a].
Proof.
  induction a as [|c a IH]; [done|]. cbn [Contains]. intros H.
  apply orb_false_iff in H as [Hp H]. simpl.
  destruct (Ascii.eqb_spec c Detector.space) as [->|Hne].
  - by destruct a.
  - by rewrite (IH H).
Qed.

Lemma Split_app_space a rest :
  Contains a " " = false →
  Split (a +++ String Detector.space rest) Detector.space = a :: Split rest Detector.space.
Proof.
  induction a as [|c a IH]; intros H.
  - simpl. done.
  - cbn [Contains] in H. apply orb_false_iff in H as [Hp H]. simpl.
    destruct (Ascii.eqb_spec c Detector.space) as [->|Hne].
    + by destruct a.
    + by rewrite (IH H).
Qed.

Lemma Split_concat args :
  args ≠ [] → Forall (λ a, Contains a " " = false) args →
  Split (String.concat " " args) Detector.space = args.
Proof.
  induction args as [|a args IH]; [done|]. intros _ Hall.
  apply List.Forall_cons_iff in Hall as [Ha Hall].
  destruct args as [|b args].
  - simpl. by apply Split_no_space.
  - assert (Hc : String.concat " " (a :: b :: args) =
                 a +++ String Detector.space (String.concat " " (b :: args)))
      by reflexivity.
    rewrite Hc, Split_app_space by done. f_equal. by apply IH.
Qed.

(** *** The retry loop *)

Variable run : Z → option Tracer.RunResult.
Variable analyze : string → option Detector.Result.

Lemma retry_loop_break values st :
  hasFindings (result st) = true → retry_loop run analyze values st = st.
Proof. intros H. destruct values; simpl; [done | by rewrite H]. Qed.

Lemma not_adopted gmp r :
  ¬ adopted run analyze gmp → run gmp = Some r →
  match analyze (Tracer.TraceFile r) with
  | Some res => hasFindings res = false
  | None => True
  end.
Proof.
  intros Hn Hr. destruct (analyze (Tracer.TraceFile r)) as [res|] eqn:Ha; [|done].
  destruct (hasFindings res) eqn:Hf; [|done].
  destruct Hn. by exists r, res.
Qed.

(** Retries none of which is adopted: every trace they leave is removed. *)
Lemma retry_loop_none values : ∀ st,
  hasFindings (result st) = false →
  (∀ gmp, In gmp values → ¬ adopted run analyze gmp) →
  retry_loop run analyze values st =
  {| result := result st; traceToClean := traceToClean st;
     removed := removed st ++ produced run values |}.
Proof.
  induction values as [|gmp values IH]; intros st Hno Hall.
  - simpl. rewrite app_nil_r. by destruct st.
  - cbn [retry_loop produced flat_map]. rewrite Hno.
    pose proof (Hall gmp ltac:(by left)) as Hn.
    destruct (run gmp) as [r|] eqn:Hr.
    + pose proof (not_adopted gmp r Hn Hr) as Ha.
      assert (Hstep : ∀ A (x y : A), (if hasFindings (result st) then x else y) = y)
        by (intros; by rewrite Hno).
      destruct (analyze (Tracer.TraceFile r)) as [res|].
      * rewrite Ha. rewrite IH; [|done|intros g Hg; apply Hall; by right].
        simpl. by rewrite <- app_assoc.
      * rewrite IH; [|done|intros g Hg; apply Hall; by right].
        simpl. by rewrite <- app_assoc.
    + rewrite IH; [|done|intros g Hg; apply Hall; by right]. done.
Qed.

End RunFacts.

(** X17. [joinArgs] joins the arguments with single spaces, and
    [strings.Split] on a space gives the arguments back when there is at
    least one and none of them holds a space. *)
Theorem joinArgs_round_trip (args : list string) :
  Run.joinArgs args = String.concat " " args ∧
  (args ≠ [] →
   Forall (λ a, GoStrings.Contains a " " = false) args →
   GoStrings.Split (Run.joinArgs args) Detector.space = args).
Proof.
  assert (Heq : Run.joinArgs args = String.concat " " args).
  { unfold Run.joinArgs. rewrite joinArgs_loop_spec. by destruct args. }
  split; [done|]. intros Hne Hall. rewrite Heq. by apply Split_concat.
Qed.

Lemma joinArgs_round_trip_witness :
  GoStrings.Split (Run.joinArgs ["./..."; "-run"; "TestLeak"]) Detector.space =
    ["./..."; "-run"; "TestLeak"].
Proof.
  apply (joinArgs_round_trip ["./..."; "-run"; "TestLeak"]).
  - discriminate.
  - repeat constructor.
Defined.

(** X18. The retry loop of [runRun] does nothing when the first analysis
    has findings.  Otherwise it adopts the first retry whose analysis has
    findings and keeps that trace; the trace of the first run and the
    trace of every earlier retry that ran have then been removed.  When no
    retry has findings, the first result and its trace are kept and every
    trace the retries left has been removed. *)
Theorem retry_loop_adopts_the_first_run_with_findings
    (run : Z → option Tracer.RunResult)
    (analyze : string → option Detector.Result)
    (values : list Z) (st : Run.retryState) :
  let st' := Run.retry_loop run analyze values st in
  (Run.hasFindings (Run.result st) = true → st' = st) ∧
  (Run.hasFindings (Run.result st) = false →
   (∀ gmp, In gmp values → ¬ Run.adopted run analyze gmp) →
   Run.result st' = Run.result st ∧
   Run.traceToClean st' = Run.traceToClean st ∧
   Run.removed st' = Run.removed st ++ Run.produced run values) ∧
  (Run.hasFindings (Run.result st) = false →
   ∀ pre gmp post r res,
     values = pre ++ gmp :: post →
     (∀ g, In g pre → ¬ Run.adopted run analyze g) →
     run gmp = Some r → analyze (Tracer.TraceFile r) = Some res →
     Run.hasFindings res = true →
     Run.result st' = res ∧
     Run.traceToClean st' = Tracer.TraceFile r ∧
     Run.removed st' =
       Run.removed st ++ Run.produced run pre ++ [Run.traceToClean st]).
Proof.
  intros st'. split; [|split].
  - intros H. by apply retry_loop_break.
  - intros Hno Hall. subst st'. rewrite retry_loop_none by done. done.
  - intros Hno pre gmp post r res -> Hpre Hr Ha Hf. subst st'.
    assert (Happ : ∀ l1 l2 s,
              Run.hasFindings (Run.result s) = false →
              (∀ g, In g l1 → ¬ Run.adopted run analyze g) →
              Run.retry_loop run analyze (l1 ++ l2) s =
              Run.retry_loop run analyze l2
                {| Run.result := Run.result s;
                   Run.traceToClean := Run.traceToClean s;
                   Run.removed := Run.removed s ++ Run.produced run l1 |}).
    { induction l1 as [|g l1 IH]; intros l2 s Hs Hl1.
      - simpl. rewrite app_nil_r. by destruct s.
      - cbn [app Run.retry_loop Run.produced flat_map]. rewrite Hs.
        pose proof (Hl1 g ltac:(by left)) as Hn.
        assert (Hl1' : ∀ g0, In g0 l1 → ¬ Run.adopted run analyze g0)
          by (intros g0 Hg0; apply Hl1; by right).
        destruct (run g) as [r0|] eqn:Hr0.
        + pose proof (not_adopted run analyze g r0 Hn Hr0) as Ha0.
          destruct (analyze (Tracer.TraceFile r0)) as [res0|].
          * rewrite Ha0, IH by done. simpl. by rewrite <- app_assoc.
          * rewrite IH by done. simpl. by rewrite <- app_assoc.
        + rewrite IH by done. done. }
    rewrite Happ by done. cbn [Run.retry_loop Run.result]. rewrite Hno, Hr.
    cbn [Run.removed Run.traceToClean]. rewrite Ha, Hf.
    rewrite retry_loop_break by done. simpl. by rewrite <- app_assoc.
Qed.

(** ** The JSON report *)

Section JsonFacts.
Import GoStrings GoTime Reporter.

Lemma member_omitempty key k v rest :
  String.eqb k key = false →
  member key (omitempty k v ++ rest) = member key rest.
Proof.
  intros Hk. unfold omitempty. destruct (String.eqb v ""); [done|].
  simpl. by rewrite Hk.
Qed.

Lemma member_omitempty_hit key v rest :
  member key (omitempty key v ++ rest) =
  if String.eqb v "" then member key rest else Some (jsonString v).
Proof.
  unfold omitempty. destruct (String.eqb v ""); [done|].
  simpl. by rewrite String.eqb_refl.
Qed.

Lemma encodeFinding_members jf :
  field "function" (encodeFinding jf) =
    (if String.eqb (Function jf) "" then None else Some (jsonString (Function jf))) ∧
  field "location" (encodeFinding jf) =
    (if String.eqb (Location jf) "" then None else Some (jsonString (Location jf))) ∧
  field "stack" (encodeFinding jf) =
    (if String.eqb (Stack jf) "" then None else Some (jsonString (Stack jf))) ∧
  field "explanation" (encodeFinding jf) =
    (if String.eqb (Explanation jf) "" then None
     else Some (jsonString (Explanation jf))).
Proof.
  unfold encodeFinding, field, omitempty.
  destruct (String.eqb (Function jf) ""), (String.eqb (Location jf) ""),
           (String.eqb (Stack jf) ""), (String.eqb (Explanation jf) "");
    repeat split; reflexivity.
Qed.

(** The encoder leaves valid UTF-8 as it is. *)
Lemma jsonText_from_valid s : ∀ skip,
  GoUTF8.ValidString_from skip s = true → GoUTF8.jsonText_from skip s = s.
Proof.
  induction s as [|c s IH]; intros skip; [done|].
  cbn [GoUTF8.ValidString_from GoUTF8.jsonText_from].
  destruct skip as [|k].
  - destruct (GoUTF8.runeWidth (String c s)) as [|k]; [done|].
    intros H. by rewrite IH.
  - intros H. by rewrite IH.
Qed.

(** Every byte that is not part of a valid encoding makes the text
    longer: it is never left as it is. *)
Lemma jsonText_from_fixed s : ∀ skip,
  GoUTF8.jsonText_from skip s = s → GoUTF8.ValidString_from skip s = true.
Proof.
  assert (Hlen : ∀ s skip,
            (String.length s <= String.length (GoUTF8.jsonText_from skip s))%nat).
  { clear. induction s as [|c s IH]; intros skip; [done|].
    cbn [GoUTF8.jsonText_from].
    destruct skip as [|k].
    - destruct (GoUTF8.runeWidth (String c s)) as [|k].
      + specialize (IH 0%nat). rewrite append_length.
        unfold GoUTF8.replacement. cbn [String.length]. lia.
      + specialize (IH k). cbn [String.length]. lia.
    - specialize (IH k). cbn [String.length]. lia. }
  induction s as [|c s IH]; intros skip; [done|].
  cbn [GoUTF8.ValidString_from GoUTF8.jsonText_from].
  destruct skip as [|k].
  - destruct (GoUTF8.runeWidth (String c s)) as [|k].
    + intros H. apply (f_equal String.length) in H.
      pose proof (Hlen s 0%nat). rewrite append_length in H.
      unfold GoUTF8.replacement in H. cbn [String.length] in H. lia.
    + intros [= H]. by apply IH.
  - intros [= H]. by apply IH.
Qed.

End JsonFacts.

(** X19. In the JSON report the explanation stands once, at top level
    under [llm_explanation], and only when it is not empty; the array of
    findings has one object per finding, none of which has an
    [explanation] member; the members [function], [location] and [stack]
    of an object are left out exactly when the field is empty.  A member
    that is written carries the text of the field as [encoding/json]
    writes it: the field itself exactly when it is valid UTF-8, and
    otherwise the field with each byte outside a valid encoding replaced
    by U+FFFD. *)
Theorem WriteJSON_explanation_is_top_level
    (result : Detector.Result) (explanation : string) :
  let j := Reporter.WriteJSON result explanation in
  Reporter.field "llm_explanation" j =
    (if String.eqb explanation "" then None
     else Some (Reporter.JString (GoUTF8.jsonText explanation))) ∧
  Reporter.reportFindings j =
    map (λ f, Reporter.encodeFinding (Reporter.toJsonFinding f))
      (Detector.Findings result) ∧
  (∀ f,
     let o := Reporter.encodeFinding (Reporter.toJsonFinding f) in
     Reporter.field "explanation" o = None ∧
     Reporter.field "function" o =
       (if String.eqb (Detector.Function f) "" then None
        else Some (Reporter.JString (GoUTF8.jsonText (Detector.Function f)))) ∧
     Reporter.field "location" o =
       (if String.eqb (Detector.Location f) "" then None
        else Some (Reporter.JString (GoUTF8.jsonText (Detector.Location f)))) ∧
     Reporter.field "stack" o =
       (if String.eqb (Detector.Stack f) "" then None
        else Some (Reporter.JString (GoUTF8.jsonText (Detector.Stack f))))) ∧
  (∀ s, GoUTF8.jsonText s = s ↔ GoUTF8.ValidString s = true).
Proof.
  intros j. split; [|split; [|split]].
  - subst j. unfold Reporter.WriteJSON, Reporter.field, Reporter.omitempty.
    by destruct (String.eqb explanation "").
  - apply reportFindings_WriteJSON.
  - intros f o.
    destruct (encodeFinding_members (Reporter.toJsonFinding f))
      as (H1 & H2 & H3 & H4).
    done.
  - intros s. split.
    + apply jsonText_from_fixed.
    + apply jsonText_from_valid.
Qed.

(** X20. The member [blocked_for_ms] of a finding is its duration rounded
    to the nearest millisecond, halves upwards, for every duration that is
    not negative; the member [goroutine_id] is the goroutine's number
    when that is not negative. *)
Theorem blocked_for_ms_rounds_to_the_nearest_millisecond (f : Detector.Finding) :
  0 <= Detector.BlockedFor f <= GoTime.int64_max - 1000000 →
  Reporter.BlockedForMs (Reporter.toJsonFinding f) =
    (Detector.BlockedFor f + 500000) / 1000000 ∧
  (0 <= Detector.GoroutineID f <= GoTime.int64_max →
   Reporter.GoroutineID (Reporter.toJsonFinding f) = Detector.GoroutineID f).
Proof.
  intros Hd. split.
  2:{ intros Hg. simpl. unfold Reporter.to_uint64.
      apply Z.mod_small. unfold GoTime.int64_max in Hg. lia. }
  simpl. set (d := Detector.BlockedFor f) in *.
  unfold GoTime.Round, GoTime.Millisecond, GoTime.Milliseconds, GoTime.lessThanHalf.
  unfold GoTime.int64_max in Hd.
  change (1000000 <=? 0) with false. cbv iota.
  destruct (Z.ltb_spec d 0) as [|_]; [lia|].
  rewrite Z.rem_mod_nonneg by lia.
  pose proof (Z.mod_pos_bound d 1000000 ltac:(lia)) as Hr.
  set (r := d mod 1000000) in *.
  rewrite (Z.mod_small (r + r)), (Z.mod_small 1000000) by lia.
  assert (Hdm : d = 1000000 * (d / 1000000) + r) by (apply Z.div_mod; lia).
  destruct (Z.ltb_spec (r + r) 1000000) as [Hlt|Hge].
  - rewrite wrap64_id
      by (unfold GoTime.in_int64, GoTime.int64_min, GoTime.int64_max; lia).
    rewrite Z.quot_div_nonneg by lia.
    replace (d - r) with (0 + (d / 1000000) * 1000000) by lia.
    rewrite Z.div_add by lia. simpl.
    replace (d + 500000) with ((r + 500000) + (d / 1000000) * 1000000) by lia.
    rewrite Z.div_add by lia. rewrite (Z.div_small (r + 500000)) by lia. done.
  - assert (H1 : GoTime.wrap64 (d + 1000000) = d + 1000000).
    { apply wrap64_id.
      unfold GoTime.in_int64, GoTime.int64_min, GoTime.int64_max; lia. }
    assert (H2 : GoTime.wrap64 (d + 1000000 - r) = d + 1000000 - r).
    { apply wrap64_id.
      unfold GoTime.in_int64, GoTime.int64_min, GoTime.int64_max; lia. }
    rewrite H1, H2.
    destruct (Z.gtb_spec (d + 1000000 - r) d) as [_|]; [|lia].
    rewrite Z.quot_div_nonneg by lia.
    replace (d + 1000000 - r) with (0 + (d / 1000000 + 1) * 1000000) by lia.
    rewrite Z.div_add by lia. simpl.
    replace (d + 500000)
      with ((r - 500000) + (d / 1000000 + 1) * 1000000) by lia.
    rewrite Z.div_add by lia. rewrite (Z.div_small (r - 500000)) by lia. done.
Qed.

Lemma blocked_for_ms_rounds_to_the_nearest_millisecond_witness :
  Reporter.BlockedForMs
    (Reporter.toJsonFinding
       (Detector.mkFinding Detector.KindGoroutineLeak Detector.ConfidenceHigh
          18 "chan receive" 299500000 "" "main.worker" "/src/app/main.go:12")) =
  300.
Proof.
  apply (blocked_for_ms_rounds_to_the_nearest_millisecond
           (Detector.mkFinding Detector.KindGoroutineLeak Detector.ConfidenceHigh
              18 "chan receive" 299500000 "" "main.worker" "/src/app/main.go:12")).
  vm_compute. split; discriminate.
Defined.

(** ** Rendered stacks and the runtime filter *)

Section PlainFrames.
Import GoStrings GoTime Trace Detector Views Trail.

Local Notation "a +++ b" := (String.append a b) (at level 60, right associativity).
Local Arguments String.append !_ _ / : simpl nomatch.

Lemma renderFrame_text f :
  renderFrame f = "      " +++ frameText f +++ String newline "".
Proof.
  unfold renderFrame, frameText. f_equal. rewrite !sapp_assoc. done.
Qed.

Lemma renderStack_fold frames : ∀ sb,
  fold_left (λ sb f, sb +++ renderFrame f) frames sb =
  sb +++ fold_right (λ f acc, renderFrame f +++ acc) "" frames.
Proof.
  induction frames as [|f frames IH]; intros sb; simpl.
  - by rewrite sapp_nil_r.
  - by rewrite IH, sapp_assoc.
Qed.

Lemma renderStack_concat frames :
  renderStack frames = fold_right (λ f acc, renderFrame f +++ acc) "" frames.
Proof. unfold renderStack. by rewrite renderStack_fold. Qed.

Lemma hasByte_app c a b : hasByte c (a +++ b) = hasByte c a || hasByte c b.
Proof.
  induction a as [|x a IH]; simpl; [done|]. by rewrite IH, orb_assoc.
Qed.

Lemma hasByte_digits c u :
  (N_of_ascii c <? 48)%N = true →
  hasByte c (NilEmpty.string_of_uint u) = false.
Proof.
  intros Hc.
  assert (Hd : ∀ d : ascii, (48 <=? N_of_ascii d)%N = true → Ascii.eqb d c = false).
  { intros d Hd. apply Ascii.eqb_neq. intros ->.
    apply N.ltb_lt in Hc. apply N.leb_le in Hd. lia. }
  induction u; cbn [NilEmpty.string_of_uint hasByte]; [done|..];
    rewrite IHu, Hd by done; done.
Qed.

Lemma Split_app_sep sep a rest :
  hasByte sep a = false →
  Split (a +++ String sep rest) sep = a :: Split rest sep.
Proof.
  induction a as [|c a IH]; intros H; simpl.
  - by rewrite Ascii.eqb_refl.
  - simpl in H. apply orb_false_iff in H as [Hc H].
    rewrite Hc, (IH H). done.
Qed.

Lemma frameText_no_newline f :
  plainFrame f → hasByte newline ("      " +++ frameText f) = false.
Proof.
  intros (_ & _ & Hfn & Hfile). unfold frameText.
  rewrite !hasByte_app, Hfn, Hfile, hasByte_digits by done. done.
Qed.

Lemma Split_rendered frames :
  Forall plainFrame frames →
  Split (fold_right (λ f acc, renderFrame f +++ acc) "" frames) newline =
  map (λ f, "      " +++ frameText f) frames ++ [""].
Proof.
  induction frames as [|f frames IH]; intros Hall; [done|].
  apply List.Forall_cons_iff in Hall as [Hf Hall].
  cbn [fold_right map app]. rewrite renderFrame_text, !sapp_assoc.
  change (String newline "" +++ ?x) with (String newline x).
  rewrite <- sapp_assoc.
  rewrite Split_app_sep by (by apply frameText_no_newline).
  by rewrite IH.
Qed.

Lemma printable_not_space c :
  printable c = true →
  isAsciiSpace c = false ∧
  (∀ c2, isSpace2 c c2 = false) ∧ (∀ c2 c3, isSpace3 c c2 c3 = false).
Proof.
  unfold printable, isAsciiSpace, isSpace2, isSpace3. intros H.
  apply andb_true_iff in H as [H1 H2].
  apply N.leb_le in H1. apply N.leb_le in H2.
  set (n := N_of_ascii c) in *.
  assert (E : ∀ k, (k < 33 ∨ 126 < k)%N → (n =? k)%N = false).
  { intros k Hk. apply N.eqb_neq. lia. }
  split; [|split].
  - rewrite (E 32%N) by lia. rewrite orb_false_r.
    apply andb_false_iff. right. apply N.leb_gt. lia.
  - intros c2. by rewrite (E 194%N) by lia.
  - intros c2 c3. simpl.
    by rewrite (E 225%N), (E 226%N), (E 227%N) by lia.
Qed.

Lemma TrimLeftSpace_printable c s :
  printable c = true → TrimLeftSpace (String c s) = String c s.
Proof.
  intros H. destruct (printable_not_space c H) as (H1 & H2 & H3).
  simpl. rewrite H1. destruct s as [|c2 s]; [done|]. rewrite H2.
  destruct s as [|c3 s]; [done|]. by rewrite H3.
Qed.

Lemma TrimRightSpace_paren s : TrimRightSpace (s +++ ")") = s +++ ")".
Proof.
  unfold TrimRightSpace. rewrite rev_string_app.
  change (rev_string (rev_string "" s) ")")
    with (String ")"%char (rev_string "" s)).
  set (r := rev_string "" s).
  assert (Ht : TrimLeftSpace_rev (String ")" r) = String ")" r).
  { simpl. destruct r as [|c2 [|c3 r']]; try done.
    - unfold isSpace2. simpl. by rewrite andb_false_r.
    - unfold isSpace2, isSpace3. simpl. rewrite andb_false_r.
      by rewrite !andb_false_r. }
  rewrite Ht.
  change (rev_string "" (String ")"%char r)) with (rev_string (String ")"%char "") r).
  rewrite (rev_string_acc (String ")"%char "") r).
  subst r. by rewrite rev_string_involutive.
Qed.

Lemma frameText_paren f : ∃ s, frameText f = s +++ ")".
Proof.
  unfold frameText. eexists. rewrite <- !sapp_assoc. reflexivity.
Qed.

Lemma TrimSpace_rendered f :
  plainFrame f → TrimSpace ("      " +++ frameText f) = frameText f.
Proof.
  intros (Hc & _). unfold TrimSpace.
  assert (Hl : TrimLeftSpace ("      " +++ frameText f) = frameText f).
  { change ("      " +++ frameText f)
      with (String " " (String " " (String " " (String " " (String " "
              (String " " (frameText f))))))).
    do 6 (rewrite (ltac:(reflexivity) :
             ∀ s, TrimLeftSpace (String " " s) = TrimLeftSpace s)).
    unfold frameText in *. destruct (Func f) as [|c fn]; [done|].
    apply (TrimLeftSpace_printable c). done. }
  rewrite Hl. destruct (frameText_paren f) as [s ->].
  apply TrimRightSpace_paren.
Qed.

Lemma SplitN2_first_app s rest :
  hasByte space s = false →
  SplitN2_first (s +++ String space rest) space = s.
Proof.
  induction s as [|c s IH]; intros H.
  - done.
  - cbn [hasByte] in H. apply orb_false_iff in H as [Hc H].
    change (String c s +++ String space rest)
      with (String c (s +++ String space rest)).
    cbn [SplitN2_first]. by rewrite Hc, (IH H).
Qed.

Lemma isRuntimeFrame_line fn file line :
  Spec.occurs file line →
  isRuntimeFrame fn file = true → isRuntimeFrame fn line = true.
Proof.
  intros Hocc. unfold isRuntimeFrame.
  assert (Hmono : ∀ t, Contains file t = true → Contains line t = true).
  { intros t Ht. apply Contains_occurs. apply Contains_occurs in Ht.
    by eapply occurs_trans. }
  rewrite !orb_true_iff.
  intros [[[[[H|H]|H]|H]|H]|H]; auto 10.
Qed.

Lemma runtimeLine_rendered f :
  plainFrame f →
  isRuntimeFrame (Func f) (File f) = true →
  runtimeLine ("      " +++ frameText f) = true.
Proof.
  intros Hp Hrt. unfold runtimeLine. rewrite TrimSpace_rendered by done.
  destruct Hp as (Hc & Hsp & _).
  destruct (String.eqb (frameText f) ""); [done|].
  assert (Hfn : SplitN2_first (frameText f) space = Func f).
  { unfold frameText.
    change (" (" +++ ?x) with (String space ("(" +++ x)).
    by apply SplitN2_first_app. }
  rewrite Hfn. apply (isRuntimeFrame_line _ (File f)); [|done].
  unfold frameText.
  exists (Func f +++ " ("),
         (":" +++ NilEmpty.string_of_uint (N.to_uint (Line f)) +++ ")").
  by rewrite !sapp_assoc.
Qed.

(** A stack of plain frames that are all runtime frames is runtime-only
    for [isRuntimeGoroutine]. *)
Lemma isRuntimeGoroutine_rendered frames :
  Forall plainFrame frames →
  forallb (λ f, isRuntimeFrame (Func f) (File f)) frames = true →
  isRuntimeGoroutine (renderStack frames) = true.
Proof.
  intros Hp Hall. unfold isRuntimeGoroutine.
  destruct (String.eqb (renderStack frames) ""); [done|].
  rewrite renderStack_concat, Split_rendered by done.
  rewrite forallb_app. apply andb_true_iff. split; [|done].
  rewrite forallb_forall. intros line Hin.
  apply in_map_iff in Hin as (f & <- & Hf).
  apply runtimeLine_rendered.
  - by apply (proj1 (List.Forall_forall _ _) Hp).
  - by apply (proj1 (forallb_forall _ _) Hall).
Qed.

Lemma extractStack_located frames s f l :
  Forall plainFrame frames → extractStack frames = (s, f, l) →
  isRuntimeGoroutine s = false → f ≠ "" ∧ l ≠ "".
Proof.
  intros Hp. rewrite extractStack_eq. intros [= <- <- <-] Hrt.
  destruct (firstUserFrame frames) as [fr|] eqn:Hfr.
  - split; [|apply sourceLine_nonempty].
    apply find_some in Hfr as [Hin _].
    apply (proj1 (List.Forall_forall _ _) Hp) in Hin as (Hc & _).
    by destruct (Func fr).
  - rewrite isRuntimeGoroutine_rendered in Hrt; [done | done |].
    apply forallb_forall. intros fr Hin.
    pose proof (find_none _ _ Hfr fr Hin) as Hn. simpl in Hn.
    by apply negb_false_iff in Hn.
Qed.

Lemma runEvents_located events e gid g :
  plainTrace events →
  runEvents initEngine events = Some e → goroutines e !! gid = Some g →
  located g.
Proof.
  intros Hplain Hrun.
  apply (runEvents_preserves_on plainTransition located events initEngine e);
    try done.
  intros t st from to g0 g' Hst Hg0.
  apply (applyTransition_preserves located); try done.
  - intros g1 s f l He _. unfold located. simpl.
    by apply (extractStack_located (Trace.Stack st)).
  - intros g1 g2 Hg1 _ _. unfold pushSync.
    destruct (_ <? 0); [done|]. by intros [= <-].
Qed.

End PlainFrames.

(** X21. On a trace whose stack frames have plain function and file
    names, every finding of [detectLeaks], [detectDeadlocks], [detectABBA]
    and [detectChanLockCycle] names a function and a location: a stack
    that passes the runtime filter always has a frame to take them
    from. *)
Theorem blocked_goroutine_findings_have_a_location
    (events : list Trace.Event) (e : Detector.engine)
    (opts : Detector.Options) (it : Detector.iteration) (f : Detector.Finding) :
  Trail.plainTrace events →
  Detector.runEvents Detector.initEngine events = Some e →
  Detector.iterates (Detector.goroutines e) (Detector.lastTime e) opts it →
  In f (Detector.detectLeaks (Detector.it_leaks it) (Detector.lastTime e) opts ++
        Detector.detectDeadlocks (Detector.it_deadlocks it)
          (Detector.lastTime e) opts (Detector.it_groups it) ++
        Detector.detectABBA (Detector.it_abba it) (Detector.lastTime e) ++
        Detector.detectChanLockCycle (Detector.it_waiters it)
          (Detector.it_chanlock it) (Detector.lastTime e)) →
  Detector.Function f ≠ "" ∧ Detector.Location f ≠ "" ∧
  Detector.Stack f ≠ "".
Proof.
  intros Hplain Hrun Hit Hin.
  destruct (blocking_detectors_name_blocked _ _ _ _ _ Hit Hin)
    as (g & Hg & _ & Hrt & Hs & Hf & Hl & _).
  destruct (runEvents_located events e _ g Hplain Hrun Hg Hrt) as [H1 H2].
  rewrite Hs, Hf, Hl. split; [done|]. split; [done|].
  intros H0. by rewrite H0 in Hrt.
Qed.

Lemma blocked_goroutine_findings_have_a_location_witness :
  let it := Examples.forward Scenarios.inversion in
  let lastTime := Detector.lastTime (Examples.finalEngine Scenarios.inversion) in
  ∃ f,
    In f (Detector.detectABBA (Detector.it_abba it) lastTime) ∧
    Detector.Function f ≠ "" ∧ Detector.Location f ≠ "".
Proof.
  cbv zeta.
  set (it := Examples.forward Scenarios.inversion).
  set (e := Examples.finalEngine Scenarios.inversion).
  destruct (Detector.detectABBA (Detector.it_abba it) (Detector.lastTime e)
              !! 0%nat) as [f|] eqn:E; [|vm_compute in E; discriminate].
  assert (Hin : In f (Detector.detectABBA (Detector.it_abba it)
                        (Detector.lastTime e))).
  { exact (lookup_In _ _ _ E). }
  destruct (blocked_goroutine_findings_have_a_location Scenarios.inversion e
              Examples.opts1s it f) as (Hfn & Hloc & _).
  - unfold Trail.plainTrace, Scenarios.inversion.
    repeat (apply List.Forall_cons;
            [vm_compute; try exact I; repeat constructor|]).
    apply List.Forall_nil.
  - vm_compute. reflexivity.
  - apply iterationOf_iterates. reflexivity.
  - apply in_or_app. right. apply in_or_app. right. apply in_or_app. left.
    exact Hin.
  - exists f. exact (conj Hin (conj Hfn Hloc)).
Defined.

(** ** The record of a goroutine and the transitions of the trace *)

Section Lifecycle.
Import GoStrings GoTime Trace Detector Views Trail.

Lemma step_stateOf e ev e' gid :
  step e ev = Some e' →
  match transitionOf gid ev with
  | Some (st, from, to) =>
      Payload ev = EventStateTransition st ∧
      applyTransition (Time ev) st from to (stateOf e gid) = Some (stateOf e' gid)
  | None => stateOf e' gid = stateOf e gid
  end.
Proof.
  unfold step, transitionOf, stateOf.
  destruct (Payload ev) as [st|]; [|by intros [= <-]].
  destruct (Resource_ st) as [g from to|]; [|by intros [= <-]].
  destruct (applyTransition _ _ _ _ _) as [g'|] eqn:Ha; [|done].
  intros [= <-]. simpl. destruct (Z.eqb_spec g gid) as [->|Hne].
  - rewrite lookup_insert_eq. simpl. done.
  - by rewrite lookup_insert_ne.
Qed.

(** What one transition does to the fields of the current block, the
    creation and the death. *)
Lemma applyTransition_fields t st from to g g' :
  applyTransition t st from to g = Some g' →
  (if Executing from && GoState_eqb to GoWaiting
   then isBlocked g' = true ∧ reason g' = Reason st ∧ blockStart g' = t ∧
        extractStack (Trace.Stack st) = (stack g', function g', location g')
   else if GoState_eqb from GoWaiting && (Executing to || GoState_eqb to GoRunnable)
   then isBlocked g' = false ∧ reason g' = "" ∧ stack g' = "" ∧
        blockStart g' = blockStart g
   else isBlocked g' = isBlocked g ∧ reason g' = reason g ∧
        blockStart g' = blockStart g ∧ stack g' = stack g ∧
        function g' = function g ∧ location g' = location g) ∧
  (if GoState_eqb from GoNotExist
   then creationSeen g' = true ∧
        extractStack (Trace.Stack st) =
          (creationStack g', creationFunction g', creationLocation g')
   else creationSeen g' = creationSeen g ∧ creationStack g' = creationStack g ∧
        creationFunction g' = creationFunction g ∧
        creationLocation g' = creationLocation g) ∧
  goroutineDead g' = goroutineDead g || GoState_eqb to GoNotExist.
Proof.
  unfold applyTransition.
  destruct (extractStack (Trace.Stack st)) as [[s f] l] eqn:He.
  destruct from, to; simpl;
    repeat match goal with
    | |- context [if ?c then _ else _] =>
        match c with
        | context [isBlocked _] => destruct c
        | context [_ >? _] => destruct c
        end
    end;
    unfold pushSync;
    repeat match goal with
    | |- context [if ?c then _ else _] =>
        match c with
        | context [_ <? 0] => destruct c
        end
    end;
    try done;
    intros [= <-]; simpl; rewrite ?orb_false_r, ?orb_true_r; done.
Qed.

Lemma runEvents_summary gid events : ∀ e e' curB curC dead,
  blockedBy curB (stateOf e gid) →
  createdBy curC (stateOf e gid) →
  goroutineDead (stateOf e gid) = dead →
  runEvents e events = Some e' →
  blockedBy
    (fold_left (λ cur ev, if blocks gid ev then Some ev
                          else if unblocks gid ev then None else cur)
       events curB)
    (stateOf e' gid) ∧
  createdBy
    (fold_left (λ cur ev, if creates gid ev then Some ev else cur) events curC)
    (stateOf e' gid) ∧
  goroutineDead (stateOf e' gid) = dead || existsb (ends gid) events.
Proof.
  induction events as [|ev events IH]; intros e e' curB curC dead HB HC HD; simpl.
  - intros [= <-]. by rewrite orb_false_r.
  - destruct (step e ev) as [e1|] eqn:Hstep; [|done].
    intros Hrun. pose proof (step_stateOf e ev e1 gid Hstep) as Hst.
    unfold blocks, unblocks, creates, ends in *.
    destruct (transitionOf gid ev) as [[[st from] to]|] eqn:Htr.
    + destruct Hst as [Hpay Happ].
      destruct (applyTransition_fields _ _ _ _ _ _ Happ) as (Hb & Hc & Hd).
      rewrite orb_assoc.
      apply (IH e1 e'); try done.
      * destruct (Executing from && GoState_eqb to GoWaiting).
        { unfold blockedBy, reasonOf, stackOf. by rewrite Hpay. }
        destruct (GoState_eqb from GoWaiting &&
                  (Executing to || GoState_eqb to GoRunnable)); [by destruct Hb|].
        destruct Hb as (H1 & H2 & H3 & H4 & H5 & H6).
        unfold blockedBy in *. destruct curB as [ev0|]; [|congruence].
        rewrite H1, H2, H3, H4, H5, H6. done.
      * destruct (GoState_eqb from GoNotExist).
        { unfold createdBy, stackOf. by rewrite Hpay. }
        destruct Hc as (H1 & H2 & H3 & H4).
        unfold createdBy in *. destruct curC as [ev0|]; [|congruence].
        rewrite H1, H2, H3, H4. done.
      * by rewrite Hd, HD.
    + cbn [orb]. apply (IH e1 e'); try done; by rewrite Hst.
Qed.

End Lifecycle.

(** X22. The record the engine ends with for a goroutine summarises the
    goroutine's transitions.  The goroutine is blocked exactly when its
    last block is followed by no unblock (a transition from Waiting to an
    executing state or to Runnable), and reason, start and stack are then
    those of that block; its creation is seen exactly when some transition
    leaves NotExist, and the creation stack is that of the last one; it is
    dead exactly when some transition enters NotExist. *)
Theorem engine_record_summarises_the_transitions
    (events : list Trace.Event) (e : Detector.engine) (gid : Z) :
  Detector.runEvents Detector.initEngine events = Some e →
  let g := Trail.stateOf e gid in
  Trail.blockedBy (Trail.lastBlock gid events) g ∧
  Trail.createdBy (Trail.lastCreation gid events) g ∧
  Detector.goroutineDead g = existsb (Trail.ends gid) events.
Proof.
  intros Hrun g.
  apply (runEvents_summary gid events Detector.initEngine e None None false);
    done.
Qed.

Lemma engine_record_summarises_the_transitions_witness :
  Detector.isBlocked
    (Trail.stateOf (Examples.finalEngine Examples.receiveLeak) 18) = true ∧
  Detector.blockStart
    (Trail.stateOf (Examples.finalEngine Examples.receiveLeak) 18) = 20 ∧
  Detector.goroutineDead
    (Trail.stateOf (Examples.finalEngine Examples.twoTimedOut) 1) = true.
Proof.
  destruct (engine_record_summarises_the_transitions Examples.receiveLeak
              (Examples.finalEngine Examples.receiveLeak) 18)
    as (Hb & _); [vm_compute; reflexivity|].
  destruct (engine_record_summarises_the_transitions Examples.twoTimedOut
              (Examples.finalEngine Examples.twoTimedOut) 1)
    as (_ & _ & Hd); [vm_compute; reflexivity|].
  change (Trail.lastBlock 18 Examples.receiveLeak)
    with (Some (Examples.transition 20 18 Trace.GoRunning Trace.GoWaiting
                  "chan receive" Examples.workerFrames)) in Hb.
  destruct Hb as (H1 & _ & H3 & _).
  split; [exact H1|]. split; [exact H3|]. rewrite Hd. reflexivity.
Defined.

(** ** The status of the debug listing and [detectLeaks] *)

(** X24. The status [printDebugFiltered] prints for a blocked goroutine
    and the verdict of [detectLeaks] differ in two cases only.  A
    goroutine marked REPORTED is not reported when it is blocked on
    something other than a channel for less than [MinBlock].  A goroutine
    marked FILTERED is reported all the same when its creation stack is
    runtime-only and holds the text [testing.] (it was started by the
    testing framework) and it is not blocked on "sync": the listing tests
    the creation stack with [isRuntimeGoroutine], [detectLeaks] with
    [isNonTestRuntimeGoroutine]. *)
Theorem debug_status_differs_from_detectLeaks
    (lastTime : Z) (opts : Detector.Options) (gid : Z)
    (g : Detector.goroutineState) :
  Detector.isBlocked g = true →
  (Debug.status g = "REPORTED" →
   Detector.detectLeaks_body lastTime opts gid g = None →
   Detector.reason g ≠ "chan send" ∧ Detector.reason g ≠ "chan receive" ∧
   Trail.blockedFor lastTime g < Detector.MinBlock opts) ∧
  (Debug.status g ≠ "REPORTED" →
   Detector.detectLeaks_body lastTime opts gid g ≠ None →
   Detector.creationSeen g = true ∧
   Detector.isRuntimeGoroutine (Detector.creationStack g) = true ∧
   GoStrings.Contains (Detector.creationStack g) "testing." = true ∧
   Detector.reason g ≠ "sync" ∧
   (Debug.filterReason g = "chan-block+creation-stack=runtime" ∨
    Debug.filterReason g = "non-chan-sync-block+creation-stack=runtime")).
Proof.
  intros Hb.
  unfold Debug.status, Debug.filterReason, Detector.detectLeaks_body,
    Detector.isNonTestRuntimeGoroutine, Trail.blockedFor.
  rewrite Hb. cbn [negb].
  destruct (Detector.isRuntimeGoroutine (Detector.stack g)); [by split|].
  destruct (String.eqb_spec (Detector.reason g) "sleep") as [Hs|Hs]; [by split|].
  destruct (String.eqb_spec (Detector.reason g) "chan send") as [Hcs|Hcs];
  destruct (String.eqb_spec (Detector.reason g) "chan receive") as [Hcr|Hcr];
  destruct (String.eqb_spec (Detector.reason g) "sync") as [Hy|Hy];
  destruct (Detector.creationSeen g);
  destruct (Detector.isRuntimeGoroutine (Detector.creationStack g));
  destruct (GoStrings.Contains (Detector.creationStack g) "testing.");
  cbn [negb orb andb String.eqb Ascii.eqb Bool.eqb String.append];
  try (split; intros; congruence);
  try (destruct (Z.ltb_spec
                   (GoTime.mul64 (GoTime.sub64 lastTime (Detector.blockStart g))
                      GoTime.Nanosecond) (Detector.MinBlock opts));
       split; intros; try done; try congruence; auto 10).
Qed.

Lemma debug_status_differs_from_detectLeaks_witness :
  let g := Trail.stateOf (Examples.finalEngine Examples.receiveLeak) 18 in
  Debug.status g = "FILTERED(chan-block+creation-stack=runtime)" ∧
  Detector.detectLeaks_body 300000000 Examples.opts1s 18 g ≠ None ∧
  GoStrings.Contains (Detector.creationStack g) "testing." = true.
Proof.
  cbv zeta.
  assert (Hst : Debug.status
            (Trail.stateOf (Examples.finalEngine Examples.receiveLeak) 18) =
          "FILTERED(chan-block+creation-stack=runtime)")
    by (vm_compute; reflexivity).
  assert (Hrep : Detector.detectLeaks_body 300000000 Examples.opts1s 18
            (Trail.stateOf (Examples.finalEngine Examples.receiveLeak) 18)
          ≠ None) by (vm_compute; discriminate).
  split; [exact Hst|]. split; [exact Hrep|].
  destruct (debug_status_differs_from_detectLeaks 300000000 Examples.opts1s 18
              (Trail.stateOf (Examples.finalEngine Examples.receiveLeak) 18))
    as [_ H]; [vm_compute; reflexivity|].
  destruct H as (_ & _ & Ht & _); [|exact Hrep|exact Ht].
  rewrite Hst. discriminate.
Defined.

(** ** The stand-alone [analyzeTrace] and the engine of [Analyze] *)

Section Engines.
Import GoStrings GoTime Trace Detector Trail.

Lemma applyTransition_sameBlock t st from to gp gd gd' :
  GoState_eqb from GoWaiting && GoState_eqb to GoRunnable = false →
  sameBlock gp gd →
  applyTransition t st from to gd = Some gd' →
  sameBlock (Prototype.applyTransition t st from to gp) gd'.
Proof.
  intros Hw (H1 & H2 & H3 & H4) Ha.
  destruct (applyTransition_fields _ _ _ _ _ _ Ha) as (Hb & _ & _).
  unfold Prototype.applyTransition, sameBlock.
  destruct from, to; simpl in *; try discriminate Hw;
    try (destruct Hb as (-> & -> & -> & Hs);
         rewrite extractStack_eq in Hs; injection Hs as <- _ _; done);
    try (destruct Hb as (-> & -> & -> & ->); done);
    try (destruct Hb as (-> & -> & -> & -> & _); done).
Qed.

Lemma step_sameBlocks p e ev e' :
  wakes ev = false → sameBlocks p e → step e ev = Some e' →
  sameBlocks (Prototype.step p ev) e'.
Proof.
  intros Hw [Ht Hg]. unfold step, Prototype.step, wakes in *.
  destruct (Payload ev) as [st|]; [|intros [= <-]; by split].
  destruct (Resource_ st) as [gid from to|]; [|intros [= <-]; by split].
  destruct (applyTransition _ _ _ _ _) as [gd'|] eqn:Ha; [|done].
  intros [= <-]. split; [done|]. intros gid'. simpl.
  destruct (decide (gid' = gid)) as [->|Hne].
  - rewrite !lookup_insert_eq.
    eapply applyTransition_sameBlock; [exact Hw| |exact Ha].
    specialize (Hg gid).
    destruct (Prototype.goroutines p !! gid) as [gp|],
             (goroutines e !! gid) as [gd|]; simpl; try done.
  - rewrite !lookup_insert_ne by done. apply Hg.
Qed.

Lemma runEvents_sameBlocks events : ∀ p e e',
  forallb (λ ev, negb (wakes ev)) events = true →
  sameBlocks p e → runEvents e events = Some e' →
  sameBlocks (fold_left Prototype.step events p) e'.
Proof.
  induction events as [|ev events IH]; intros p e e' Hw Hs; simpl.
  - by intros [= <-].
  - simpl in Hw. apply andb_true_iff in Hw as [Hw1 Hw2].
    apply negb_true_iff in Hw1.
    destruct (step e ev) as [e1|] eqn:Hstep; [|done].
    intros Hrun. apply (IH _ e1); [done| |done].
    by apply (step_sameBlocks p e).
Qed.

End Engines.

(** X25. On a trace in which no goroutine goes from Waiting to Runnable,
    the stand-alone [analyzeTrace] and [Analyze] end their event loops
    with the same goroutines and, for each of them, the same blocked
    flag, reason, stack and block start, and with the same last time
    stamp: the two engines differ through wake-ups only. *)
Theorem analyzeTrace_agrees_with_Analyze_without_wakeups
    (events : list Trace.Event) (e : Detector.engine) :
  forallb (λ ev, negb (Trail.wakes ev)) events = true →
  Detector.runEvents Detector.initEngine events = Some e →
  Trail.sameBlocks (Prototype.runEvents events) e.
Proof.
  intros Hw Hrun.
  apply (runEvents_sameBlocks events Prototype.initEngine Detector.initEngine);
    [done| |done].
  split; [done|]. intros gid. cbn. by rewrite !lookup_empty.
Qed.

Lemma analyzeTrace_agrees_with_Analyze_without_wakeups_witness :
  Trail.sameBlocks (Prototype.runEvents Examples.receiveLeak)
    (Examples.finalEngine Examples.receiveLeak).
Proof.
  apply analyzeTrace_agrees_with_Analyze_without_wakeups.
  - vm_compute. reflexivity.
  - vm_compute. reflexivity.
Defined.

